(** * tinygo-narwhal-rp2040: protocol engine and configuration store

    A shallow embedding of the binary serial protocol (pkg/protocol), the
    fixed-layout configuration records (pkg/config) and the flash-backed
    storage manager (pkg/storage), together with the properties of the
    written specification that were checked against them.

    Bytes are the standard [byte] type, fixed-width integers are [Z] with the
    wrap-around written out, little-endian fields use coqutil's
    [le_split]/[le_combine], and the LittleFS tree is a finite map from
    absolute paths to nodes. *)

From Stdlib Require Import ZArith Lia List String Ascii Bool.
From coqutil Require Import Byte Word.LittleEndianList.
From stdpp Require Import gmap strings list fin_maps.

Local Open Scope Z_scope.

(** ** Errors

    Go's [error] values that can flow through the modelled code.  The
    filesystem collaborator (tinyfs/littlefs) reports [littlefs.Error], an
    integer error number; every package-level [errors.New] value of the
    repository is a constructor of its own, so that [err == storage.ErrX]
    is plain equality. *)

Inductive errno : Set :=
| errIO | errCorrupt | errNoEntry | errExists | errNotDir | errIsDir
| errNotEmpty | errBadFileNumber | errFileTooLarge | errInvalidParam
| errNoSpace | errNoMemory.

Inductive error : Set :=
| LfsError (e : errno)          (* littlefs.Error *)
| ErrProfileNotFound            (* storage *)
| ErrFlashFull
| ErrInvalidProfile
| ErrVersionMismatch
| ErrFilesystem
| ErrNotADirectory              (* errors.New("not a directory") in readDir *)
| ErrInvalidSize                (* config *)
| ErrInvalidFrame               (* protocol *)
| ErrCRCMismatch
| ErrTimeout
| EOF                           (* io *)
| ErrUnexpectedEOF.

Global Instance errno_eq_dec : EqDecision errno.
Proof. solve_decision. Defined.

Global Instance error_eq_dec : EqDecision error.
Proof. solve_decision. Defined.

Inductive result (A : Type) : Type :=
| Ok (a : A)
| Err (e : error).

Arguments Ok {A} a.
Arguments Err {A} e.

(** ** Fixed-width integers and little-endian fields *)

Definition uint8 (z : Z) : byte := byte.of_Z z.
Definition uint16 (z : Z) : Z := z mod 65536.
Definition uint32 (z : Z) : Z := z mod 4294967296.

(** [binary.LittleEndian.PutUint16(buf, v)] writes two bytes,
    [binary.LittleEndian.Uint16(buf)] reads the first two of [buf]. *)
Definition PutUint16 (v : Z) : list byte := le_split 2 v.
Definition Uint16 (b : list byte) : Z := le_combine (firstn 2 b).
Definition PutUint32 (v : Z) : list byte := le_split 4 v.
Definition Uint32 (b : list byte) : Z := le_combine (firstn 4 b).

Definition byte_eqb (a b : byte) : bool := Byte.eqb a b.

Global Instance byte_eq_dec : EqDecision byte.
Proof.
  intros a b. destruct (N.eq_dec (Byte.to_N a) (Byte.to_N b)) as [H|H].
  - left. now apply byte.to_N_inj.
  - right. intros ->. now apply H.
Defined.

(** ** Strings

    The few functions of [strings], [strconv] and [path] that the storage
    manager calls, over Rocq strings. *)

Local Open Scope string_scope.

Definition HasPrefix (s pre : string) : bool := String.prefix pre s.

Definition HasSuffix (s suf : string) : bool :=
  (String.length suf <=? String.length s)%nat
  && String.eqb (substring (String.length s - String.length suf)
                           (String.length suf) s) suf.

Definition TrimPrefix (s pre : string) : string :=
  if HasPrefix s pre
  then substring (String.length pre) (String.length s - String.length pre) s
  else s.

Definition TrimSuffix (s suf : string) : string :=
  if HasSuffix s suf
  then substring 0 (String.length s - String.length suf) s
  else s.

(** [strings.Contains]. *)
Fixpoint Contains (s sub : string) : bool :=
  String.prefix sub s
  || match s with
     | EmptyString => false
     | String _ s' => Contains s' sub
     end.

Definition digit_char (d : Z) : ascii := ascii_of_nat (48 + Z.to_nat d).

Fixpoint itoa_digits (fuel : nat) (n : Z) (acc : string) : string :=
  match fuel with
  | O => acc
  | S fuel' =>
      let acc' := String (digit_char (n mod 10)) acc in
      if (n / 10 =? 0)%Z then acc' else itoa_digits fuel' (n / 10) acc'
  end.

(** [strconv.Itoa]; the fuel covers every decimal digit of [n]. *)
Definition Itoa (n : Z) : string :=
  if (n <? 0)%Z
  then String "-"%char (itoa_digits (S (Z.to_nat (Z.log2 (- n)))) (- n) "")
  else itoa_digits (S (Z.to_nat (Z.log2 n))) n "".

Definition digit_value (c : ascii) : option Z :=
  let n := Z.of_nat (nat_of_ascii c) in
  if ((48 <=? n) && (n <=? 57))%Z then Some (n - 48) else None.

Fixpoint parse_digits (s : string) (acc : Z) (max : Z) : option Z :=
  match s with
  | EmptyString => Some acc
  | String c s' =>
      match digit_value c with
      | None => None
      | Some d =>
          let acc' := acc * 10 + d in
          if (max <? acc')%Z then None else parse_digits s' acc' max
      end
  end.

(** [strconv.ParseUint(s, 10, bitSize)]: decimal digits only, at least one,
    value below [2^bitSize]; [None] stands for any of its errors. *)
Definition ParseUint (s : string) (bitSize : Z) : option Z :=
  match s with
  | EmptyString => None
  | _ => parse_digits s 0 (2 ^ bitSize - 1)
  end.

(** [path.Join] of an already clean directory and a file name. *)
Definition path_Join (dir name : string) : string := dir ++ "/" ++ name.

(** The directory part of a clean absolute path ([path.Dir]). *)
Fixpoint path_Dir_go (s : string) (cur acc : string) : string :=
  match s with
  | EmptyString => acc
  | String c s' =>
      if Ascii.eqb c "/"%char
      then path_Dir_go s' (cur ++ "/") cur
      else path_Dir_go s' (cur ++ String c EmptyString) acc
  end.

Definition path_Dir (p : string) : string :=
  match path_Dir_go p "" "" with
  | EmptyString => "/"
  | d => d
  end.

Local Close Scope string_scope.

(** ** pkg/config: the fixed-layout records *)

Module config.

Definition CurrentVersion : Z := 1.

Module KeyBinding.
Record t := mk {
  InputType : byte;
  InputID : byte;
  OutputType : byte;
  OutputValue : Z;
  Modifiers : byte;
  Flags : byte;
  Reserved : byte
}.

Definition zero : t := mk Byte.x00 Byte.x00 Byte.x00 0 Byte.x00 Byte.x00 Byte.x00.

(** The eight bytes written at [offset] by the loop of
    [Profile.MarshalBinary]. *)
Definition bytes (b : t) : list byte :=
  [InputType b; InputID b; OutputType b]
    ++ PutUint16 (OutputValue b)
    ++ [Modifiers b; Flags b; Reserved b].

(** The binding read at [offset] by the loop of
    [Profile.UnmarshalBinary]. *)
Definition read (data : list byte) (offset : nat) : t :=
  mk (nth offset data Byte.x00)
     (nth (offset + 1) data Byte.x00)
     (nth (offset + 2) data Byte.x00)
     (Uint16 (skipn (offset + 3) data))
     (nth (offset + 5) data Byte.x00)
     (nth (offset + 6) data Byte.x00)
     (nth (offset + 7) data Byte.x00).
End KeyBinding.

(** [copy(dst, src)] into a fixed array of [n] bytes whose old content is
    [old]: the first [min n (len src)] bytes come from [src]. *)
Definition copy_array (n : nat) (old src : list byte) : list byte :=
  firstn n (firstn n src ++ skipn (length (firstn n src)) (old ++ repeat Byte.x00 n)).

Module Profile.
Record t := mk {
  Version : Z;
  Flags : Z;
  RGBColor : Z;
  RGBPattern : byte;
  Reserved1 : byte;
  BindingCount : byte;
  Reserved2 : byte;
  Name : list byte;                    (* [16]byte *)
  Bindings : list KeyBinding.t         (* [32]KeyBinding *)
}.

(** The zero value of the struct ([var profile config.Profile]). *)
Definition zero : t :=
  mk 0 0 0 Byte.x00 Byte.x00 Byte.x00 Byte.x00
     (repeat Byte.x00 16) (repeat KeyBinding.zero 32).

Definition set_Version (p : t) (v : Z) : t :=
  mk v (Flags p) (RGBColor p) (RGBPattern p) (Reserved1 p)
     (BindingCount p) (Reserved2 p) (Name p) (Bindings p).

Definition MarshalBinary (p : t) : list byte * option error :=
  let header :=
    PutUint16 (Version p) ++ PutUint32 (Flags p) ++ PutUint32 (RGBColor p)
      ++ [RGBPattern p; Reserved1 p; BindingCount p; Reserved2 p]
      ++ copy_array 16 [] (Name p) in
  let bindings :=
    flat_map (fun i => KeyBinding.bytes (nth i (Bindings p) KeyBinding.zero))
             (seq 0 32) in
  (header ++ bindings, None).

Definition UnmarshalBinary (p : t) (data : list byte) : option error * t :=
  if (length data <? 286)%nat then (Some ErrInvalidSize, p)
  else
    (None,
     mk (Uint16 data)
        (Uint32 (skipn 2 data))
        (Uint32 (skipn 6 data))
        (nth 10 data Byte.x00)
        (nth 11 data Byte.x00)
        (nth 12 data Byte.x00)
        (nth 13 data Byte.x00)
        (copy_array 16 (Name p) (firstn 16 (skipn 14 data)))
        (map (fun i => KeyBinding.read data (30 + i * 8)) (seq 0 32))).
Definition set_Name (p : t) (name : list byte) : t :=
  mk (Version p) (Flags p) (RGBColor p) (RGBPattern p) (Reserved1 p)
     (BindingCount p) (Reserved2 p) name (Bindings p).

(** The bytes of an array before its first zero byte, all of it if there
    is none: the loop of [GetName]. *)
Fixpoint until_zero (l : list byte) : list byte :=
  match l with
  | [] => []
  | b :: l' => if byte_eqb b Byte.x00 then [] else b :: until_zero l'
  end.

(** [GetName]; the Go string is its bytes. *)
Definition GetName (p : t) : list byte := until_zero (Name p).

(** [SetName]: at most 15 bytes are copied over the start of [Name] and
    the byte after them is set to zero; the rest of [Name] keeps what it
    held. *)
Definition SetName (p : t) (name : list byte) : t :=
  let b := if (15 <? length name)%nat then firstn 15 name else name in
  set_Name p (<[length b := Byte.x00]> (copy_array 16 (Name p) b)).
End Profile.

Module DeviceConfig.
Record t := mk {
  Version : Z;
  Flags : Z;
  ActiveProfile : byte;
  Brightness : byte;
  DebounceMs : byte;
  Reserved1 : byte;
  Reserved2 : Z
}.

Definition zero : t := mk 0 0 Byte.x00 Byte.x00 Byte.x00 Byte.x00 0.

Definition set_Version (d : t) (v : Z) : t :=
  mk v (Flags d) (ActiveProfile d) (Brightness d) (DebounceMs d)
     (Reserved1 d) (Reserved2 d).

Definition MarshalBinary (d : t) : list byte * option error :=
  (PutUint16 (Version d) ++ PutUint32 (Flags d)
     ++ [ActiveProfile d; Brightness d; DebounceMs d; Reserved1 d]
     ++ PutUint16 (Reserved2 d),
   None).

Definition UnmarshalBinary (d : t) (data : list byte) : option error * t :=
  if (length data <? 12)%nat then (Some ErrInvalidSize, d)
  else
    (None,
     mk (Uint16 data)
        (Uint32 (skipn 2 data))
        (nth 6 data Byte.x00)
        (nth 7 data Byte.x00)
        (nth 8 data Byte.x00)
        (nth 9 data Byte.x00)
        (Uint16 (skipn 10 data))).
End DeviceConfig.

End config.

(** ** The filesystem collaborator (tinyfs/littlefs)

    The storage manager talks to a mounted LittleFS through [Open],
    [OpenFile], [Read], [Write], [Sync], [Close], [Readdir], [Remove],
    [Rename] and [Mkdir].  The library is not part of the repository; this is
    a model of the behaviour the manager relies on:

    - the tree is a finite map from clean absolute paths to nodes, the root
      ["/"] always being a directory;
    - every call first consults [oracle], the schedule of injected device
      faults: [Some f] makes the call fail with [f] (an I/O error, a full
      flash, ...), [None] or an exhausted schedule lets it run; the call and
      the schedule's verdict are recorded in [trace], most recent first;
    - a call on a missing entry reports [errNoEntry] ("No directory entry"),
      [Mkdir] on an existing one [errExists] ("Entry already exists"): these
      are the two messages the manager itself looks for;
    - the map stands for a well-formed tree, in which the ancestors of an
      entry are directories.  Two situations that the manager does not
      create itself are outside the model, and are excluded by hypothesis
      where a statement depends on them: a regular file in the place of a
      directory on the way to a missing entry (LittleFS then reports
      [errNotDir] instead of [errNoEntry]), and a directory in the place
      of the file given to [OpenFile] (tinyfs hands out a directory
      handle, on which [Write] must not be called);
    - [rename_replaces] says whether [Rename] replaces an existing
      destination.  Upstream LittleFS does; the comment in [atomicWrite]
      assumes it does not.  The model leaves the choice open. *)

Module littlefs.

Inductive node :=
| File (data : list byte)
| Dir.

Inductive call : Set :=
| CallOpen (path : string)
| CallOpenFile (path : string)
| CallRead (path : string)
| CallReaddir (path : string)
| CallWrite (path : string)
| CallSync (path : string)
| CallClose (path : string)
| CallRemove (path : string)
| CallRename (oldpath newpath : string)
| CallMkdir (path : string).

(** An injected fault: the error reported and, for a [Write], how many
    bytes reached the file before it. *)
Record fault : Set := mkFault { fault_errno : errno; fault_written : nat }.

Record LFS := mkLFS {
  nodes : gmap string node;
  oracle : list (option fault);
  trace : list (call * option fault);
  rename_replaces : bool
}.

(** An open file: its path and whether it was opened as a directory. *)
Record handle : Set := mkHandle { h_path : string; h_isdir : bool }.

Definition IsDir (f : handle) : bool := h_isdir f.

Definition message (e : errno) : string :=
  match e with
  | errIO => "littlefs: Error during device operation"
  | errCorrupt => "littlefs: Corrupted"
  | errNoEntry => "littlefs: No directory entry"
  | errExists => "littlefs: Entry already exists"
  | errNotDir => "littlefs: Entry is not a dir"
  | errIsDir => "littlefs: Entry is a dir"
  | errNotEmpty => "littlefs: Dir is not empty"
  | errBadFileNumber => "littlefs: Bad file number"
  | errFileTooLarge => "littlefs: File too large"
  | errInvalidParam => "littlefs: Invalid parameter"
  | errNoSpace => "littlefs: No space left on device"
  | errNoMemory => "littlefs: No more memory available"
  end%string.

(** The schedule's verdict on the next call. *)
Definition verdict (fs : LFS) : option fault :=
  match oracle fs with
  | f :: _ => f
  | [] => None
  end.

(** Record the call and take the next entry of the fault schedule. *)
Definition enter (c : call) (fs : LFS) : option fault * LFS :=
  (verdict fs,
   mkLFS (nodes fs) (tl (oracle fs)) ((c, verdict fs) :: trace fs) (rename_replaces fs)).

Definition set_nodes (fs : LFS) (m : gmap string node) : LFS :=
  mkLFS m (oracle fs) (trace fs) (rename_replaces fs).

Definition is_dir (m : gmap string node) (path : string) : bool :=
  String.eqb path "/"
  || match m !! path with
     | Some Dir => true
     | _ => false
     end.

(** The name of [key] as an entry of directory [dir], when it is one. *)
Definition entry_name (dir key : string) : option string :=
  let pre := (dir ++ "/")%string in
  if HasPrefix key pre
  then
    let name := substring (String.length pre)
                          (String.length key - String.length pre) key in
    if String.eqb name "" || Contains name "/" then None else Some name
  else None.

Definition entries (m : gmap string node) (dir : string) : list string :=
  omap (fun kv => entry_name dir (fst kv)) (map_to_list m).

Definition Open (path : string) (fs : LFS) : result handle * LFS :=
  let '(f, fs) := enter (CallOpen path) fs in
  match f with
  | Some f => (Err (LfsError (fault_errno f)), fs)
  | None =>
      if String.eqb path "/" then (Ok (mkHandle path true), fs)
      else
        match nodes fs !! path with
        | None => (Err (LfsError errNoEntry), fs)
        | Some Dir => (Ok (mkHandle path true), fs)
        | Some (File _) => (Ok (mkHandle path false), fs)
        end
  end.

(** [OpenFile(path, O_WRONLY|O_CREATE|O_TRUNC)], the only flags used. *)
Definition OpenFile (path : string) (fs : LFS) : result handle * LFS :=
  let '(f, fs) := enter (CallOpenFile path) fs in
  match f with
  | Some f => (Err (LfsError (fault_errno f)), fs)
  | None =>
      if negb (is_dir (nodes fs) (path_Dir path)) then (Err (LfsError errNoEntry), fs)
      else
        match nodes fs !! path with
        | Some Dir => (Err (LfsError errIsDir), fs)
        | _ => (Ok (mkHandle path false),
                set_nodes fs (<[path := File []]> (nodes fs)))
        end
  end.

(** [f.Read(buf)] with [len(buf) = n] on a freshly opened file: the bytes
    read (their number is the [n] of Go's result), [io.EOF] when there is
    nothing to read. *)
Definition Read (f : handle) (n : nat) (fs : LFS) : result (list byte) * LFS :=
  let '(flt, fs) := enter (CallRead (h_path f)) fs in
  match flt with
  | Some flt => (Err (LfsError (fault_errno flt)), fs)
  | None =>
      if IsDir f then (Err (LfsError errIsDir), fs)
      else
        match nodes fs !! h_path f with
        | Some (File data) =>
            match firstn n data with
            | [] => (Err EOF, fs)
            | got => (Ok got, fs)
            end
        | _ => (Err (LfsError errBadFileNumber), fs)
        end
  end.

(** [f.Readdir(-1)]: the names of all entries, in directory order. *)
Definition Readdir (f : handle) (fs : LFS) : result (list string) * LFS :=
  let '(flt, fs) := enter (CallReaddir (h_path f)) fs in
  match flt with
  | Some flt => (Err (LfsError (fault_errno flt)), fs)
  | None =>
      if IsDir f then (Ok (entries (nodes fs) (h_path f)), fs)
      else (Err (LfsError errNotDir), fs)
  end.

(** [f.Write(data)]: appends at the file position; a fault may leave a
    prefix of [data] behind. *)
Definition Write (f : handle) (data : list byte) (fs : LFS) : result nat * LFS :=
  let '(flt, fs) := enter (CallWrite (h_path f)) fs in
  match nodes fs !! h_path f with
  | Some (File old) =>
      match flt with
      | Some flt =>
          (Err (LfsError (fault_errno flt)),
           set_nodes fs (<[h_path f := File (old ++ firstn (fault_written flt) data)]> (nodes fs)))
      | None =>
          (Ok (length data),
           set_nodes fs (<[h_path f := File (old ++ data)]> (nodes fs)))
      end
  | _ =>
      match flt with
      | Some flt => (Err (LfsError (fault_errno flt)), fs)
      | None => (Err (LfsError errBadFileNumber), fs)
      end
  end.

Definition Sync (f : handle) (fs : LFS) : option error * LFS :=
  let '(flt, fs) := enter (CallSync (h_path f)) fs in
  match flt with
  | Some flt => (Some (LfsError (fault_errno flt)), fs)
  | None => (None, fs)
  end.

Definition Close (f : handle) (fs : LFS) : option error * LFS :=
  let '(flt, fs) := enter (CallClose (h_path f)) fs in
  match flt with
  | Some flt => (Some (LfsError (fault_errno flt)), fs)
  | None => (None, fs)
  end.

Definition Remove (path : string) (fs : LFS) : option error * LFS :=
  let '(flt, fs) := enter (CallRemove path) fs in
  match flt with
  | Some flt => (Some (LfsError (fault_errno flt)), fs)
  | None =>
      match nodes fs !! path with
      | None => (Some (LfsError errNoEntry), fs)
      | Some Dir =>
          match entries (nodes fs) path with
          | [] => (None, set_nodes fs (delete path (nodes fs)))
          | _ => (Some (LfsError errNotEmpty), fs)
          end
      | Some (File _) => (None, set_nodes fs (delete path (nodes fs)))
      end
  end.

(** [Rename] of a regular file (the manager renames nothing else; a
    directory source is refused). *)
Definition Rename (oldpath newpath : string) (fs : LFS) : option error * LFS :=
  let '(flt, fs) := enter (CallRename oldpath newpath) fs in
  match flt with
  | Some flt => (Some (LfsError (fault_errno flt)), fs)
  | None =>
      match nodes fs !! oldpath with
      | None => (Some (LfsError errNoEntry), fs)
      | Some Dir => (Some (LfsError errIsDir), fs)
      | Some (File data) =>
          if negb (is_dir (nodes fs) (path_Dir newpath))
          then (Some (LfsError errNoEntry), fs)
          else
            match nodes fs !! newpath with
            | Some Dir => (Some (LfsError errIsDir), fs)
            | Some (File _) =>
                if rename_replaces fs
                then (None, set_nodes fs (<[newpath := File data]> (delete oldpath (nodes fs))))
                else (Some (LfsError errExists), fs)
            | None =>
                (None, set_nodes fs (<[newpath := File data]> (delete oldpath (nodes fs))))
            end
      end
  end.

Definition Mkdir (path : string) (fs : LFS) : option error * LFS :=
  let '(flt, fs) := enter (CallMkdir path) fs in
  match flt with
  | Some flt => (Some (LfsError (fault_errno flt)), fs)
  | None =>
      match nodes fs !! path with
      | Some _ => (Some (LfsError errExists), fs)
      | None =>
          if negb (is_dir (nodes fs) (path_Dir path)) then (Some (LfsError errNoEntry), fs)
          else (None, set_nodes fs (<[path := Dir]> (nodes fs)))
      end
  end.

End littlefs.

(** [err.Error()]. *)
Definition Error (e : error) : string :=
  match e with
  | LfsError n => littlefs.message n
  | ErrProfileNotFound => "profile not found"
  | ErrFlashFull => "insufficient flash space"
  | ErrInvalidProfile => "invalid profile data"
  | ErrVersionMismatch => "config version mismatch"
  | ErrFilesystem => "filesystem error"
  | ErrNotADirectory => "not a directory"
  | ErrInvalidSize => "invalid config size"
  | ErrInvalidFrame => "invalid frame"
  | ErrCRCMismatch => "CRC mismatch"
  | ErrTimeout => "timeout"
  | EOF => "EOF"
  | ErrUnexpectedEOF => "unexpected EOF"
  end%string.

(** [os.IsExist] and [os.IsNotExist] recognise the errors of package [os]
    and [syscall]; none of the errors above is one of them.  The manager's
    own fall-backs on the error text ([isExist], [LoadProfile], [GetStats])
    exist for that reason. *)
Definition os_IsExist (e : error) : bool := false.
Definition os_IsNotExist (e : error) : bool := false.

(** ** pkg/storage: the storage manager *)

Module storage.

Import littlefs.

Definition configDir : string := "/config".
Definition profilesDir : string := "/config/profiles".
Definition deviceFile : string := "/config/device.bin".
Definition tempSuffix : string := ".tmp".
Definition profilePrefix : string := "".
Definition profileSuffix : string := ".bin".

Record Manager := mkManager {
  fs : LFS;
  blockDev : Z;          (* blockDev.Size(), the capacity in bytes *)
  mounted : bool
}.

Record Stats := mkStats {
  TotalSpace : Z;
  UsedSpace : Z;
  FreeSpace : Z;
  ProfileCount : Z;
  NeedsMigration : bool
}.

(** Methods on [*Manager] thread the manager through. *)
Definition M (A : Type) : Type := Manager -> A * Manager.

Definition ret {A} (a : A) : M A := fun m => (a, m).

Definition bind {A B} (c : M A) (k : A -> M B) : M B :=
  fun m => let '(a, m') := c m in k a m'.

Notation "x <- c ;; k" := (bind c (fun x => k))
  (at level 60, c at next level, right associativity).
Notation "c ;;; k" := (bind c (fun _ => k))
  (at level 60, right associativity).

(** A call of [m.fs]. *)
Definition call_fs {A} (op : LFS -> A * LFS) : M A :=
  fun m => let '(a, fs') := op (fs m) in (a, mkManager fs' (blockDev m) (mounted m)).

Fixpoint for_each {A} (l : list A) (body : A -> M unit) : M unit :=
  match l with
  | [] => ret tt
  | x :: l' => body x ;;; for_each l' body
  end.

(** [readDir]: the deferred [f.Close()] runs after the result is computed. *)
Definition readDir (dirPath : string) : M (result (list string)) :=
  r <- call_fs (Open dirPath) ;;
  match r with
  | Err err => ret (Err err)
  | Ok f =>
      if negb (IsDir f)
      then call_fs (Close f) ;;; ret (Err ErrNotADirectory)
      else
        names <- call_fs (Readdir f) ;;
        call_fs (Close f) ;;;
        ret names
  end.

Definition isExist (err : option error) : bool :=
  match err with
  | None => false
  | Some e => if os_IsExist e then true else Contains (Error e) "already exists"
  end.

Definition ensureDirs : M (option error) :=
  err <- call_fs (Mkdir configDir) ;;
  if bool_decide (err <> None) && negb (isExist err) then ret err
  else
    err <- call_fs (Mkdir profilesDir) ;;
    if bool_decide (err <> None) && negb (isExist err) then ret err
    else ret None.

Definition profilePath (slot : byte) : string :=
  path_Join profilesDir (Itoa (byte.unsigned slot) ++ profileSuffix).

Definition atomicWrite (filepath : string) (data : list byte) : M (option error) :=
  let tempPath := (filepath ++ tempSuffix)%string in
  call_fs (Remove tempPath) ;;;
  r <- call_fs (OpenFile tempPath) ;;
  match r with
  | Err err => ret (Some err)
  | Ok f =>
      w <- call_fs (Write f data) ;;
      match w with
      | Err err =>
          call_fs (Close f) ;;;
          call_fs (Remove tempPath) ;;;
          ret (Some err)
      | Ok _ =>
          s <- call_fs (Sync f) ;;
          match s with
          | Some err =>
              call_fs (Close f) ;;;
              call_fs (Remove tempPath) ;;;
              ret (Some err)
          | None =>
              c <- call_fs (Close f) ;;
              match c with
              | Some err =>
                  call_fs (Remove tempPath) ;;;
                  ret (Some err)
              | None =>
                  call_fs (Remove filepath) ;;;
                  rn <- call_fs (Rename tempPath filepath) ;;
                  match rn with
                  | Some err =>
                      call_fs (Remove tempPath) ;;;
                      ret (Some err)
                  | None => ret None
                  end
              end
          end
      end
  end.

(** [LoadDevice(cfg)]: [cfg] is passed by pointer, so the record comes back
    with the error. *)
Definition LoadDevice (cfg : config.DeviceConfig.t)
  : M (option error * config.DeviceConfig.t) :=
  r <- call_fs (Open deviceFile) ;;
  match r with
  | Err err => ret (Some err, cfg)
  | Ok f =>
      rd <- call_fs (Read f 12) ;;
      call_fs (Close f) ;;;
      match rd with
      | Err err => ret (Some err, cfg)
      | Ok got =>
          if negb (length got =? 12)%nat then ret (Some ErrInvalidProfile, cfg)
          else ret (config.DeviceConfig.UnmarshalBinary cfg got)
      end
  end.

Definition SaveDevice (cfg : config.DeviceConfig.t)
  : M (option error * config.DeviceConfig.t) :=
  e <- ensureDirs ;;
  match e with
  | Some err => ret (Some err, cfg)
  | None =>
      let cfg := config.DeviceConfig.set_Version cfg config.CurrentVersion in
      match config.DeviceConfig.MarshalBinary cfg with
      | (_, Some err) => ret (Some err, cfg)
      | (data, None) =>
          e <- atomicWrite deviceFile data ;;
          ret (e, cfg)
      end
  end.

Definition LoadProfile (slot : byte) (profile : config.Profile.t)
  : M (option error * config.Profile.t) :=
  let profilePath := profilePath slot in
  r <- call_fs (Open profilePath) ;;
  match r with
  | Err err =>
      if os_IsNotExist err then ret (Some ErrProfileNotFound, profile)
      else if Contains (Error err) "No directory entry"
           then ret (Some ErrProfileNotFound, profile)
           else ret (Some err, profile)
  | Ok f =>
      rd <- call_fs (Read f 286) ;;
      call_fs (Close f) ;;;
      match rd with
      | Err err => ret (Some err, profile)
      | Ok got =>
          if negb (length got =? 286)%nat then ret (Some ErrInvalidProfile, profile)
          else ret (config.Profile.UnmarshalBinary profile got)
      end
  end.

Definition SaveProfile (slot : byte) (profile : config.Profile.t)
  : M (option error * config.Profile.t) :=
  e <- ensureDirs ;;
  match e with
  | Some err => ret (Some err, profile)
  | None =>
      let profile := config.Profile.set_Version profile config.CurrentVersion in
      match config.Profile.MarshalBinary profile with
      | (_, Some err) => ret (Some err, profile)
      | (data, None) =>
          e <- atomicWrite (profilePath slot) data ;;
          ret (e, profile)
      end
  end.

Definition DeleteProfile (slot : byte) : M (option error) :=
  call_fs (Remove (profilePath slot)).

Definition ProfileExists (slot : byte) : M bool :=
  r <- call_fs (Open (profilePath slot)) ;;
  match r with
  | Err _ => ret false
  | Ok f => call_fs (Close f) ;;; ret true
  end.

(** The slot named by one directory entry, when [ListProfiles] keeps it. *)
Definition entry_slot (name : string) : option byte :=
  if negb (HasSuffix name profileSuffix) then None
  else if HasSuffix name tempSuffix then None
  else
    let numStr := TrimPrefix name profilePrefix in
    let numStr := TrimSuffix numStr profileSuffix in
    match ParseUint numStr 8 with
    | Some slot => Some (uint8 slot)
    | None => None
    end.

Definition ListProfiles : M (result (list byte)) :=
  r <- readDir profilesDir ;;
  match r with
  | Err err =>
      if os_IsNotExist err then ret (Ok []) else ret (Err err)
  | Ok dirEntries => ret (Ok (omap entry_slot dirEntries))
  end.

Definition GetStats : M (result Stats) :=
  r <- ListProfiles ;;
  let continue (profiles : list byte) : M (result Stats) :=
    let used := Z.of_nat (length profiles) * 320 + 100 in
    fun m =>
      let total := blockDev m in
      (Ok (mkStats total used (total - used) (Z.of_nat (length profiles)) false), m) in
  match r with
  | Err err =>
      if Contains (Error err) "No directory entry" then continue []
      else ret (Err err)
  | Ok profiles => continue profiles
  end.

Definition CanFitProfile : M bool :=
  r <- GetStats ;;
  match r with
  | Err _ => ret false
  | Ok stats => ret (512 <? FreeSpace stats)
  end.

Definition wipeAll : M (option error) :=
  r <- ListProfiles ;;
  match r with
  | Ok slots => for_each slots (fun slot => DeleteProfile slot ;;; ret tt)
  | Err _ => ret tt
  end ;;;
  call_fs (Remove deviceFile) ;;;
  ret None.

Definition ForceWipe : M (option error) := wipeAll.

(** The loop of [bootCleanup] over the entries of [dir]: every entry
    whose name ends in [tempSuffix] is removed, the result of [Remove]
    being dropped. *)
Definition remove_temp_entries (dir : string) (names : list string) : M unit :=
  for_each names (fun name =>
    if HasSuffix name tempSuffix
    then call_fs (Remove (path_Join dir name)) ;;; ret tt
    else ret tt).

Definition bootCleanup : M (option error) :=
  r <- readDir configDir ;;
  match r with
  | Err err => if os_IsNotExist err then ret None else ret (Some err)
  | Ok dirEntries =>
      remove_temp_entries configDir dirEntries ;;;
      r <- readDir profilesDir ;;
      match r with
      | Err err => if os_IsNotExist err then ret None else ret (Some err)
      | Ok dirEntries =>
          remove_temp_entries profilesDir dirEntries ;;;
          ret None
      end
  end.

(** [checkVersion]: whether the configuration must be wiped, and the
    error of reading the device configuration if there was one. *)
Definition checkVersion : M (bool * option error) :=
  r <- LoadDevice config.DeviceConfig.zero ;;
  match r with
  | (Some err, _) =>
      if os_IsNotExist err then ret (false, None) else ret (false, Some err)
  | (None, deviceCfg) =>
      ret (negb (config.DeviceConfig.Version deviceCfg =? config.CurrentVersion), None)
  end.

(** The part of [New] that runs once the filesystem is mounted: boot
    cleanup (its error is dropped), the version check, and the wipe when
    the stored version differs.  The error is [New]'s. *)
Definition New_after_mount : M (option error) :=
  bootCleanup ;;;
  r <- checkVersion ;;
  let needsWipe := match r with
                   | (_, Some _) => false
                   | (needsWipe, None) => needsWipe
                   end in
  if needsWipe
  then
    e <- wipeAll ;;
    match e with
    | Some err => ret (Some err)
    | None => ret None
    end
  else ret None.

(** A manager on a freshly formatted, empty filesystem of [size] bytes,
    with the given fault schedule. *)
Definition blank (schedule : list (option fault)) (replaces : bool) (size : Z)
  : Manager :=
  mkManager (mkLFS ∅ schedule [] replaces) size true.

End storage.

(** ** pkg/protocol: frames and the CRC *)

Module protocol.

Definition SyncByte : byte := Byte.xaa.

Definition CmdGetDeviceConfig : byte := Byte.x01.
Definition CmdSetDeviceConfig : byte := Byte.x02.
Definition CmdGetProfile : byte := Byte.x03.
Definition CmdSetProfile : byte := Byte.x04.
Definition CmdDeleteProfile : byte := Byte.x05.
Definition CmdListProfiles : byte := Byte.x06.
Definition CmdGetStorageStats : byte := Byte.x07.
Definition CmdPing : byte := Byte.x08.
Definition CmdFactoryReset : byte := Byte.x09.
Definition CmdGetVersion : byte := Byte.x10.

Definition StatusOK : byte := Byte.x00.
Definition StatusError : byte := Byte.x01.
Definition StatusInvalidCmd : byte := Byte.x02.
Definition StatusInvalidData : byte := Byte.x03.
Definition StatusNotFound : byte := Byte.x04.
Definition StatusNoSpace : byte := Byte.x05.
Definition StatusVersionMismatch : byte := Byte.x06.
Definition StatusCRCError : byte := Byte.x07.

Record Frame := mkFrame { Cmd : byte; Payload : list byte }.
Record Response := mkResponse { Status : byte; RespPayload : list byte }.

(** One pass of the inner loop of [calcCRC]: shift left inside 16 bits and
    fold the polynomial in when the top bit was set. *)
Definition crc_shift (crc : Z) : Z :=
  if negb (Z.land crc 0x8000 =? 0)
  then Z.lxor (uint16 (Z.shiftl crc 1)) 0x1021
  else uint16 (Z.shiftl crc 1).

Definition crc_byte (crc : Z) (b : byte) : Z :=
  Nat.iter 8 crc_shift (Z.lxor crc (uint16 (Z.shiftl (byte.unsigned b) 8))).

Definition calcCRC (data : list byte) : Z :=
  fold_left crc_byte data 0xFFFF.

(** [io.ReadFull] over a reader that holds the bytes still to come (a
    [bytes.Buffer]): the bytes read, or the error, and the reader after. *)
Definition ReadFull (r : list byte) (n : nat) : result (list byte) * list byte :=
  match n with
  | O => (Ok [], r)
  | _ =>
      match r with
      | [] => (Err EOF, [])
      | _ => if (length r <? n)%nat then (Err ErrUnexpectedEOF, [])
             else (Ok (firstn n r), skipn n r)
      end
  end.

Definition ReadFrame (r : list byte) : result Frame * list byte :=
  match ReadFull r 1 with
  | (Err e, r1) => (Err e, r1)
  | (Ok sync, r1) =>
      if negb (byte_eqb (nth 0 sync Byte.x00) SyncByte) then (Err ErrInvalidFrame, r1)
      else
        match ReadFull r1 3 with
        | (Err e, r2) => (Err e, r2)
        | (Ok header, r2) =>
            let cmd := nth 0 header Byte.x00 in
            let length := Uint16 (skipn 1 header) in
            if 4096 <? length then (Err ErrInvalidFrame, r2)
            else
              match (if 0 <? length then ReadFull r2 (Z.to_nat length)
                     else (Ok [], r2)) with
              | (Err e, r3) => (Err e, r3)
              | (Ok payload, r3) =>
                  match ReadFull r3 2 with
                  | (Err e, r4) => (Err e, r4)
                  | (Ok crcBytes, r4) =>
                      let receivedCRC := Uint16 crcBytes in
                      let calculatedCRC := calcCRC (header ++ payload) in
                      if negb (receivedCRC =? calculatedCRC)
                      then (Err ErrCRCMismatch, r4)
                      else (Ok (mkFrame cmd payload), r4)
                  end
              end
        end
  end.

(** The buffer both writers build: sync, code, length, payload, CRC of
    everything after the sync byte. *)
Definition frame_bytes (code : byte) (payload : list byte) : list byte :=
  let payloadLen := uint16 (Z.of_nat (length payload)) in
  let buf := [SyncByte] ++ [code] ++ PutUint16 payloadLen ++ payload in
  let crc := calcCRC (skipn 1 buf) in
  buf ++ PutUint16 crc.

(** The writer is the list of bytes written so far; one [Write] appends. *)
Definition WriteResponse (w : list byte) (resp : Response) : option error * list byte :=
  (None, w ++ frame_bytes (Status resp) (RespPayload resp)).

Definition WriteFrame (w : list byte) (frame : Frame) : option error * list byte :=
  (None, w ++ frame_bytes (Cmd frame) (Payload frame)).


(** [Handler] holds the storage manager; every handler threads it. *)
Definition Handler := storage.Manager.

Import storage.

Definition status (s : byte) : Response := mkResponse s [].

Definition handlePing (payload : list byte) : M Response :=
  ret (mkResponse StatusOK payload).

Definition handleGetDeviceConfig : M Response :=
  r <- LoadDevice config.DeviceConfig.zero ;;
  match r with
  | (Some err, _) =>
      if bool_decide (err = ErrProfileNotFound) then ret (status StatusNotFound)
      else ret (status StatusError)
  | (None, cfg) =>
      match config.DeviceConfig.MarshalBinary cfg with
      | (_, Some _) => ret (status StatusError)
      | (data, None) => ret (mkResponse StatusOK data)
      end
  end.

Definition handleSetDeviceConfig (payload : list byte) : M Response :=
  if negb (length payload =? 12)%nat then ret (status StatusInvalidData)
  else
    match config.DeviceConfig.UnmarshalBinary config.DeviceConfig.zero payload with
    | (Some _, _) => ret (status StatusInvalidData)
    | (None, cfg) =>
        r <- SaveDevice cfg ;;
        match r with
        | (Some err, _) =>
            if bool_decide (err = ErrFlashFull) then ret (status StatusNoSpace)
            else ret (status StatusError)
        | (None, _) => ret (status StatusOK)
        end
    end.

Definition handleGetProfile (payload : list byte) : M Response :=
  if negb (length payload =? 1)%nat then ret (status StatusInvalidData)
  else
    let slot := nth 0 payload Byte.x00 in
    r <- LoadProfile slot config.Profile.zero ;;
    match r with
    | (Some err, _) =>
        if bool_decide (err = ErrProfileNotFound) then ret (status StatusNotFound)
        else ret (status StatusError)
    | (None, profile) =>
        match config.Profile.MarshalBinary profile with
        | (_, Some _) => ret (status StatusError)
        | (data, None) => ret (mkResponse StatusOK data)
        end
    end.

Definition handleSetProfile (payload : list byte) : M Response :=
  if negb (length payload =? 287)%nat then ret (status StatusInvalidData)
  else
    let slot := nth 0 payload Byte.x00 in
    match config.Profile.UnmarshalBinary config.Profile.zero (skipn 1 payload) with
    | (Some _, _) => ret (status StatusInvalidData)
    | (None, profile) =>
        if negb (config.Profile.Version profile =? config.CurrentVersion)
        then ret (status StatusVersionMismatch)
        else
          r <- SaveProfile slot profile ;;
          match r with
          | (Some err, _) =>
              if bool_decide (err = ErrFlashFull) then ret (status StatusNoSpace)
              else ret (status StatusError)
          | (None, _) => ret (status StatusOK)
          end
    end.

Definition handleDeleteProfile (payload : list byte) : M Response :=
  if negb (length payload =? 1)%nat then ret (status StatusInvalidData)
  else
    let slot := nth 0 payload Byte.x00 in
    e <- DeleteProfile slot ;;
    match e with
    | Some _ => ret (status StatusError)
    | None => ret (status StatusOK)
    end.

Definition handleListProfiles : M Response :=
  r <- ListProfiles ;;
  match r with
  | Err _ => ret (status StatusError)
  | Ok slots =>
      ret (mkResponse StatusOK (uint8 (Z.of_nat (length slots)) :: slots))
  end.

Definition handleGetStorageStats : M Response :=
  r <- GetStats ;;
  match r with
  | Err _ => ret (status StatusError)
  | Ok stats =>
      ret (mkResponse StatusOK
             (PutUint32 (uint32 (TotalSpace stats))
                ++ PutUint32 (uint32 (UsedSpace stats))
                ++ PutUint32 (uint32 (FreeSpace stats))
                ++ [uint8 (ProfileCount stats)]))
  end.

Definition handleFactoryReset : M Response :=
  e <- ForceWipe ;;
  match e with
  | Some _ => ret (status StatusError)
  | None => ret (status StatusOK)
  end.

Definition handleGetVersion : M Response :=
  ret (mkResponse StatusOK
         ([Byte.x00; Byte.x01] ++ PutUint16 config.CurrentVersion)).

(** The [switch] of [Handle], case by case in source order. *)
Definition Handle (frame : Frame) : M Response :=
  let cmd := Cmd frame in
  if byte_eqb cmd CmdPing then handlePing (Payload frame)
  else if byte_eqb cmd CmdGetDeviceConfig then handleGetDeviceConfig
  else if byte_eqb cmd CmdSetDeviceConfig then handleSetDeviceConfig (Payload frame)
  else if byte_eqb cmd CmdGetProfile then handleGetProfile (Payload frame)
  else if byte_eqb cmd CmdSetProfile then handleSetProfile (Payload frame)
  else if byte_eqb cmd CmdDeleteProfile then handleDeleteProfile (Payload frame)
  else if byte_eqb cmd CmdListProfiles then handleListProfiles
  else if byte_eqb cmd CmdGetStorageStats then handleGetStorageStats
  else if byte_eqb cmd CmdFactoryReset then handleFactoryReset
  else if byte_eqb cmd CmdGetVersion then handleGetVersion
  else ret (status StatusInvalidCmd).

End protocol.

(** ** pkg/config: the stream versions of the profile codec

    [Profile.Marshal] writes to an [io.Writer], [Profile.Unmarshal] reads
    from an [io.Reader].  The reader is the bytes still to come, as for
    [ReadFrame]; the writer is the bytes accepted so far together with the
    number of [Write] calls it will still accept ([None]: any number) and
    the error it reports once that number is used up. *)

Module config_stream.

Record Writer := mkWriter {
  accepted : list byte;
  calls_left : option nat;
  refusal : error
}.

(** [w.Write(data)]: all of [data] or nothing. *)
Definition Write (w : Writer) (data : list byte) : option error * Writer :=
  match calls_left w with
  | Some O => (Some (refusal w), w)
  | Some (S k) => (None, mkWriter (accepted w ++ data) (Some k) (refusal w))
  | None => (None, mkWriter (accepted w ++ data) None (refusal w))
  end.

(** The loop of [Marshal] over the binding indices still to write. *)
Fixpoint Marshal_bindings (p : config.Profile.t) (indices : list nat) (w : Writer)
  : (Z * option error) * Writer :=
  match indices with
  | [] => ((286, None), w)
  | i :: rest =>
      let b := config.KeyBinding.bytes
                 (nth i (config.Profile.Bindings p) config.KeyBinding.zero) in
      match Write w b with
      | (Some err, w') => ((30 + Z.of_nat i * 8, Some err), w')
      | (None, w') => Marshal_bindings p rest w'
      end
  end.

Definition Marshal (p : config.Profile.t) (w : Writer) : (Z * option error) * Writer :=
  let header :=
    PutUint16 (config.Profile.Version p) ++ PutUint32 (config.Profile.Flags p)
      ++ PutUint32 (config.Profile.RGBColor p)
      ++ [config.Profile.RGBPattern p; config.Profile.Reserved1 p;
          config.Profile.BindingCount p; config.Profile.Reserved2 p]
      ++ config.copy_array 16 [] (config.Profile.Name p) in
  match Write w header with
  | (Some err, w') => ((0, Some err), w')
  | (None, w') => Marshal_bindings p (seq 0 32) w'
  end.

Definition set_Bindings (p : config.Profile.t) (bs : list config.KeyBinding.t)
  : config.Profile.t :=
  config.Profile.mk
    (config.Profile.Version p) (config.Profile.Flags p) (config.Profile.RGBColor p)
    (config.Profile.RGBPattern p) (config.Profile.Reserved1 p)
    (config.Profile.BindingCount p) (config.Profile.Reserved2 p)
    (config.Profile.Name p) bs.

(** The loop of [Unmarshal]: binding [i] is stored as soon as its eight
    bytes are read, so an error leaves the earlier ones in place. *)
Fixpoint Unmarshal_bindings (p : config.Profile.t) (indices : list nat) (r : list byte)
  : (option error * config.Profile.t) * list byte :=
  match indices with
  | [] => ((None, p), r)
  | i :: rest =>
      match protocol.ReadFull r 8 with
      | (Err err, r') => ((Some err, p), r')
      | (Ok b, r') =>
          Unmarshal_bindings
            (set_Bindings p (<[i := config.KeyBinding.read b 0]> (config.Profile.Bindings p)))
            rest r'
      end
  end.

Definition Unmarshal (p : config.Profile.t) (r : list byte)
  : (option error * config.Profile.t) * list byte :=
  match protocol.ReadFull r 30 with
  | (Err err, r') => ((Some err, p), r')
  | (Ok header, r') =>
      let p :=
        config.Profile.mk
          (Uint16 header) (Uint32 (skipn 2 header)) (Uint32 (skipn 6 header))
          (nth 10 header Byte.x00) (nth 11 header Byte.x00)
          (nth 12 header Byte.x00) (nth 13 header Byte.x00)
          (config.copy_array 16 (config.Profile.Name p) (skipn 14 header))
          (config.Profile.Bindings p) in
      Unmarshal_bindings p (seq 0 32) r'
  end.

End config_stream.

(** ** serial: the read/dispatch/respond loop *)

Module serial.

(** The USB CDC port as the bytes still to be received and the bytes sent
    so far, and the handler's storage manager. *)
Record Serial := mkSerial {
  input : list byte;
  output : list byte;
  handler : protocol.Handler
}.

(** One pass through the body of the [for] loop of [Serial.Handle]. *)
Definition Handle_iteration (s : Serial) : Serial :=
  match protocol.ReadFrame (input s) with
  | (Err _, rest) => mkSerial rest (output s) (handler s)
  | (Ok frame, rest) =>
      let '(resp, h) := protocol.Handle frame (handler s) in
      let '(_, out) := protocol.WriteResponse (output s) resp in
      mkSerial rest out h
  end.

(** The loop itself never returns; [n] passes of it. *)
Definition Handle_iterations (n : nat) (s : Serial) : Serial :=
  Nat.iter n Handle_iteration s.

End serial.

(** ** Vocabulary of the statements below *)

(** The filesystem after an unfaulted call [c] that leaves the tree alone,
    once the fault schedule has run out. *)
Definition after_call (c : littlefs.call) (fs0 : littlefs.LFS) : littlefs.LFS :=
  littlefs.mkLFS (littlefs.nodes fs0) [] ((c, None) :: littlefs.trace fs0)
    (littlefs.rename_replaces fs0).

(** Every call logs itself with the verdict it got and uses up one entry
    of the schedule. *)
Definition logs {A} (c : littlefs.call) (op : littlefs.LFS -> A * littlefs.LFS)
  : Prop :=
  forall fs,
    littlefs.trace (snd (op fs)) = (c, littlefs.verdict fs) :: littlefs.trace fs
    /\ littlefs.oracle (snd (op fs)) = tl (littlefs.oracle fs)
    /\ littlefs.rename_replaces (snd (op fs)) = littlefs.rename_replaces fs.

(** The steps of [atomicWrite] that come before the final rename. *)
Inductive write_step : Set := StepCreate | StepWrite | StepSync | StepClose.

(** [fails_at step filepath data fs e]: started on [fs], the calls of
    [atomicWrite filepath data] up to [step] all succeed and the call of
    [step] itself returns the error [e]. *)
Definition fails_at (step : write_step) (filepath : string) (data : list byte)
    (fs0 : littlefs.LFS) (e : error) : Prop :=
  let tempPath := (filepath ++ storage.tempSuffix)%string in
  let fs1 := snd (littlefs.Remove tempPath fs0) in
  match littlefs.OpenFile tempPath fs1 with
  | (Err e1, _) => step = StepCreate /\ e = e1
  | (Ok f, fs2) =>
      match littlefs.Write f data fs2 with
      | (Err e2, _) => step = StepWrite /\ e = e2
      | (Ok _, fs3) =>
          match littlefs.Sync f fs3 with
          | (Some e3, _) => step = StepSync /\ e = e3
          | (None, fs4) =>
              match littlefs.Close f fs4 with
              | (Some e4, _) => step = StepClose /\ e = e4
              | (None, _) => False
              end
          end
      end
  end.

(** Sequences of store operations, as the List-correctness property
    speaks of them. *)
Inductive store_op :=
| OpSave (slot : byte) (profile : config.Profile.t)
| OpDelete (slot : byte).

(** One operation: the error it returned and the manager after it. *)
Definition run_op (op : store_op) (m : storage.Manager)
  : option error * storage.Manager :=
  match op with
  | OpSave slot profile =>
      let '((e, _), m') := storage.SaveProfile slot profile m in (e, m')
  | OpDelete slot => storage.DeleteProfile slot m
  end.

(** A sequence of operations every one of which succeeds: the manager
    after the last one, [None] if some operation returned an error. *)
Fixpoint run_ops (ops : list store_op) (m : storage.Manager)
  : option storage.Manager :=
  match ops with
  | [] => Some m
  | op :: ops' =>
      match run_op op m with
      | (None, m') => run_ops ops' m'
      | (Some _, _) => None
      end
  end.

Definition all_slots : list byte :=
  map (fun n => byte.of_Z (Z.of_nat n)) (seq 0 256).

(** A slot is occupied when its file exists. *)
Definition occupied (m : storage.Manager) (slot : byte) : bool :=
  match littlefs.nodes (storage.fs m) !! storage.profilePath slot with
  | Some _ => true
  | None => false
  end.

Definition occupied_slots (m : storage.Manager) : list byte :=
  List.filter (occupied m) all_slots.

(** The slot [ListProfiles] reads off a path of the tree: the path must be
    an entry of the profiles directory whose name passes [entry_slot]. *)
Definition key_slot (k : string) : option byte :=
  match littlefs.entry_name storage.profilesDir k with
  | Some name => storage.entry_slot name
  | None => None
  end.

(** The paths the manager creates for profiles: the directories, one file
    per slot and its temporary twin.  With [need_dir], the profiles
    directory is required to exist. *)
Definition profile_file (k : string) : Prop :=
  (exists s, k = storage.profilePath s)
  \/ (exists s, k = (storage.profilePath s ++ storage.tempSuffix)%string).

Definition store_inv (need_dir : bool) (ns : gmap string littlefs.node) : Prop :=
  (forall k n, ns !! k = Some n ->
     (k = storage.configDir /\ n = littlefs.Dir)
     \/ (k = storage.profilesDir /\ n = littlefs.Dir)
     \/ profile_file k)
  /\ (need_dir = true -> ns !! storage.profilesDir = Some littlefs.Dir).

(** The manager after a sequence of operations that all succeed (the
    manager itself if one of them fails). *)
Definition after_ops (ops : list store_op) (m : storage.Manager) : storage.Manager :=
  match run_ops ops m with
  | Some m' => m'
  | None => m
  end.

(** Sample values, after the repository's tests. *)
Module sample.

(** The wire bytes of a profile that is zero except for its version. *)
Definition profile_bytes (version : Z) : list byte :=
  fst (config.Profile.MarshalBinary
         (config.Profile.set_Version config.Profile.zero version)).

(** flags 0xDEADBEEF, active profile 3, brightness 200, debounce 10 ms,
    with a stale version field 0x0909. *)
Definition device_bytes : list byte :=
  [Byte.x09; Byte.x09; Byte.xef; Byte.xbe; Byte.xad; Byte.xde;
   Byte.x03; Byte.xc8; Byte.x0a; Byte.x00; Byte.x00; Byte.x00].

(** A 256 KiB device, freshly formatted, no fault scheduled. *)
Definition store : storage.Manager := storage.blank [] false 262144.

(** The same device with both configuration directories in place. *)
Definition store_with_dirs (schedule : list (option littlefs.fault))
  : storage.Manager :=
  storage.mkManager
    (littlefs.mkLFS
       (<[storage.profilesDir := littlefs.Dir]>
          (<[storage.configDir := littlefs.Dir]> ∅))
       schedule [] false)
    262144 true.

(** One profile saved in every slot. *)
Definition fill_all_slots : list store_op :=
  map (fun s => OpSave s config.Profile.zero) all_slots.

End sample.

(** The schedule lets the next [n] calls through. *)
Definition calm (n : nat) (fs0 : littlefs.LFS) : Prop :=
  Forall (fun v => v = None) (firstn n (littlefs.oracle fs0)).

(** The filesystem after an unfaulted call [c] that leaves the tree [ns]. *)
Definition advance (c : littlefs.call) (ns : gmap string littlefs.node)
    (fs0 : littlefs.LFS) : littlefs.LFS :=
  littlefs.mkLFS ns (tl (littlefs.oracle fs0)) ((c, None) :: littlefs.trace fs0)
    (littlefs.rename_replaces fs0).

(** * Properties *)

Lemma byte_eqb_eq a b : byte_eqb a b = true <-> a = b.
Proof.
  unfold byte_eqb. split.
  - apply Byte.byte_dec_bl.
  - apply Byte.byte_dec_lb.
Qed.

Lemma byte_eqb_refl a : byte_eqb a a = true.
Proof. now apply byte_eqb_eq. Qed.

(** ** The CRC and the little-endian fields *)

Lemma lxor_uint16 a b :
  0 <= a < 65536 -> 0 <= b < 65536 -> 0 <= Z.lxor a b < 65536.
Proof.
  intros Ha Hb. split.
  - apply Z.lxor_nonneg. lia.
  - destruct (Z.eq_dec (Z.lxor a b) 0) as [->|Hne]; [lia|].
    assert (Hpos : 0 < Z.lxor a b).
    { assert (0 <= Z.lxor a b) by (apply Z.lxor_nonneg; lia). lia. }
    apply (Z.log2_lt_pow2 _ 16 Hpos).
    pose proof (Z.log2_lxor a b ltac:(lia) ltac:(lia)) as Hl.
    assert (Z.log2 a < 16).
    { destruct (Z.eq_dec a 0) as [->|]; [reflexivity|].
      apply Z.log2_lt_pow2; lia. }
    assert (Z.log2 b < 16).
    { destruct (Z.eq_dec b 0) as [->|]; [reflexivity|].
      apply Z.log2_lt_pow2; lia. }
    lia.
Qed.

Lemma uint16_range z : 0 <= uint16 z < 65536.
Proof. unfold uint16. apply Z.mod_pos_bound. lia. Qed.

Lemma crc_shift_range crc : 0 <= protocol.crc_shift crc < 65536.
Proof.
  unfold protocol.crc_shift.
  destruct (negb _).
  - apply lxor_uint16; [apply uint16_range | lia].
  - apply uint16_range.
Qed.

Lemma crc_byte_range crc b : 0 <= protocol.crc_byte crc b < 65536.
Proof. unfold protocol.crc_byte. simpl. apply crc_shift_range. Qed.

Lemma calcCRC_range data : 0 <= protocol.calcCRC data < 65536.
Proof.
  unfold protocol.calcCRC.
  assert (H : 0 <= 0xFFFF < 65536) by lia.
  revert H. generalize 0xFFFF.
  induction data as [|b data IH]; intros crc Hcrc; simpl; [exact Hcrc|].
  apply IH, crc_byte_range.
Qed.

Lemma PutUint16_cons v :
  PutUint16 v = [byte.of_Z v; byte.of_Z (Z.shiftr v 8)].
Proof. reflexivity. Qed.

Lemma Uint16_PutUint16 v :
  0 <= v < 65536 -> Uint16 (PutUint16 v) = v.
Proof.
  intros Hv. unfold Uint16, PutUint16.
  change (firstn 2 (le_split 2 v)) with (le_split 2 v).
  rewrite le_combine_split. apply Z.mod_small. simpl. lia.
Qed.

Lemma PutUint16_Uint16 a b : PutUint16 (Uint16 [a; b]) = [a; b].
Proof.
  unfold Uint16, PutUint16.
  change (firstn 2 [a; b]) with [a; b].
  apply (split_le_combine [a; b]).
Qed.

Lemma PutUint32_Uint32 a b c d : PutUint32 (Uint32 [a; b; c; d]) = [a; b; c; d].
Proof.
  unfold Uint32, PutUint32.
  change (firstn 4 [a; b; c; d]) with [a; b; c; d].
  apply (split_le_combine [a; b; c; d]).
Qed.

(** ** The frame codec *)

Lemma ReadFull_app (a b : list byte) n :
  length a = n -> n <> O ->
  protocol.ReadFull (a ++ b) n = (Ok a, b).
Proof.
  intros Hlen Hn. unfold protocol.ReadFull.
  destruct n as [|n]; [congruence|].
  destruct a as [|x a]; [discriminate|].
  cbn [app].
  assert (Hlt : (length (x :: a ++ b) <? S n)%nat = false).
  { apply Nat.ltb_ge. cbn [length] in *. rewrite length_app. lia. }
  rewrite Hlt.
  change (x :: a ++ b) with ((x :: a) ++ b).
  rewrite <- Hlen.
  rewrite take_app_length, drop_app_length. reflexivity.
Qed.

Lemma ReadFull_1 (a : byte) r : protocol.ReadFull (a :: r) 1 = (Ok [a], r).
Proof. apply (ReadFull_app [a] r 1); [reflexivity | lia]. Qed.

Lemma ReadFull_2 (a b : byte) r : protocol.ReadFull (a :: b :: r) 2 = (Ok [a; b], r).
Proof. apply (ReadFull_app [a; b] r 2); [reflexivity | lia]. Qed.

Lemma ReadFull_3 (a b c : byte) r :
  protocol.ReadFull (a :: b :: c :: r) 3 = (Ok [a; b; c], r).
Proof. apply (ReadFull_app [a; b; c] r 3); [reflexivity | lia]. Qed.

Lemma ReadFrame_frame_bytes cmd payload rest :
  (length payload <= 4096)%nat ->
  protocol.ReadFrame (protocol.frame_bytes cmd payload ++ rest)
  = (Ok (protocol.mkFrame cmd payload), rest).
Proof.
  intros Hlen.
  unfold protocol.frame_bytes.
  assert (Hu : uint16 (Z.of_nat (length payload)) = Z.of_nat (length payload)).
  { unfold uint16. apply Z.mod_small. lia. }
  rewrite Hu.
  set (len := Z.of_nat (length payload)).
  cbn [app skipn].
  set (crc := protocol.calcCRC (cmd :: PutUint16 len ++ payload)).
  rewrite PutUint16_cons.
  set (l0 := byte.of_Z len). set (l1 := byte.of_Z (Z.shiftr len 8)).
  unfold protocol.ReadFrame.
  cbn [app].
  rewrite ReadFull_1.
  cbn [nth]. rewrite byte_eqb_refl. cbn [negb].
  rewrite ReadFull_3.
  cbn [nth skipn].
  assert (Hl : Uint16 [l0; l1] = len).
  { subst l0 l1. rewrite <- PutUint16_cons. apply Uint16_PutUint16. lia. }
  rewrite Hl.
  assert (H4096 : (4096 <? len) = false) by (apply Z.ltb_ge; lia).
  rewrite H4096.
  assert (Hpay :
    (if 0 <? len
     then protocol.ReadFull (payload ++ PutUint16 crc ++ rest) (Z.to_nat len)
     else (Ok [], payload ++ PutUint16 crc ++ rest))
    = (Ok payload, PutUint16 crc ++ rest)).
  { destruct (0 <? len) eqn:Hpos.
    - apply ReadFull_app; [lia|]. apply Z.ltb_lt in Hpos. lia.
    - apply Z.ltb_ge in Hpos.
      destruct payload; [reflexivity | cbn [length] in *; lia]. }
  rewrite <- app_assoc. rewrite Hpay.
  rewrite (ReadFull_app (PutUint16 crc) rest 2) by (reflexivity || lia).
  rewrite Uint16_PutUint16 by apply calcCRC_range.
  cbn [app].
  assert (Hcrc : protocol.calcCRC (cmd :: l0 :: l1 :: payload) = crc) by reflexivity.
  rewrite Hcrc, Z.eqb_refl. reflexivity.
Qed.

(** C6. Writing a frame whose payload has at most 4096 bytes with
    [WriteFrame] and reading the bytes back with [ReadFrame] succeeds,
    consumes exactly the frame, and yields the same command byte and the
    same payload bytes. *)
Theorem frame_codec_round_trip (f : protocol.Frame) :
  (length (protocol.Payload f) <= 4096)%nat ->
  exists wire,
    protocol.WriteFrame [] f = (None, wire)
    /\ protocol.ReadFrame wire = (Ok f, []).
Proof.
  intros Hlen. destruct f as [cmd payload]. cbn [protocol.Payload] in Hlen.
  eexists. split; [reflexivity|].
  cbn [app protocol.Cmd protocol.Payload].
  rewrite <- (app_nil_r (protocol.frame_bytes cmd payload)).
  now apply ReadFrame_frame_bytes.
Qed.

Lemma frame_codec_round_trip_witness :
  exists wire,
    protocol.WriteFrame [] (protocol.mkFrame protocol.CmdGetDeviceConfig
                              [Byte.x01; Byte.x02; Byte.x03; Byte.x04])
    = (None, wire)
    /\ protocol.ReadFrame wire
       = (Ok (protocol.mkFrame protocol.CmdGetDeviceConfig
                [Byte.x01; Byte.x02; Byte.x03; Byte.x04]), []).
Proof.
  apply (frame_codec_round_trip
           (protocol.mkFrame protocol.CmdGetDeviceConfig
              [Byte.x01; Byte.x02; Byte.x03; Byte.x04])).
  cbn. lia.
Defined.

(** ** The dispatcher: status codes *)

Import storage.

(** Case analysis on every result a handler inspects; the storage calls
    themselves stay folded. *)
Ltac handler_cases :=
  unfold bind, ret;
  repeat match goal with
         | |- context [let '(_, _) := ?x in _] => destruct x eqn:?
         | |- context [match ?x with _ => _ end] => destruct x eqn:?
         end;
  cbn [fst snd protocol.Status protocol.status].

Lemma handler_status_not_crc (frame : protocol.Frame) (h : protocol.Handler) :
  protocol.Status (fst (protocol.Handle frame h)) <> protocol.StatusCRCError.
Proof.
  unfold protocol.Handle.
  repeat match goal with
         | |- context [if byte_eqb ?a ?b then _ else _] => destruct (byte_eqb a b)
         end.
  - unfold protocol.handlePing, ret. cbn. discriminate.
  - unfold protocol.handleGetDeviceConfig. handler_cases; discriminate.
  - unfold protocol.handleSetDeviceConfig. handler_cases; discriminate.
  - unfold protocol.handleGetProfile. handler_cases; discriminate.
  - unfold protocol.handleSetProfile. handler_cases; discriminate.
  - unfold protocol.handleDeleteProfile. handler_cases; discriminate.
  - unfold protocol.handleListProfiles. handler_cases; discriminate.
  - unfold protocol.handleGetStorageStats. handler_cases; discriminate.
  - unfold protocol.handleFactoryReset. handler_cases; discriminate.
  - unfold protocol.handleGetVersion, ret. cbn. discriminate.
  - unfold ret. cbn. discriminate.
Qed.

Lemma ReadFrame_crc_mismatch cmd l0 l1 payload c0 c1 rest :
  Z.of_nat (length payload) = Uint16 [l0; l1] ->
  Uint16 [l0; l1] <= 4096 ->
  Uint16 [c0; c1] <> protocol.calcCRC (cmd :: l0 :: l1 :: payload) ->
  protocol.ReadFrame
    (protocol.SyncByte :: cmd :: l0 :: l1 :: payload ++ c0 :: c1 :: rest)
  = (Err ErrCRCMismatch, rest).
Proof.
  intros Hlen Hmax Hcrc.
  unfold protocol.ReadFrame.
  rewrite ReadFull_1. cbn [nth]. rewrite byte_eqb_refl. cbn [negb].
  rewrite ReadFull_3. cbn [nth skipn].
  assert (H4096 : (4096 <? Uint16 [l0; l1]) = false) by (apply Z.ltb_ge; lia).
  rewrite H4096.
  assert (Hpay :
    (if 0 <? Uint16 [l0; l1]
     then protocol.ReadFull (payload ++ c0 :: c1 :: rest) (Z.to_nat (Uint16 [l0; l1]))
     else (Ok [], payload ++ c0 :: c1 :: rest))
    = (Ok payload, c0 :: c1 :: rest)).
  { destruct (0 <? Uint16 [l0; l1]) eqn:Hpos.
    - apply ReadFull_app; [lia|]. apply Z.ltb_lt in Hpos. lia.
    - apply Z.ltb_ge in Hpos.
      destruct payload; [reflexivity | cbn [length] in *; lia]. }
  rewrite Hpay, ReadFull_2.
  cbn [app].
  apply Z.eqb_neq in Hcrc. rewrite Hcrc. reflexivity.
Qed.

(** C8. [Handle] never answers with status [CRCError] (0x07), whatever
    the frame and the state of the store; and a byte sequence that is a
    frame in every respect except that its CRC field disagrees with the
    computed CRC makes [ReadFrame] fail with [ErrCRCMismatch], so that the
    serial loop neither calls the handler (the store is untouched) nor
    writes a response. *)
Theorem crc_error_status_never_emitted
  (frame : protocol.Frame) (h : protocol.Handler)
  (cmd l0 l1 c0 c1 : byte) (payload rest out : list byte) :
  Z.of_nat (length payload) = Uint16 [l0; l1] ->
  Uint16 [l0; l1] <= 4096 ->
  Uint16 [c0; c1] <> protocol.calcCRC (cmd :: l0 :: l1 :: payload) ->
  let wire := protocol.SyncByte :: cmd :: l0 :: l1 :: payload ++ c0 :: c1 :: rest in
  protocol.Status (fst (protocol.Handle frame h)) <> protocol.StatusCRCError
  /\ protocol.ReadFrame wire = (Err ErrCRCMismatch, rest)
  /\ serial.Handle_iteration (serial.mkSerial wire out h) = serial.mkSerial rest out h.
Proof.
  intros Hlen Hmax Hcrc wire. split; [apply handler_status_not_crc|].
  pose proof (ReadFrame_crc_mismatch cmd l0 l1 payload c0 c1 rest Hlen Hmax Hcrc) as Hread.
  split; [exact Hread|].
  unfold serial.Handle_iteration. cbn [serial.input].
  fold wire in Hread. rewrite Hread. reflexivity.
Qed.

(** C1. The dispatcher has no case for command 0x7F: the frame falls
    through to the default branch, which answers [InvalidCmd] (0x02) with
    an empty payload.  The store is left as it was, no filesystem call
    being made. *)
Theorem Handle_Discover_answers_InvalidCmd (h : protocol.Handler) :
  protocol.Handle (protocol.mkFrame Byte.x7f []) h
  = (protocol.mkResponse protocol.StatusInvalidCmd [], h).
Proof. reflexivity. Qed.

(** ** The filesystem model: what each call does to the tree *)

Import littlefs.

Ltac prim :=
  unfold Open, OpenFile, Read, Readdir, Write, Sync, Close, Remove, Rename, Mkdir,
    enter, set_nodes;
  cbn [fst snd nodes oracle trace rename_replaces h_path h_isdir IsDir];
  repeat match goal with
         | |- context [match ?x with _ => _ end] => destruct x eqn:?
         end;
  cbn [fst snd nodes oracle trace rename_replaces h_path h_isdir IsDir].

Lemma Open_logs p : logs (CallOpen p) (Open p).
Proof. intros fs. prim; auto. Qed.
Lemma OpenFile_logs p : logs (CallOpenFile p) (OpenFile p).
Proof. intros fs. prim; auto. Qed.
Lemma Read_logs f n : logs (CallRead (h_path f)) (Read f n).
Proof. intros fs. prim; auto. Qed.
Lemma Readdir_logs f : logs (CallReaddir (h_path f)) (Readdir f).
Proof. intros fs. prim; auto. Qed.
Lemma Write_logs f d : logs (CallWrite (h_path f)) (Write f d).
Proof. intros fs. prim; auto. Qed.
Lemma Sync_logs f : logs (CallSync (h_path f)) (Sync f).
Proof. intros fs. prim; auto. Qed.
Lemma Close_logs f : logs (CallClose (h_path f)) (Close f).
Proof. intros fs. prim; auto. Qed.
Lemma Remove_logs p : logs (CallRemove p) (Remove p).
Proof. intros fs. prim; auto. Qed.
Lemma Rename_logs a b : logs (CallRename a b) (Rename a b).
Proof. intros fs. prim; auto. Qed.
Lemma Mkdir_logs p : logs (CallMkdir p) (Mkdir p).
Proof. intros fs. prim; auto. Qed.

(** Calls that never change the tree. *)
Lemma Open_nodes p fs : nodes (snd (Open p fs)) = nodes fs.
Proof. prim; auto. Qed.
Lemma Read_nodes f n fs : nodes (snd (Read f n fs)) = nodes fs.
Proof. prim; auto. Qed.
Lemma Readdir_nodes f fs : nodes (snd (Readdir f fs)) = nodes fs.
Proof. prim; auto. Qed.
Lemma Sync_nodes f fs : nodes (snd (Sync f fs)) = nodes fs.
Proof. prim; auto. Qed.
Lemma Close_nodes f fs : nodes (snd (Close f fs)) = nodes fs.
Proof. prim; auto. Qed.

(** Calls that change the tree change it at the path they are given. *)
Lemma OpenFile_other p fs k :
  k <> p -> nodes (snd (OpenFile p fs)) !! k = nodes fs !! k.
Proof. intros Hk. prim; auto; now rewrite lookup_insert_ne. Qed.

Lemma Write_other f d fs k :
  k <> h_path f -> nodes (snd (Write f d fs)) !! k = nodes fs !! k.
Proof. intros Hk. prim; auto; now rewrite lookup_insert_ne. Qed.

Lemma Remove_other p fs k :
  k <> p -> nodes (snd (Remove p fs)) !! k = nodes fs !! k.
Proof. intros Hk. prim; auto; now rewrite lookup_delete_ne. Qed.

Lemma Mkdir_other p fs k :
  k <> p -> nodes (snd (Mkdir p fs)) !! k = nodes fs !! k.
Proof. intros Hk. prim; auto; now rewrite lookup_insert_ne. Qed.

Lemma Rename_other a b fs k :
  k <> a -> k <> b -> nodes (snd (Rename a b fs)) !! k = nodes fs !! k.
Proof.
  intros Ha Hb. prim; auto; rewrite lookup_insert_ne by auto;
    now rewrite lookup_delete_ne.
Qed.

(** What a successful or failed call did. *)
Lemma OpenFile_Ok p fs f fs' :
  OpenFile p fs = (Ok f, fs') ->
  f = mkHandle p false /\ nodes fs' = <[p := File []]> (nodes fs).
Proof. prim; intros [= <- <-]; auto. Qed.

Lemma OpenFile_Err p fs e fs' :
  OpenFile p fs = (Err e, fs') -> nodes fs' = nodes fs.
Proof. prim; intros [= <- <-]; auto. Qed.

Lemma Write_Ok f d fs n fs' :
  Write f d fs = (Ok n, fs') ->
  exists old, nodes fs !! h_path f = Some (File old)
              /\ nodes fs' = <[h_path f := File (old ++ d)]> (nodes fs).
Proof. prim; intros [= <- <-]; eauto. Qed.

Lemma Write_file f d fs :
  (exists old, nodes fs !! h_path f = Some (File old)) ->
  exists now, nodes (snd (Write f d fs)) !! h_path f = Some (File now).
Proof.
  intros [old Hold]. prim; try congruence;
    rewrite lookup_insert_eq; eauto.
Qed.

Lemma Remove_None p fs fs' :
  Remove p fs = (None, fs') -> nodes fs' = delete p (nodes fs).
Proof. prim; intros [= <-]; auto. Qed.

Lemma Remove_Some p fs e fs' :
  Remove p fs = (Some e, fs') -> nodes fs' = nodes fs.
Proof. prim; intros [= <- <-]; auto. Qed.

(** A [Remove] the schedule lets through leaves no file behind. *)
Lemma Remove_unfaulted p fs :
  verdict fs = None ->
  forall d, nodes (snd (Remove p fs)) !! p <> Some (File d).
Proof.
  intros Hv d. prim; try congruence; rewrite lookup_delete_eq; congruence.
Qed.

Lemma Rename_None a b fs fs' :
  Rename a b fs = (None, fs') ->
  exists d, nodes fs !! a = Some (File d)
            /\ nodes fs' = <[b := File d]> (delete a (nodes fs)).
Proof. prim; intros [= <-]; eauto. Qed.

Lemma Rename_Some a b fs e fs' :
  Rename a b fs = (Some e, fs') -> nodes fs' = nodes fs.
Proof. prim; intros [= <- <-]; auto. Qed.

Lemma Mkdir_None p fs fs' :
  Mkdir p fs = (None, fs') -> nodes fs' = <[p := Dir]> (nodes fs).
Proof. prim; intros [= <-]; auto. Qed.

Lemma Mkdir_Some p fs e fs' :
  Mkdir p fs = (Some e, fs') -> nodes fs' = nodes fs.
Proof. prim; intros [= <- <-]; auto. Qed.

(** ** The storage manager *)

Lemma Open_absent p fs :
  nodes fs !! p = None -> p <> "/"%string ->
  exists e, fst (Open p fs) = Err (LfsError e).
Proof.
  intros Hp Hroot. unfold Open, enter. cbn [fst snd nodes].
  destruct (verdict fs); [eauto|].
  apply String.eqb_neq in Hroot. rewrite Hroot, Hp. eauto.
Qed.

Lemma LoadDevice_absent cfg (m : Manager) :
  nodes (fs m) !! deviceFile = None ->
  exists e, fst (LoadDevice cfg m) = (Some (LfsError e), cfg).
Proof.
  intros Habs.
  destruct (Open_absent deviceFile (fs m) Habs) as [e He]; [discriminate|].
  exists e. unfold LoadDevice, bind, call_fs.
  destruct (Open deviceFile (fs m)) as [r fs'] eqn:Hopen.
  cbn [fst] in He. subst r. reflexivity.
Qed.

(** C2. When the device-config record is absent, [LoadDevice] hands the
    filesystem's own error back unchanged; it is never
    [storage.ErrProfileNotFound], so [Handle] of a GetDeviceConfig frame
    answers with the generic status [Error] (0x01) and not with
    [NotFound]. *)
Theorem GetDeviceConfig_absent_answers_Error
  (h : protocol.Handler) (payload : list byte) :
  nodes (fs h) !! deviceFile = None ->
  fst (protocol.Handle (protocol.mkFrame protocol.CmdGetDeviceConfig payload) h)
  = protocol.mkResponse protocol.StatusError [].
Proof.
  intros Habs.
  change (protocol.Handle _ h) with (protocol.handleGetDeviceConfig h).
  unfold protocol.handleGetDeviceConfig, bind.
  destruct (LoadDevice_absent config.DeviceConfig.zero h Habs) as [e He].
  destruct (LoadDevice config.DeviceConfig.zero h) as [r h'].
  cbn [fst] in He. subst r. reflexivity.
Qed.

Lemma GetDeviceConfig_absent_answers_Error_witness :
  fst (protocol.Handle (protocol.mkFrame protocol.CmdGetDeviceConfig [])
         sample.store)
  = protocol.mkResponse protocol.StatusError [].
Proof.
  apply (GetDeviceConfig_absent_answers_Error sample.store []).
  reflexivity.
Defined.

(** C4. A SetProfile frame of 287 bytes whose profile version field
    (bytes 1 and 2 of the payload, little-endian) differs from
    [CurrentVersion] is answered with [VersionMismatch] (0x06); the manager
    comes back exactly as it was: no filesystem call is made, so the slot
    keeps its prior contents or stays absent. *)
Theorem SetProfile_version_gate (h : protocol.Handler) (payload : list byte) :
  length payload = 287%nat ->
  config.Profile.Version
    (snd (config.Profile.UnmarshalBinary config.Profile.zero (skipn 1 payload)))
    <> config.CurrentVersion ->
  Uint16 (skipn 1 payload) <> config.CurrentVersion
  /\ protocol.Handle (protocol.mkFrame protocol.CmdSetProfile payload) h
     = (protocol.mkResponse protocol.StatusVersionMismatch [], h).
Proof.
  intros Hlen Hver.
  change (protocol.Handle _ h) with (protocol.handleSetProfile payload h).
  unfold protocol.handleSetProfile.
  rewrite Hlen. cbn [Nat.eqb negb].
  unfold config.Profile.UnmarshalBinary in *.
  assert (Hl : (length (skipn 1 payload) <? 286)%nat = false).
  { apply Nat.ltb_ge. rewrite length_skipn. lia. }
  rewrite Hl in *. cbn [snd config.Profile.Version] in *.
  split; [exact Hver|].
  apply Z.eqb_neq in Hver. rewrite Hver. reflexivity.
Qed.

Lemma string_length_app (a b : string) :
  String.length (a ++ b) = (String.length a + String.length b)%nat.
Proof. induction a as [|c a IH]; simpl; [reflexivity | now f_equal]. Qed.

Lemma temp_path_differs (p : string) : (p ++ tempSuffix)%string <> p.
Proof.
  intros H. apply (f_equal String.length) in H.
  rewrite string_length_app in H. cbn in H. lia.
Qed.

Lemma call_fs_eq {A} (op : LFS -> A * LFS) (m : Manager) :
  call_fs op m
  = (fst (op (fs m)), mkManager (snd (op (fs m))) (blockDev m) (mounted m)).
Proof. unfold call_fs. now destruct (op (fs m)). Qed.

(** Unfold one layer of the manager's sequencing. *)
Ltac mstep :=
  repeat (progress (unfold bind, ret; rewrite ?call_fs_eq;
                    cbn [fst snd fs blockDev mounted])).
Ltac mstep_in H :=
  repeat (progress (unfold bind, ret in H; rewrite ?call_fs_eq in H;
                    cbn [fst snd fs blockDev mounted] in H)).

Lemma verdict_quiet fs0 : oracle fs0 = [] -> verdict fs0 = None.
Proof. unfold verdict. now intros ->. Qed.

(** A successful [atomicWrite] leaves exactly [data] at the target. *)
Lemma atomicWrite_None filepath data (m m' : Manager) :
  atomicWrite filepath data m = (None, m') ->
  nodes (fs m') !! filepath = Some (File data).
Proof.
  unfold atomicWrite. mstep.
  set (temp := (filepath ++ tempSuffix)%string).
  set (fs0 := snd (Remove temp (fs m))).
  destruct (OpenFile temp fs0) as [[f|e] fs1] eqn:E1; mstep; [|intros; discriminate].
  destruct (Write f data fs1) as [[n|e] fs2] eqn:E2; mstep; [|intros; discriminate].
  destruct (Sync f fs2) as [[e|] fs3] eqn:E3; mstep; [intros; discriminate|].
  destruct (Close f fs3) as [[e|] fs4] eqn:E4; mstep; [intros; discriminate|].
  set (fs5 := snd (Remove filepath fs4)).
  destruct (Rename temp filepath fs5) as [[e|] fs6] eqn:E6; mstep; [intros; discriminate|].
  intros [= <-]. cbn [fs].
  apply OpenFile_Ok in E1 as [-> N1].
  apply Write_Ok in E2 as (old & Hold & N2). cbn [h_path] in *.
  rewrite N1, lookup_insert_eq in Hold. injection Hold as <-. cbn [app] in N2.
  pose proof (Sync_nodes (mkHandle temp false) fs2) as N3.
  rewrite E3 in N3. cbn [snd] in N3.
  pose proof (Close_nodes (mkHandle temp false) fs3) as N4.
  rewrite E4 in N4. cbn [snd] in N4.
  assert (N5 : nodes fs5 !! temp = Some (File data)).
  { subst fs5. rewrite Remove_other by apply temp_path_differs.
    now rewrite N4, N3, N2, lookup_insert_eq. }
  apply Rename_None in E6 as (d & Hd & N6).
  rewrite N5 in Hd. injection Hd as <-.
  now rewrite N6, lookup_insert_eq.
Qed.

(** ** Record layouts: decoding and re-encoding *)

Lemma PutUint16_le_combine a b : PutUint16 (le_combine [a; b]) = [a; b].
Proof. apply (split_le_combine [a; b]). Qed.

Lemma PutUint32_le_combine a b c d :
  PutUint32 (le_combine [a; b; c; d]) = [a; b; c; d].
Proof. apply (split_le_combine [a; b; c; d]). Qed.

Tactic Notation "explode_bytes" ident(data) ident(Hlen) integer(n) :=
  do n (destruct data as [|? data]; [discriminate Hlen|]);
  destruct data; [|discriminate Hlen]; clear Hlen.

Lemma Profile_decode_encode p0 data :
  length data = 286%nat ->
  fst (config.Profile.MarshalBinary (snd (config.Profile.UnmarshalBinary p0 data)))
  = data.
Proof.
  intros Hlen. explode_bytes data Hlen 286.
  unfold config.Profile.UnmarshalBinary, config.Profile.MarshalBinary.
  cbn -[le_split le_combine PutUint16 Uint16 PutUint32 Uint32].
  unfold Uint16, Uint32. cbn [firstn].
  rewrite !PutUint16_le_combine, !PutUint32_le_combine.
  reflexivity.
Qed.

Lemma DeviceConfig_decode_encode d0 data :
  length data = 12%nat ->
  fst (config.DeviceConfig.MarshalBinary
         (snd (config.DeviceConfig.UnmarshalBinary d0 data)))
  = data.
Proof.
  intros Hlen. explode_bytes data Hlen 12.
  unfold config.DeviceConfig.UnmarshalBinary, config.DeviceConfig.MarshalBinary.
  cbn -[le_split le_combine PutUint16 Uint16 PutUint32 Uint32].
  unfold Uint16, Uint32. cbn [firstn].
  rewrite !PutUint16_le_combine, !PutUint32_le_combine.
  reflexivity.
Qed.

Lemma DeviceConfig_stamped d0 data :
  length data = 12%nat ->
  fst (config.DeviceConfig.MarshalBinary
         (config.DeviceConfig.set_Version
            (snd (config.DeviceConfig.UnmarshalBinary d0 data))
            config.CurrentVersion))
  = PutUint16 config.CurrentVersion ++ skipn 2 data.
Proof.
  intros Hlen. explode_bytes data Hlen 12.
  unfold config.DeviceConfig.UnmarshalBinary, config.DeviceConfig.MarshalBinary.
  cbn -[le_split le_combine PutUint16 Uint16 PutUint32 Uint32].
  unfold Uint16, Uint32. cbn [firstn].
  rewrite !PutUint16_le_combine, !PutUint32_le_combine.
  reflexivity.
Qed.

Lemma Profile_set_Version_same p :
  config.Profile.Version p = config.CurrentVersion ->
  config.Profile.set_Version p config.CurrentVersion = p.
Proof. destruct p. cbn. now intros ->. Qed.

Lemma DeviceConfig_encode_length d :
  length (fst (config.DeviceConfig.MarshalBinary d)) = 12%nat.
Proof. reflexivity. Qed.

(** ** Reading back under a schedule that has run out *)

Lemma Open_quiet_file p d fs0 :
  oracle fs0 = [] -> nodes fs0 !! p = Some (File d) -> p <> "/"%string ->
  Open p fs0 = (Ok (mkHandle p false), after_call (CallOpen p) fs0).
Proof.
  intros Hq Hp Hroot. unfold Open, enter, verdict, after_call. rewrite Hq.
  cbn [fst snd nodes tl]. apply String.eqb_neq in Hroot. now rewrite Hroot, Hp.
Qed.

Lemma Read_quiet_file p d n fs0 :
  oracle fs0 = [] -> nodes fs0 !! p = Some (File d) ->
  length d = n -> n <> O ->
  Read (mkHandle p false) n fs0 = (Ok d, after_call (CallRead p) fs0).
Proof.
  intros Hq Hp Hlen Hn. unfold Read, enter, verdict, after_call. rewrite Hq.
  cbn [fst snd nodes tl h_path IsDir h_isdir]. rewrite Hp.
  rewrite <- Hlen, firstn_all.
  destruct d; [cbn in Hlen; congruence | reflexivity].
Qed.

Lemma Close_quiet f fs0 :
  oracle fs0 = [] -> Close f fs0 = (None, after_call (CallClose (h_path f)) fs0).
Proof.
  intros Hq. unfold Close, enter, verdict, after_call. now rewrite Hq.
Qed.

Lemma profilePath_not_root slot : profilePath slot <> "/"%string.
Proof. apply String.eqb_neq. reflexivity. Qed.

Lemma LoadProfile_quiet slot p0 (m : Manager) d :
  oracle (fs m) = [] ->
  nodes (fs m) !! profilePath slot = Some (File d) ->
  length d = 286%nat ->
  fst (LoadProfile slot p0 m) = config.Profile.UnmarshalBinary p0 d.
Proof.
  intros Hq Hp Hlen. unfold LoadProfile. mstep.
  rewrite (Open_quiet_file _ d) by (auto using profilePath_not_root). mstep.
  rewrite (Read_quiet_file _ d) by (auto; lia). mstep.
  rewrite Hlen. reflexivity.
Qed.

Lemma LoadDevice_quiet d0 (m : Manager) d :
  oracle (fs m) = [] ->
  nodes (fs m) !! deviceFile = Some (File d) ->
  length d = 12%nat ->
  fst (LoadDevice d0 m) = config.DeviceConfig.UnmarshalBinary d0 d.
Proof.
  intros Hq Hp Hlen. unfold LoadDevice. mstep.
  rewrite (Open_quiet_file _ d) by (auto; discriminate). mstep.
  rewrite (Read_quiet_file _ d) by (auto; lia). mstep.
  rewrite Hlen. reflexivity.
Qed.

(** ** Set then Get *)

Lemma SaveProfile_None slot p (m m' : Manager) p' :
  SaveProfile slot p m = ((None, p'), m') ->
  p' = config.Profile.set_Version p config.CurrentVersion
  /\ nodes (fs m') !! profilePath slot
     = Some (File (fst (config.Profile.MarshalBinary
                          (config.Profile.set_Version p config.CurrentVersion)))).
Proof.
  unfold SaveProfile. mstep.
  destruct (ensureDirs m) as [[e|] m1]; [intros; discriminate|].
  unfold config.Profile.MarshalBinary at 1. cbv iota. mstep.
  destruct (atomicWrite _ _ m1) as [[e|] m2] eqn:Haw; intros [= <- <-].
  split; [reflexivity|].
  apply atomicWrite_None in Haw. exact Haw.
Qed.

Lemma SaveDevice_None cfg (m m' : Manager) cfg' :
  SaveDevice cfg m = ((None, cfg'), m') ->
  cfg' = config.DeviceConfig.set_Version cfg config.CurrentVersion
  /\ nodes (fs m') !! deviceFile
     = Some (File (fst (config.DeviceConfig.MarshalBinary
                          (config.DeviceConfig.set_Version cfg config.CurrentVersion)))).
Proof.
  unfold SaveDevice. mstep.
  destruct (ensureDirs m) as [[e|] m1]; [intros; discriminate|].
  unfold config.DeviceConfig.MarshalBinary at 1. cbv iota. mstep.
  destruct (atomicWrite _ _ m1) as [[e|] m2] eqn:Haw; intros [= <- <-].
  split; [reflexivity|].
  apply atomicWrite_None in Haw. exact Haw.
Qed.

Lemma handleSetProfile_OK payload (h : Manager) :
  protocol.Status (fst (protocol.handleSetProfile payload h)) = protocol.StatusOK ->
  length payload = 287%nat
  /\ exists p',
      SaveProfile (nth 0 payload Byte.x00)
        (snd (config.Profile.UnmarshalBinary config.Profile.zero (skipn 1 payload))) h
      = ((None, p'), snd (protocol.handleSetProfile payload h))
      /\ config.Profile.Version
           (snd (config.Profile.UnmarshalBinary config.Profile.zero (skipn 1 payload)))
         = config.CurrentVersion.
Proof.
  unfold protocol.handleSetProfile.
  destruct (length payload =? 287)%nat eqn:Hlen; cbn [negb]; [|intros; discriminate].
  apply Nat.eqb_eq in Hlen.
  destruct (config.Profile.UnmarshalBinary _ _) as [[e|] p] eqn:Hun;
    [intros; discriminate|]. cbn [snd].
  destruct (config.Profile.Version p =? config.CurrentVersion) eqn:Hv;
    cbn [negb]; [|intros; discriminate].
  apply Z.eqb_eq in Hv. mstep.
  destruct (SaveProfile _ p h) as [[[e|] p'] h'] eqn:Hsave; mstep.
  - destruct (bool_decide _); intros; discriminate.
  - intros _. eauto.
Qed.

Lemma handleSetDeviceConfig_OK payload (h : Manager) :
  protocol.Status (fst (protocol.handleSetDeviceConfig payload h)) = protocol.StatusOK ->
  length payload = 12%nat
  /\ exists cfg',
      SaveDevice
        (snd (config.DeviceConfig.UnmarshalBinary config.DeviceConfig.zero payload)) h
      = ((None, cfg'), snd (protocol.handleSetDeviceConfig payload h)).
Proof.
  unfold protocol.handleSetDeviceConfig.
  destruct (length payload =? 12)%nat eqn:Hlen; cbn [negb]; [|intros; discriminate].
  apply Nat.eqb_eq in Hlen.
  destruct (config.DeviceConfig.UnmarshalBinary _ _) as [[e|] cfg] eqn:Hun;
    [intros; discriminate|]. cbn [snd]. mstep.
  destruct (SaveDevice cfg h) as [[[e|] cfg'] h'] eqn:Hsave; mstep.
  - destruct (bool_decide _); intros; discriminate.
  - intros _. eauto.
Qed.

Lemma handleGetProfile_quiet slot (h : Manager) d :
  oracle (fs h) = [] ->
  nodes (fs h) !! profilePath slot = Some (File d) ->
  length d = 286%nat ->
  fst (protocol.handleGetProfile [slot] h) = protocol.mkResponse protocol.StatusOK d.
Proof.
  intros Hq Hp Hlen. unfold protocol.handleGetProfile.
  cbn [length Nat.eqb negb nth]. unfold bind.
  pose proof (LoadProfile_quiet slot config.Profile.zero h d Hq Hp Hlen) as Hload.
  destruct (LoadProfile slot config.Profile.zero h) as [r h'].
  cbn [fst] in Hload. subst r.
  pose proof (Profile_decode_encode config.Profile.zero d Hlen) as Hrt.
  unfold config.Profile.UnmarshalBinary in *.
  rewrite Hlen in *. cbn [Nat.ltb Nat.leb snd] in *.
  unfold config.Profile.MarshalBinary in *. cbn [fst] in Hrt.
  unfold ret. cbn [fst]. now rewrite Hrt.
Qed.

Lemma handleGetDeviceConfig_quiet (h : Manager) d :
  oracle (fs h) = [] ->
  nodes (fs h) !! deviceFile = Some (File d) ->
  length d = 12%nat ->
  fst (protocol.handleGetDeviceConfig h) = protocol.mkResponse protocol.StatusOK d.
Proof.
  intros Hq Hp Hlen. unfold protocol.handleGetDeviceConfig, bind.
  pose proof (LoadDevice_quiet config.DeviceConfig.zero h d Hq Hp Hlen) as Hload.
  destruct (LoadDevice config.DeviceConfig.zero h) as [r h'].
  cbn [fst] in Hload. subst r.
  pose proof (DeviceConfig_decode_encode config.DeviceConfig.zero d Hlen) as Hrt.
  unfold config.DeviceConfig.UnmarshalBinary in *.
  rewrite Hlen in *. cbn [Nat.ltb Nat.leb snd] in *.
  unfold config.DeviceConfig.MarshalBinary in *. cbn [fst] in Hrt.
  unfold ret. cbn [fst]. now rewrite Hrt.
Qed.

(** C5. Persistence round trip through the dispatcher.  If SetProfile of
    slot [slot] with a 286-byte profile [P] whose version field equals
    [CurrentVersion] is answered OK, then GetProfile of the same slot, run
    with no further device fault, is answered OK with exactly the bytes
    [P] (whose version field is therefore [CurrentVersion]).  Likewise, if
    SetDeviceConfig of a 12-byte record [D] is answered OK, then
    GetDeviceConfig is answered OK with [D] in which the two version bytes
    are replaced by [CurrentVersion] and every other byte is as written. *)
Theorem persistence_round_trip (h : protocol.Handler) (slot : byte) (P D : list byte) :
  length P = 286%nat ->
  Uint16 P = config.CurrentVersion ->
  length D = 12%nat ->
  let set_p := protocol.Handle (protocol.mkFrame protocol.CmdSetProfile (slot :: P)) h in
  let set_d := protocol.Handle (protocol.mkFrame protocol.CmdSetDeviceConfig D) h in
  (protocol.Status (fst set_p) = protocol.StatusOK ->
   oracle (fs (snd set_p)) = [] ->
   fst (protocol.Handle (protocol.mkFrame protocol.CmdGetProfile [slot]) (snd set_p))
   = protocol.mkResponse protocol.StatusOK P)
  /\ (protocol.Status (fst set_d) = protocol.StatusOK ->
      oracle (fs (snd set_d)) = [] ->
      fst (protocol.Handle (protocol.mkFrame protocol.CmdGetDeviceConfig []) (snd set_d))
      = protocol.mkResponse protocol.StatusOK
          (PutUint16 config.CurrentVersion ++ skipn 2 D)).
Proof.
  intros HlenP HverP HlenD set_p set_d. split.
  - subst set_p.
    change (protocol.Handle (protocol.mkFrame protocol.CmdSetProfile (slot :: P)) h)
      with (protocol.handleSetProfile (slot :: P) h).
    intros Hok Hq.
    apply handleSetProfile_OK in Hok as (_ & p' & Hsave & Hv).
    cbn [nth skipn] in Hsave, Hv.
    apply SaveProfile_None in Hsave as [_ Hnode].
    rewrite Profile_set_Version_same in Hnode by exact Hv.
    rewrite Profile_decode_encode in Hnode by exact HlenP.
    change (protocol.Handle (protocol.mkFrame protocol.CmdGetProfile [slot]) ?m)
      with (protocol.handleGetProfile [slot] m).
    now apply handleGetProfile_quiet.
  - subst set_d.
    change (protocol.Handle (protocol.mkFrame protocol.CmdSetDeviceConfig D) h)
      with (protocol.handleSetDeviceConfig D h).
    intros Hok Hq.
    apply handleSetDeviceConfig_OK in Hok as (_ & cfg' & Hsave).
    apply SaveDevice_None in Hsave as [_ Hnode].
    rewrite DeviceConfig_stamped in Hnode by exact HlenD.
    change (protocol.Handle (protocol.mkFrame protocol.CmdGetDeviceConfig []) ?m)
      with (protocol.handleGetDeviceConfig m).
    apply handleGetDeviceConfig_quiet; [exact Hq | exact Hnode |].
    rewrite length_app, length_skipn, HlenD. reflexivity.
Qed.

(** ** DeleteProfile *)

Lemma Remove_quiet p fs0 :
  oracle fs0 = [] ->
  Remove p fs0
  = match nodes fs0 !! p with
    | None => (Some (LfsError errNoEntry), after_call (CallRemove p) fs0)
    | Some Dir =>
        match entries (nodes fs0) p with
        | [] => (None, set_nodes (after_call (CallRemove p) fs0) (delete p (nodes fs0)))
        | _ => (Some (LfsError errNotEmpty), after_call (CallRemove p) fs0)
        end
    | Some (File _) =>
        (None, set_nodes (after_call (CallRemove p) fs0) (delete p (nodes fs0)))
    end.
Proof.
  intros Hq. unfold Remove, enter, verdict, after_call, set_nodes. rewrite Hq.
  cbn [fst snd nodes tl oracle trace rename_replaces].
  destruct (nodes fs0 !! p) as [[d|]|]; reflexivity.
Qed.

Lemma Remove_twice p fs0 :
  oracle fs0 = [] ->
  nodes (snd (Remove p (snd (Remove p fs0)))) = nodes (snd (Remove p fs0)).
Proof.
  intros Hq. rewrite (Remove_quiet p fs0 Hq).
  destruct (nodes fs0 !! p) as [[d|]|] eqn:Hp;
    [| destruct (entries (nodes fs0) p) eqn:Hent |];
    cbn [snd]; rewrite Remove_quiet by reflexivity;
    cbn [nodes after_call set_nodes];
    rewrite ?lookup_delete_eq, ?Hp, ?Hent; reflexivity.
Qed.

(** C3, as the code has it.  With no device fault injected:
    DeleteProfile of an empty slot is answered with the generic status
    [Error] (0x01) and leaves every stored file as it was; DeleteProfile of
    a slot that holds a profile is answered OK and empties the slot; and
    deleting the same slot a second time leaves the stored files exactly
    as the first deletion left them. *)
Theorem DeleteProfile_twice (h : protocol.Handler) (slot : byte) :
  oracle (fs h) = [] ->
  let del := protocol.Handle (protocol.mkFrame protocol.CmdDeleteProfile [slot]) in
  (nodes (fs h) !! profilePath slot = None ->
   fst (del h) = protocol.mkResponse protocol.StatusError []
   /\ nodes (fs (snd (del h))) = nodes (fs h))
  /\ (forall d, nodes (fs h) !! profilePath slot = Some (File d) ->
      fst (del h) = protocol.mkResponse protocol.StatusOK []
      /\ nodes (fs (snd (del h))) !! profilePath slot = None)
  /\ nodes (fs (snd (del (snd (del h))))) = nodes (fs (snd (del h))).
Proof.
  intros Hq del.
  assert (Hdel : forall m,
    del m = (match fst (Remove (profilePath slot) (fs m)) with
             | Some _ => protocol.status protocol.StatusError
             | None => protocol.status protocol.StatusOK
             end,
             mkManager (snd (Remove (profilePath slot) (fs m))) (blockDev m) (mounted m))).
  { intros m. subst del.
    change (protocol.Handle _ m) with (protocol.handleDeleteProfile [slot] m).
    unfold protocol.handleDeleteProfile, DeleteProfile.
    cbn [length Nat.eqb negb nth]. mstep.
    now destruct (fst (Remove (profilePath slot) (fs m))). }
  repeat split.
  - rewrite Hdel. cbn [fst]. rewrite Remove_quiet by exact Hq. now rewrite H.
  - rewrite Hdel. cbn [snd fs]. rewrite Remove_quiet by exact Hq. now rewrite H.
  - rewrite Hdel. cbn [fst]. rewrite Remove_quiet by exact Hq. now rewrite H.
  - rewrite Hdel. cbn [snd fs]. rewrite Remove_quiet by exact Hq. rewrite H.
    cbn [snd nodes set_nodes]. apply lookup_delete_eq.
  - rewrite !Hdel. cbn [snd fs]. now apply Remove_twice.
Qed.

(** ** atomicWrite: failures before the rename *)

(** Instantiate a fact about [snd (op fs)] or [fst (op fs)] at a call whose
    result has been named by the equation [E]. *)
Ltac at_call E lem H :=
  pose proof lem as H; rewrite E in H; cbn [fst snd] in H.

Lemma not_faulted_verdict (calls : list (call * option fault)) c v :
  (forall p f, (CallRemove p, Some f) ∉ calls) ->
  (c, v) ∈ calls -> (exists p, c = CallRemove p) -> v = None.
Proof.
  intros Hnf Hin [p ->]. destruct v as [f|]; [|reflexivity].
  exfalso. exact (Hnf p f Hin).
Qed.

(** C9, as the code has it.  With no directory standing at the temporary
    path: if creating, writing, syncing or closing the temporary file
    fails, [atomicWrite] returns that step's error; it has issued no
    [Rename] and no call at all on the target path, and the target holds
    what it held before (a file with the same bytes, or nothing).  The
    temporary file is gone provided the device refused none of the
    [Remove] calls, whose results [atomicWrite] discards. *)
Theorem atomicWrite_failure_before_rename
  (m : Manager) (filepath : string) (data : list byte)
  (step : write_step) (e : error) :
  fails_at step filepath data (fs m) e ->
  nodes (fs m) !! (filepath ++ tempSuffix)%string <> Some Dir ->
  exists (m' : Manager) (calls : list (call * option fault)),
    atomicWrite filepath data m = (Some e, m')
    /\ trace (fs m') = calls ++ trace (fs m)
    /\ (forall a b v, (CallRename a b, v) ∉ calls)
    /\ (forall v, (CallRemove filepath, v) ∉ calls)
    /\ nodes (fs m') !! filepath = nodes (fs m) !! filepath
    /\ ((forall p f, (CallRemove p, Some f) ∉ calls) ->
        forall d, nodes (fs m') !! (filepath ++ tempSuffix)%string <> Some (File d)).
Proof.
  intros Hfails _. revert Hfails.
  unfold fails_at, atomicWrite. mstep.
  set (temp := (filepath ++ tempSuffix)%string).
  assert (Hne : filepath <> temp) by (intros H; symmetry in H; now apply temp_path_differs in H).
  destruct (Remove temp (fs m)) as [r0 fs1] eqn:E0. cbn [snd].
  at_call E0 (Remove_logs temp (fs m)) L0. destruct L0 as (T0 & _ & _).
  at_call E0 (Remove_other temp (fs m) filepath Hne) K0.
  at_call E0 (Remove_unfaulted temp (fs m)) U0.
  destruct (OpenFile temp fs1) as [[f|e1] fs2] eqn:E1; mstep.
  2:{ (* creating the temporary file fails *)
    intros [-> ->].
    at_call E1 (OpenFile_logs temp fs1) L1. destruct L1 as (T1 & _ & _).
    apply OpenFile_Err in E1.
    eexists _, [(CallOpenFile temp, verdict fs1); (CallRemove temp, verdict (fs m))].
    split; [reflexivity|]. cbn [fs app].
    split; [now rewrite T1, T0|].
    split; [intros a b v; rewrite !elem_of_cons, elem_of_nil; intuition congruence|].
    split; [intros v; rewrite !elem_of_cons, elem_of_nil; intuition congruence|].
    split; [now rewrite E1|].
    intros Hnf d. rewrite E1. apply U0.
    eapply not_faulted_verdict; [exact Hnf | | eauto].
    rewrite !elem_of_cons. auto. }
  at_call E1 (OpenFile_logs temp fs1) L1. destruct L1 as (T1 & _ & _).
  at_call E1 (OpenFile_other temp fs1 filepath Hne) K1.
  apply OpenFile_Ok in E1 as [-> N1]. cbn [h_path] in *.
  assert (F2 : exists old, nodes fs2 !! temp = Some (File old)).
  { rewrite N1, lookup_insert_eq. eauto. }
  set (f := mkHandle temp false) in *.
  (* the shared tail of the three later failures: Close (if still open),
     then Remove of the temporary file *)
  assert (Hcleanup : forall fsk callsk,
    trace fsk = callsk ++ trace (fs m) ->
    (forall a b v, (CallRename a b, v) ∉ callsk) ->
    (forall v, (CallRemove filepath, v) ∉ callsk) ->
    nodes fsk !! filepath = nodes (fs m) !! filepath ->
    exists calls,
      trace (snd (Remove temp fsk)) = calls ++ trace (fs m)
      /\ (forall a b v, (CallRename a b, v) ∉ calls)
      /\ (forall v, (CallRemove filepath, v) ∉ calls)
      /\ nodes (snd (Remove temp fsk)) !! filepath = nodes (fs m) !! filepath
      /\ ((forall p f, (CallRemove p, Some f) ∉ calls) ->
          forall d, nodes (snd (Remove temp fsk)) !! temp <> Some (File d))).
  { intros fsk callsk Tk Rk Pk Kk.
    destruct (Remove_logs temp fsk) as (Tr & _ & _).
    exists ((CallRemove temp, verdict fsk) :: callsk).
    split; [now rewrite Tr, Tk|].
    split; [intros a b v; rewrite elem_of_cons; intros [?|?]; [congruence | now apply (Rk a b v)]|].
    split; [intros v; rewrite elem_of_cons; intros [?|?]; [congruence | now apply (Pk v)]|].
    split; [now rewrite Remove_other|].
    intros Hnf d. apply Remove_unfaulted.
    eapply not_faulted_verdict; [exact Hnf | | eauto].
    rewrite elem_of_cons. auto. }
  destruct (Write f data fs2) as [[n|e2] fs3] eqn:E2; mstep.
  2:{ (* writing fails *)
    intros [-> ->].
    at_call E2 (Write_logs f data fs2) L2. destruct L2 as (T2 & _ & _).
    at_call E2 (Write_other f data fs2 filepath Hne) K2.
    destruct (Close_logs f fs3) as (T3 & _ & _).
    destruct (Hcleanup (snd (Close f fs3))
                [(CallClose temp, verdict fs3); (CallWrite temp, verdict fs2);
                 (CallOpenFile temp, verdict fs1); (CallRemove temp, verdict (fs m))])
      as (calls & ? & ? & ? & ? & ?).
    - rewrite T3, T2, T1, T0. reflexivity.
    - intros a b v; rewrite !elem_of_cons, elem_of_nil; intuition congruence.
    - intros v; rewrite !elem_of_cons, elem_of_nil; intuition congruence.
    - now rewrite Close_nodes, K2, K1.
    - eexists _, calls. split; [reflexivity|]. cbn [fs]. auto. }
  at_call E2 (Write_logs f data fs2) L2. destruct L2 as (T2 & _ & _).
  at_call E2 (Write_other f data fs2 filepath Hne) K2.
  destruct (Sync f fs3) as [[e3|] fs4] eqn:E3; mstep.
  { (* syncing fails *)
    intros [-> ->].
    at_call E3 (Sync_logs f fs3) L3. destruct L3 as (T3 & _ & _).
    at_call E3 (Sync_nodes f fs3) N3.
    destruct (Close_logs f fs4) as (T4 & _ & _).
    destruct (Hcleanup (snd (Close f fs4))
                [(CallClose temp, verdict fs4); (CallSync temp, verdict fs3);
                 (CallWrite temp, verdict fs2);
                 (CallOpenFile temp, verdict fs1); (CallRemove temp, verdict (fs m))])
      as (calls & ? & ? & ? & ? & ?).
    - rewrite T4, T3, T2, T1, T0. reflexivity.
    - intros a b v; rewrite !elem_of_cons, elem_of_nil; intuition congruence.
    - intros v; rewrite !elem_of_cons, elem_of_nil; intuition congruence.
    - now rewrite Close_nodes, N3, K2, K1.
    - eexists _, calls. split; [reflexivity|]. cbn [fs]. auto. }
  at_call E3 (Sync_logs f fs3) L3. destruct L3 as (T3 & _ & _).
  at_call E3 (Sync_nodes f fs3) N3.
  destruct (Close f fs4) as [[e4|] fs5] eqn:E4; mstep; [|intros []].
  (* closing fails *)
  intros [-> ->].
  at_call E4 (Close_logs f fs4) L4. destruct L4 as (T4 & _ & _).
  at_call E4 (Close_nodes f fs4) N4.
  destruct (Hcleanup fs5
              [(CallClose temp, verdict fs4); (CallSync temp, verdict fs3);
               (CallWrite temp, verdict fs2);
               (CallOpenFile temp, verdict fs1); (CallRemove temp, verdict (fs m))])
    as (calls & ? & ? & ? & ? & ?).
  - rewrite T4, T3, T2, T1, T0. reflexivity.
  - intros a b v; rewrite !elem_of_cons, elem_of_nil; intuition congruence.
  - intros v; rewrite !elem_of_cons, elem_of_nil; intuition congruence.
  - now rewrite N4, N3, K2, K1.
  - eexists _, calls. split; [reflexivity|]. cbn [fs]. auto.
Qed.

(** ** SaveProfile and SaveDevice write through the caller's pointer *)

Lemma SaveProfile_struct slot p (m : Manager) :
  snd (fst (SaveProfile slot p m))
  = match fst (ensureDirs m) with
    | Some _ => p
    | None => config.Profile.set_Version p config.CurrentVersion
    end.
Proof.
  unfold SaveProfile. mstep.
  destruct (ensureDirs m) as [[e|] m1]; cbn [fst]; [reflexivity|].
  unfold config.Profile.MarshalBinary. cbv iota. mstep.
  now destruct (atomicWrite _ _ m1).
Qed.

Lemma SaveDevice_struct cfg (m : Manager) :
  snd (fst (SaveDevice cfg m))
  = match fst (ensureDirs m) with
    | Some _ => cfg
    | None => config.DeviceConfig.set_Version cfg config.CurrentVersion
    end.
Proof.
  unfold SaveDevice. mstep.
  destruct (ensureDirs m) as [[e|] m1]; cbn [fst]; [reflexivity|].
  unfold config.DeviceConfig.MarshalBinary. cbv iota. mstep.
  now destruct (atomicWrite _ _ m1).
Qed.

(** C10, as the code has it.  [SaveProfile] and [SaveDevice] first call
    [ensureDirs].  Once that has succeeded, the struct the caller passed
    comes back with [Version] set to [CurrentVersion] and every other
    field unchanged, whatever the atomic write that follows returns.  If
    [ensureDirs] fails, they return its error, with the struct untouched
    and nothing done after [ensureDirs]. *)
Theorem Save_stamps_version_after_ensureDirs
  (m : Manager) (slot : byte) (p : config.Profile.t) (c : config.DeviceConfig.t) :
  let p' := snd (fst (SaveProfile slot p m)) in
  let c' := snd (fst (SaveDevice c m)) in
  (fst (ensureDirs m) = None ->
   (config.Profile.Version p' = config.CurrentVersion
    /\ config.Profile.Flags p' = config.Profile.Flags p
    /\ config.Profile.RGBColor p' = config.Profile.RGBColor p
    /\ config.Profile.RGBPattern p' = config.Profile.RGBPattern p
    /\ config.Profile.Reserved1 p' = config.Profile.Reserved1 p
    /\ config.Profile.BindingCount p' = config.Profile.BindingCount p
    /\ config.Profile.Reserved2 p' = config.Profile.Reserved2 p
    /\ config.Profile.Name p' = config.Profile.Name p
    /\ config.Profile.Bindings p' = config.Profile.Bindings p)
   /\ (config.DeviceConfig.Version c' = config.CurrentVersion
       /\ config.DeviceConfig.Flags c' = config.DeviceConfig.Flags c
       /\ config.DeviceConfig.ActiveProfile c' = config.DeviceConfig.ActiveProfile c
       /\ config.DeviceConfig.Brightness c' = config.DeviceConfig.Brightness c
       /\ config.DeviceConfig.DebounceMs c' = config.DeviceConfig.DebounceMs c
       /\ config.DeviceConfig.Reserved1 c' = config.DeviceConfig.Reserved1 c
       /\ config.DeviceConfig.Reserved2 c' = config.DeviceConfig.Reserved2 c))
  /\ (forall err, fst (ensureDirs m) = Some err ->
      SaveProfile slot p m = ((Some err, p), snd (ensureDirs m))
      /\ SaveDevice c m = ((Some err, c), snd (ensureDirs m))
      /\ p' = p /\ c' = c).
Proof.
  intros p' c'. subst p' c'.
  rewrite SaveProfile_struct, SaveDevice_struct.
  unfold SaveProfile, SaveDevice, bind.
  destruct (ensureDirs m) as [[e|] m1]; cbn [fst snd]; split.
  - intros; discriminate.
  - intros err [= <-]. repeat split.
  - intros _. cbn. repeat split.
  - intros err H. discriminate H.
Qed.

(** ** ListProfiles *)

(** Facts about the 256 profile paths, checked slot by slot. *)
Lemma key_slot_profilePath s : key_slot (profilePath s) = Some s.
Proof. destruct s; vm_compute; reflexivity. Qed.

Lemma key_slot_temp s : key_slot (profilePath s ++ tempSuffix) = None.
Proof. destruct s; vm_compute; reflexivity. Qed.

Lemma key_slot_configDir : key_slot configDir = None.
Proof. reflexivity. Qed.

Lemma key_slot_profilesDir : key_slot profilesDir = None.
Proof. reflexivity. Qed.

Lemma path_Dir_profilePath s : path_Dir (profilePath s) = profilesDir.
Proof. destruct s; vm_compute; reflexivity. Qed.

Lemma path_Dir_temp s : path_Dir (profilePath s ++ tempSuffix) = profilesDir.
Proof. destruct s; vm_compute; reflexivity. Qed.

Lemma profile_file_not_dir k : profile_file k -> k <> profilesDir /\ k <> configDir.
Proof.
  intros [[s ->]|[s ->]]; split; intros H; apply (f_equal String.length) in H;
    unfold profilePath, path_Join in H; rewrite !string_length_app in H;
    cbn in H; lia.
Qed.

Lemma profile_file_key_slot k s :
  profile_file k -> key_slot k = Some s -> k = profilePath s.
Proof.
  intros [[s' ->]|[s' ->]].
  - rewrite key_slot_profilePath. now intros [= ->].
  - rewrite key_slot_temp. discriminate.
Qed.

(** How each call can change the tree. *)
Lemma OpenFile_cases p fs0 :
  nodes (snd (OpenFile p fs0)) = nodes fs0
  \/ nodes (snd (OpenFile p fs0)) = <[p := File []]> (nodes fs0).
Proof. prim; auto. Qed.

Lemma Write_cases f d fs0 :
  nodes (snd (Write f d fs0)) = nodes fs0
  \/ exists d', nodes (snd (Write f d fs0)) = <[h_path f := File d']> (nodes fs0).
Proof. prim; eauto. Qed.

Lemma Remove_cases p fs0 :
  nodes (snd (Remove p fs0)) = nodes fs0
  \/ nodes (snd (Remove p fs0)) = delete p (nodes fs0).
Proof. prim; auto. Qed.

Lemma Rename_cases a b fs0 :
  nodes (snd (Rename a b fs0)) = nodes fs0
  \/ exists d, nodes (snd (Rename a b fs0)) = <[b := File d]> (delete a (nodes fs0)).
Proof. prim; eauto. Qed.

Lemma Mkdir_cases p fs0 :
  nodes (snd (Mkdir p fs0)) = nodes fs0
  \/ nodes (snd (Mkdir p fs0)) = <[p := Dir]> (nodes fs0).
Proof. prim; auto. Qed.

(** The invariant is closed under the changes the manager makes. *)
Lemma store_inv_delete b ns p :
  profile_file p -> store_inv b ns -> store_inv b (delete p ns).
Proof.
  intros Hp [Hk Hd]. split.
  - intros k n Hkn. apply lookup_delete_Some in Hkn as [_ Hkn]. eauto.
  - intros Hb. rewrite lookup_delete_ne; [auto|].
    intros ->. now apply profile_file_not_dir in Hp as [? _].
Qed.

Lemma store_inv_insert_file b ns p d :
  profile_file p -> store_inv b ns -> store_inv b (<[p := File d]> ns).
Proof.
  intros Hp [Hk Hd]. split.
  - intros k n Hkn. apply lookup_insert_Some in Hkn as [[<- <-]|[_ Hkn]]; eauto.
  - intros Hb. rewrite lookup_insert_ne; [auto|].
    intros ->. now apply profile_file_not_dir in Hp as [? _].
Qed.

Lemma store_inv_insert_dir b ns p :
  p = configDir \/ p = profilesDir ->
  store_inv b ns -> store_inv b (<[p := Dir]> ns).
Proof.
  intros Hp [Hk Hd]. split.
  - intros k n Hkn. apply lookup_insert_Some in Hkn as [[<- <-]|[_ Hkn]]; [|eauto].
    destruct Hp as [->| ->]; auto.
  - intros Hb. destruct Hp as [->| ->].
    + rewrite lookup_insert_ne by discriminate. auto.
    + apply lookup_insert_eq.
Qed.

Lemma store_inv_eq b ns ns' : ns' = ns -> store_inv b ns -> store_inv b ns'.
Proof. now intros ->. Qed.

Lemma ensureDirs_inv b (m : Manager) :
  store_inv b (nodes (fs m)) -> store_inv b (nodes (fs (snd (ensureDirs m)))).
Proof.
  intros Hinv. unfold ensureDirs. mstep.
  assert (H1 : store_inv b (nodes (snd (Mkdir configDir (fs m))))).
  { destruct (Mkdir_cases configDir (fs m)) as [-> | ->];
      auto using store_inv_insert_dir. }
  destruct (_ && _); mstep; [exact H1|].
  assert (H2 : store_inv b (nodes (snd (Mkdir profilesDir (snd (Mkdir configDir (fs m))))))).
  { destruct (Mkdir_cases profilesDir (snd (Mkdir configDir (fs m)))) as [-> | ->];
      auto using store_inv_insert_dir. }
  destruct (_ && _); mstep; exact H2.
Qed.

Lemma inv_Remove b p fs0 :
  profile_file p -> store_inv b (nodes fs0) -> store_inv b (nodes (snd (Remove p fs0))).
Proof.
  intros Hp H. destruct (Remove_cases p fs0) as [-> | ->];
    auto using store_inv_delete.
Qed.

Lemma inv_OpenFile b p fs0 :
  profile_file p -> store_inv b (nodes fs0) -> store_inv b (nodes (snd (OpenFile p fs0))).
Proof.
  intros Hp H. destruct (OpenFile_cases p fs0) as [-> | ->];
    auto using store_inv_insert_file.
Qed.

Lemma inv_Write b f d fs0 :
  profile_file (h_path f) -> store_inv b (nodes fs0) ->
  store_inv b (nodes (snd (Write f d fs0))).
Proof.
  intros Hp H. destruct (Write_cases f d fs0) as [-> | [d' ->]];
    auto using store_inv_insert_file.
Qed.

Lemma inv_Sync b f fs0 :
  store_inv b (nodes fs0) -> store_inv b (nodes (snd (Sync f fs0))).
Proof. now rewrite Sync_nodes. Qed.

Lemma inv_Close b f fs0 :
  store_inv b (nodes fs0) -> store_inv b (nodes (snd (Close f fs0))).
Proof. now rewrite Close_nodes. Qed.

Lemma inv_Rename b p q fs0 :
  profile_file p -> profile_file q -> store_inv b (nodes fs0) ->
  store_inv b (nodes (snd (Rename p q fs0))).
Proof.
  intros Hp Hq H. destruct (Rename_cases p q fs0) as [-> | [d ->]];
    auto using store_inv_insert_file, store_inv_delete.
Qed.

Lemma OpenFile_handle p fs0 f :
  fst (OpenFile p fs0) = Ok f -> f = mkHandle p false.
Proof.
  destruct (OpenFile p fs0) as [r fs1] eqn:E. cbn [fst]. intros ->.
  now apply OpenFile_Ok in E as [-> _].
Qed.

Ltac inv_chain :=
  cbn [fs];
  repeat first [ assumption
               | apply inv_Remove | apply inv_OpenFile | apply inv_Write
               | apply inv_Sync | apply inv_Close | apply inv_Rename
               | cbn [h_path]; unfold profile_file; eauto ].

Lemma atomicWrite_inv b s data (m : Manager) :
  store_inv b (nodes (fs m)) ->
  store_inv b (nodes (fs (snd (atomicWrite (profilePath s) data m)))).
Proof.
  intros Hinv. unfold atomicWrite. mstep.
  set (temp := (profilePath s ++ tempSuffix)%string).
  assert (Ht : profile_file temp) by (right; eauto).
  assert (Hf : profile_file (profilePath s)) by (left; eauto).
  destruct (fst (OpenFile temp _)) as [f|e] eqn:E1; mstep; [|inv_chain].
  apply OpenFile_handle in E1. subst f.
  destruct (fst (Write _ data _)) as [n|e]; mstep; [|inv_chain].
  destruct (fst (Sync _ _)) as [e|]; mstep; [inv_chain|].
  destruct (fst (Close _ _)) as [e|]; mstep; [inv_chain|].
  destruct (fst (Rename _ _ _)) as [e|]; mstep; inv_chain.
Qed.

Lemma run_op_inv b op (m : Manager) :
  store_inv b (nodes (fs m)) -> store_inv b (nodes (fs (snd (run_op op m)))).
Proof.
  intros Hinv. destruct op as [slot p|slot]; unfold run_op.
  - unfold SaveProfile. mstep.
    pose proof (ensureDirs_inv b m Hinv) as H1.
    destruct (ensureDirs m) as [[e|] m1]; cbn [fst snd] in *; [exact H1|].
    unfold config.Profile.MarshalBinary. cbv iota. mstep.
    pose proof (atomicWrite_inv b slot
                  (fst (config.Profile.MarshalBinary
                          (config.Profile.set_Version p config.CurrentVersion)))
                  m1 H1) as H2.
    unfold config.Profile.MarshalBinary in H2. cbn [fst] in H2.
    now destruct (atomicWrite _ _ m1).
  - unfold DeleteProfile. mstep. apply inv_Remove; [left; eauto | exact Hinv].
Qed.

Lemma Rename_None_parent a b fs0 fs1 :
  Rename a b fs0 = (None, fs1) -> is_dir (nodes fs0) (path_Dir b) = true.
Proof.
  prim; intros [= <-]; try discriminate;
    match goal with H : negb _ = false |- _ => now apply negb_false_iff in H end.
Qed.

Lemma is_dir_lookup ns p :
  p <> "/"%string -> is_dir ns p = true -> ns !! p = Some Dir.
Proof.
  intros Hp. unfold is_dir. apply String.eqb_neq in Hp. rewrite Hp. cbn [orb].
  destruct (ns !! p) as [[?|]|]; congruence.
Qed.

Lemma atomicWrite_None_parent filepath data (m m' : Manager) :
  atomicWrite filepath data m = (None, m') ->
  path_Dir filepath <> "/"%string ->
  filepath <> path_Dir filepath ->
  (filepath ++ tempSuffix)%string <> path_Dir filepath ->
  nodes (fs m') !! path_Dir filepath = Some Dir.
Proof.
  intros Haw Hroot Hp Ht. revert Haw.
  unfold atomicWrite. mstep.
  set (temp := (filepath ++ tempSuffix)%string) in *.
  set (fs0 := snd (Remove temp (fs m))).
  destruct (OpenFile temp fs0) as [[f|e] fs1] eqn:E1; mstep; [|intros; discriminate].
  destruct (Write f data fs1) as [[n|e] fs2] eqn:E2; mstep; [|intros; discriminate].
  destruct (Sync f fs2) as [[e|] fs3] eqn:E3; mstep; [intros; discriminate|].
  destruct (Close f fs3) as [[e|] fs4] eqn:E4; mstep; [intros; discriminate|].
  set (fs5 := snd (Remove filepath fs4)).
  destruct (Rename temp filepath fs5) as [[e|] fs6] eqn:E6; mstep; [intros; discriminate|].
  intros [= <-]. cbn [fs].
  pose proof (Rename_None_parent _ _ _ _ E6) as Hdir.
  apply Rename_None in E6 as (d & _ & ->).
  rewrite lookup_insert_ne, lookup_delete_ne by auto.
  now apply is_dir_lookup.
Qed.

Lemma atomicWrite_None_dir s data (m m' : Manager) :
  atomicWrite (profilePath s) data m = (None, m') ->
  nodes (fs m') !! profilesDir = Some Dir.
Proof.
  intros Haw.
  assert (Hp : profile_file (profilePath s)) by (left; eauto).
  assert (Ht : profile_file (profilePath s ++ tempSuffix)%string) by (right; eauto).
  apply profile_file_not_dir in Hp as [Hp _], Ht as [Ht _].
  rewrite <- (path_Dir_profilePath s) in Hp, Ht |- *.
  apply (atomicWrite_None_parent _ data m m' Haw); auto.
  rewrite path_Dir_profilePath. discriminate.
Qed.

Lemma Remove_absent_fails p fs0 :
  nodes fs0 !! p = None -> fst (Remove p fs0) <> None.
Proof. intros Hp. prim; congruence. Qed.

Lemma store_inv_empty : store_inv false ∅.
Proof.
  split; [|discriminate]. intros k n Hk. now rewrite lookup_empty in Hk.
Qed.

Lemma run_ops_inv b ops : forall (m m' : Manager),
  run_ops ops m = Some m' ->
  store_inv b (nodes (fs m)) -> store_inv b (nodes (fs m')).
Proof.
  induction ops as [|op ops IH]; intros m m'; cbn [run_ops].
  - now intros [= <-].
  - pose proof (run_op_inv b op m) as Hop.
    destruct (run_op op m) as [[e|] m1]; [discriminate|].
    cbn [snd] in Hop. eauto.
Qed.

(** After a non-empty run of successful operations on an empty tree the
    profiles directory exists: the first of them was a [SaveProfile]. *)
Lemma run_ops_from_empty ops (m m' : Manager) :
  ops <> [] -> nodes (fs m) = ∅ ->
  run_ops ops m = Some m' ->
  store_inv true (nodes (fs m')).
Proof.
  intros Hne Hempty. destruct ops as [|op ops]; [congruence|]. clear Hne.
  cbn [run_ops].
  pose proof (run_op_inv false op m) as Hop.
  rewrite Hempty in Hop. specialize (Hop store_inv_empty).
  destruct (run_op op m) as [[e|] m1] eqn:E1; [discriminate|].
  cbn [snd] in Hop. intros Hrun.
  apply (run_ops_inv true ops m1 m' Hrun).
  split; [exact (proj1 Hop)|]. intros _.
  destruct op as [slot p|slot]; unfold run_op in E1.
  - unfold SaveProfile in E1. mstep_in E1.
    destruct (ensureDirs m) as [[e|] m0]; [discriminate|].
    unfold config.Profile.MarshalBinary in E1. cbv iota in E1. mstep_in E1.
    destruct (atomicWrite _ _ m0) as [[e|] m2] eqn:Haw; [discriminate|].
    injection E1 as <-.
    now apply atomicWrite_None_dir in Haw.
  - exfalso. unfold DeleteProfile in E1. rewrite call_fs_eq in E1.
    injection E1 as E1 _. revert E1. apply Remove_absent_fails.
    rewrite Hempty. apply lookup_empty.
Qed.

Lemma ListProfiles_quiet (m : Manager) :
  oracle (fs m) = [] ->
  nodes (fs m) !! profilesDir = Some Dir ->
  fst (ListProfiles m)
  = Ok (omap entry_slot (entries (nodes (fs m)) profilesDir)).
Proof.
  intros Hq Hd. unfold ListProfiles, readDir. mstep.
  assert (Hopen : Open profilesDir (fs m)
                  = (Ok (mkHandle profilesDir true),
                     after_call (CallOpen profilesDir) (fs m))).
  { unfold Open, enter, verdict, after_call. rewrite Hq.
    cbn [fst snd nodes tl]. now rewrite Hd. }
  rewrite Hopen. mstep. cbn [IsDir h_isdir negb]. mstep.
  unfold Readdir at 1, enter, verdict. cbn [oracle after_call fst snd IsDir h_isdir].
  unfold Readdir, enter, verdict. cbn [oracle after_call fst snd IsDir h_isdir nodes].
  reflexivity.
Qed.

Lemma omap_omap {A B C} (f : A -> option B) (g : B -> option C) (l : list A) :
  omap g (omap f l)
  = omap (fun x => match f x with Some y => g y | None => None end) l.
Proof.
  induction l as [|x l IH]; [reflexivity|]. cbn.
  destruct (f x) as [y|]; cbn; [|exact IH].
  destruct (g y); now rewrite IH.
Qed.

Lemma NoDup_omap {A B} (f : A -> option B) (l : list A) :
  NoDup l ->
  (forall x y z, x ∈ l -> y ∈ l -> f x = Some z -> f y = Some z -> x = y) ->
  NoDup (omap f l).
Proof.
  induction 1 as [|x l Hx Hl IH]; intros Hinj; cbn; [constructor|].
  assert (IH' : NoDup (omap f l)).
  { apply IH. intros a b z Ha Hb. apply Hinj; now right. }
  destruct (f x) as [z|] eqn:Hfx; [|exact IH'].
  constructor; [|exact IH'].
  rewrite list_elem_of_omap. intros (y & Hy & Hfy).
  apply Hx. rewrite (Hinj x y z); auto; [now left | now right].
Qed.

Lemma listed_slots_eq ns :
  omap entry_slot (entries ns profilesDir)
  = omap (fun kv : string * node => key_slot (fst kv)) (map_to_list ns).
Proof. unfold entries. now rewrite omap_omap. Qed.

Lemma listed_slots_spec b ns :
  store_inv b ns ->
  NoDup (omap entry_slot (entries ns profilesDir))
  /\ forall s, s ∈ omap entry_slot (entries ns profilesDir)
               <-> is_Some (ns !! profilePath s).
Proof.
  intros [Hk _]. rewrite listed_slots_eq.
  assert (Hkey : forall k n s, ns !! k = Some n -> key_slot k = Some s ->
                               k = profilePath s).
  { intros k n s Hkn Hs.
    destruct (Hk k n Hkn) as [[-> _]|[[-> _]|Hf]].
    - rewrite key_slot_configDir in Hs. discriminate.
    - rewrite key_slot_profilesDir in Hs. discriminate.
    - now apply profile_file_key_slot. }
  split.
  - apply NoDup_omap; [apply NoDup_map_to_list|].
    intros [k n] [k' n'] s Hin Hin' Hs Hs'. cbn [fst] in *.
    apply elem_of_map_to_list in Hin, Hin'.
    assert (k = k') as <-.
    { rewrite (Hkey k n s), (Hkey k' n' s); auto. }
    congruence.
  - intros s. rewrite list_elem_of_omap. split.
    + intros ([k n] & Hin & Hs). cbn [fst] in Hs.
      apply elem_of_map_to_list in Hin.
      rewrite <- (Hkey k n s Hin Hs). eauto.
    + intros [n Hn]. exists (profilePath s, n). split.
      * now apply elem_of_map_to_list.
      * apply key_slot_profilePath.
Qed.

Lemma all_slots_complete (s : byte) : In s all_slots.
Proof.
  unfold all_slots. apply in_map_iff.
  exists (Z.to_nat (byte.unsigned s)).
  pose proof (byte.unsigned_range s) as Hr. split.
  - rewrite Z2Nat.id by lia. apply byte.of_Z_unsigned.
  - apply in_seq. lia.
Qed.

Lemma all_slots_NoDup : NoDup all_slots.
Proof.
  unfold all_slots. apply NoDup_fmap_2_strong; [|apply NoDup_seq].
  intros x y Hx Hy Heq.
  apply elem_of_seq in Hx, Hy.
  apply (f_equal byte.unsigned) in Heq.
  rewrite !byte.unsigned_of_Z in Heq. unfold byte.wrap in Heq.
  rewrite !Z.mod_small in Heq by lia. lia.
Qed.

Lemma NoDup_List_filter {A} (f : A -> bool) (l : list A) :
  NoDup l -> NoDup (List.filter f l).
Proof.
  induction 1 as [|x l Hx Hl IH]; cbn; [constructor|].
  destruct (f x); [|exact IH].
  constructor; [|exact IH].
  rewrite list_elem_of_In, filter_In, <- list_elem_of_In. tauto.
Qed.

Lemma occupied_slots_spec (m : Manager) s :
  In s (occupied_slots m) <-> is_Some (nodes (fs m) !! profilePath s).
Proof.
  unfold occupied_slots. rewrite filter_In. unfold occupied.
  split.
  - intros [_ H]. destruct (nodes (fs m) !! profilePath s); [eauto | discriminate].
  - intros [n ->]. split; [apply all_slots_complete | reflexivity].
Qed.

(** C7, as the code has it.  After any non-empty sequence of successful
    SaveProfile and DeleteProfile operations starting from an empty store,
    and with no device fault during the listing itself, [ListProfiles]
    returns the occupied slots, each exactly once, and the ListProfiles
    response is OK with the slots preceded by a count byte that equals the
    number of occupied slots modulo 256 (hence equals it whenever fewer
    than 256 slots are occupied). *)
Theorem ListProfiles_lists_occupied_slots
  (ops : list store_op) (schedule : list (option fault)) (replaces : bool)
  (size : Z) (m : Manager) :
  ops <> [] ->
  run_ops ops (blank schedule replaces size) = Some m ->
  oracle (fs m) = [] ->
  exists slots,
    fst (ListProfiles m) = Ok slots
    /\ NoDup slots
    /\ (forall s, In s slots <-> occupied m s = true)
    /\ length slots = length (occupied_slots m)
    /\ fst (protocol.Handle (protocol.mkFrame protocol.CmdListProfiles []) m)
       = protocol.mkResponse protocol.StatusOK
           (uint8 (Z.of_nat (length slots)) :: slots)
    /\ byte.unsigned (uint8 (Z.of_nat (length slots)))
       = Z.of_nat (length (occupied_slots m)) mod 256
    /\ ((length (occupied_slots m) < 256)%nat ->
        byte.unsigned (uint8 (Z.of_nat (length slots)))
        = Z.of_nat (length (occupied_slots m))).
Proof.
  intros Hne Hrun Hq.
  pose proof (run_ops_from_empty ops (blank schedule replaces size) m Hne eq_refl Hrun)
    as Hinv.
  pose proof (ListProfiles_quiet m Hq (proj2 Hinv eq_refl)) as Hlist.
  destruct (listed_slots_spec true _ Hinv) as [Hnd Hmem].
  set (slots := omap entry_slot (entries (nodes (fs m)) profilesDir)) in *.
  assert (Hin : forall s, In s slots <-> In s (occupied_slots m)).
  { intros s. rewrite occupied_slots_spec, <- Hmem. symmetry. apply list_elem_of_In. }
  assert (Hlen : length slots = length (occupied_slots m)).
  { apply Permutation_length, NoDup_Permutation; auto.
    - unfold occupied_slots. apply NoDup_List_filter, all_slots_NoDup.
    - intros s. rewrite !list_elem_of_In. apply Hin. }
  assert (Hbyte : byte.unsigned (uint8 (Z.of_nat (length slots)))
                  = Z.of_nat (length (occupied_slots m)) mod 256).
  { unfold uint8. rewrite byte.unsigned_of_Z, Hlen. reflexivity. }
  exists slots. repeat split; auto.
  - intros Hs. apply Hin, occupied_slots_spec in Hs. unfold occupied.
    now destruct Hs as [n ->].
  - intros Hs. apply Hin, occupied_slots_spec. unfold occupied in Hs.
    destruct (nodes (fs m) !! profilePath s); [eauto | discriminate].
  - change (protocol.Handle _ m) with (protocol.handleListProfiles m).
    unfold protocol.handleListProfiles, bind.
    destruct (ListProfiles m) as [r m']. cbn [fst] in Hlist. now subst r.
  - intros Hlt. rewrite Hbyte. apply Z.mod_small. lia.
Qed.

(** ** The statements above at concrete inputs *)

Lemma SetProfile_version_gate_witness :
  Uint16 (skipn 1 (Byte.x00 :: sample.profile_bytes 2)) <> config.CurrentVersion
  /\ protocol.Handle
       (protocol.mkFrame protocol.CmdSetProfile (Byte.x00 :: sample.profile_bytes 2))
       sample.store
     = (protocol.mkResponse protocol.StatusVersionMismatch [], sample.store).
Proof.
  apply (SetProfile_version_gate sample.store (Byte.x00 :: sample.profile_bytes 2)).
  - reflexivity.
  - vm_compute. discriminate.
Defined.

Lemma persistence_round_trip_witness :
  fst (protocol.Handle (protocol.mkFrame protocol.CmdGetProfile [Byte.x05])
         (snd (protocol.Handle
                 (protocol.mkFrame protocol.CmdSetProfile
                    (Byte.x05 :: sample.profile_bytes 1))
                 sample.store)))
  = protocol.mkResponse protocol.StatusOK (sample.profile_bytes 1)
  /\ fst (protocol.Handle (protocol.mkFrame protocol.CmdGetDeviceConfig [])
            (snd (protocol.Handle
                    (protocol.mkFrame protocol.CmdSetDeviceConfig sample.device_bytes)
                    sample.store)))
     = protocol.mkResponse protocol.StatusOK
         (PutUint16 config.CurrentVersion ++ skipn 2 sample.device_bytes).
Proof.
  destruct (persistence_round_trip sample.store Byte.x05
              (sample.profile_bytes 1) sample.device_bytes
              eq_refl eq_refl eq_refl) as [Hp Hd].
  split; [apply Hp | apply Hd]; vm_compute; reflexivity.
Defined.

Lemma crc_error_status_never_emitted_witness :
  protocol.Status
    (fst (protocol.Handle (protocol.mkFrame protocol.CmdPing []) sample.store))
  <> protocol.StatusCRCError
  /\ protocol.ReadFrame
       [protocol.SyncByte; protocol.CmdPing; Byte.x00; Byte.x00; Byte.xff; Byte.xff]
     = (Err ErrCRCMismatch, [])
  /\ serial.Handle_iteration
       (serial.mkSerial
          [protocol.SyncByte; protocol.CmdPing; Byte.x00; Byte.x00; Byte.xff; Byte.xff]
          [] sample.store)
     = serial.mkSerial [] [] sample.store.
Proof.
  apply (crc_error_status_never_emitted
           (protocol.mkFrame protocol.CmdPing []) sample.store
           protocol.CmdPing Byte.x00 Byte.x00 Byte.xff Byte.xff [] [] []).
  - reflexivity.
  - vm_compute. discriminate.
  - vm_compute. discriminate.
Defined.

(** C3, the claim as written fails: on a fresh store slot 5 is empty and
    DeleteProfile of it is not answered OK. *)
Lemma DeleteProfile_empty_slot_not_OK :
  nodes (fs sample.store) !! profilePath Byte.x05 = None
  /\ protocol.Status
       (fst (protocol.Handle (protocol.mkFrame protocol.CmdDeleteProfile [Byte.x05])
               sample.store))
     <> protocol.StatusOK.
Proof. split; [reflexivity | vm_compute; discriminate]. Qed.

Lemma DeleteProfile_twice_witness :
  let del := protocol.Handle (protocol.mkFrame protocol.CmdDeleteProfile [Byte.x05]) in
  (nodes (fs sample.store) !! profilePath Byte.x05 = None ->
   fst (del sample.store) = protocol.mkResponse protocol.StatusError []
   /\ nodes (fs (snd (del sample.store))) = nodes (fs sample.store))
  /\ (forall d, nodes (fs sample.store) !! profilePath Byte.x05 = Some (File d) ->
      fst (del sample.store) = protocol.mkResponse protocol.StatusOK []
      /\ nodes (fs (snd (del sample.store))) !! profilePath Byte.x05 = None)
  /\ nodes (fs (snd (del (snd (del sample.store)))))
     = nodes (fs (snd (del sample.store))).
Proof. apply (DeleteProfile_twice sample.store Byte.x05). reflexivity. Defined.

(** C7, the claim as written fails: with all 256 slots occupied the count
    byte of the ListProfiles response is 0. *)
Lemma ListProfiles_count_wraps_at_256 :
  exists m,
    run_ops sample.fill_all_slots sample.store = Some m
    /\ length (occupied_slots m) = 256%nat
    /\ protocol.Status
         (fst (protocol.Handle (protocol.mkFrame protocol.CmdListProfiles []) m))
       = protocol.StatusOK
    /\ hd Byte.xff
         (protocol.RespPayload
            (fst (protocol.Handle (protocol.mkFrame protocol.CmdListProfiles []) m)))
       = Byte.x00.
Proof.
  exists (after_ops sample.fill_all_slots sample.store).
  split; [|split; [|split]; vm_compute; reflexivity].
  assert (H : match run_ops sample.fill_all_slots sample.store with
              | Some _ => true
              | None => false
              end = true) by (vm_compute; reflexivity).
  unfold after_ops.
  destruct (run_ops sample.fill_all_slots sample.store); [reflexivity | discriminate].
Qed.

Lemma ListProfiles_lists_occupied_slots_witness :
  let ops := [OpSave Byte.x05 config.Profile.zero;
              OpSave Byte.x07 config.Profile.zero;
              OpDelete Byte.x05] in
  let m := after_ops ops sample.store in
  exists slots,
    fst (ListProfiles m) = Ok slots
    /\ NoDup slots
    /\ (forall s, In s slots <-> occupied m s = true)
    /\ length slots = length (occupied_slots m)
    /\ fst (protocol.Handle (protocol.mkFrame protocol.CmdListProfiles []) m)
       = protocol.mkResponse protocol.StatusOK
           (uint8 (Z.of_nat (length slots)) :: slots)
    /\ byte.unsigned (uint8 (Z.of_nat (length slots)))
       = Z.of_nat (length (occupied_slots m)) mod 256
    /\ ((length (occupied_slots m) < 256)%nat ->
        byte.unsigned (uint8 (Z.of_nat (length slots)))
        = Z.of_nat (length (occupied_slots m))).
Proof.
  intros ops m.
  apply (ListProfiles_lists_occupied_slots ops [] false 262144 m).
  - discriminate.
  - vm_compute. reflexivity.
  - vm_compute. reflexivity.
Defined.

(** C9, the claim as written fails: the device refuses the [Sync] of the
    temporary file and then the [Remove] that should clean it up;
    [atomicWrite] returns the error of [Sync] and the temporary file,
    fully written, stays where it is. *)
Lemma atomicWrite_refused_cleanup_leaves_temp :
  let m := sample.store_with_dirs
             [None; None; None; Some (mkFault errIO 0); None; Some (mkFault errIO 0)] in
  fails_at StepSync deviceFile sample.device_bytes (fs m) (LfsError errIO)
  /\ fst (atomicWrite deviceFile sample.device_bytes m) = Some (LfsError errIO)
  /\ nodes (fs (snd (atomicWrite deviceFile sample.device_bytes m)))
       !! (deviceFile ++ tempSuffix)%string
     = Some (File sample.device_bytes).
Proof. vm_compute. repeat split. Qed.

Lemma atomicWrite_failure_before_rename_witness :
  let m := sample.store_with_dirs [None; None; Some (mkFault errNoSpace 5)] in
  exists (m' : Manager),
    atomicWrite deviceFile sample.device_bytes m = (Some (LfsError errNoSpace), m')
    /\ (forall a b v, (CallRename a b, v) ∉ trace (fs m'))
    /\ (forall v, (CallRemove deviceFile, v) ∉ trace (fs m'))
    /\ nodes (fs m') !! deviceFile = nodes (fs m) !! deviceFile
    /\ (forall d, nodes (fs m') !! (deviceFile ++ tempSuffix)%string <> Some (File d)).
Proof.
  intros m.
  destruct (atomicWrite_failure_before_rename m deviceFile sample.device_bytes
              StepWrite (LfsError errNoSpace))
    as (m' & calls & Hrun & Htr & Hren & Hrem & Htgt & Htemp).
  - vm_compute. split; reflexivity.
  - vm_compute. discriminate.
  - change (trace (fs m)) with (@nil (call * option fault)) in Htr.
    rewrite app_nil_r in Htr.
    exists m'. rewrite Htr.
    split; [exact Hrun|]. split; [exact Hren|]. split; [exact Hrem|].
    split; [exact Htgt|].
    apply Htemp. intros p f Hin.
    apply (f_equal snd) in Hrun. cbn [snd] in Hrun.
    rewrite <- Htr, <- Hrun in Hin. vm_compute in Hin.
    repeat (apply elem_of_cons in Hin as [Hin|Hin]; [discriminate Hin|]).
    now apply elem_of_nil in Hin.
Defined.

(** C10, the claim as written fails: when the flash refuses the first
    [Mkdir], [SaveProfile] returns before it touches the struct, whose
    version stays 7. *)
Lemma SaveProfile_returns_before_stamping :
  let m := blank [Some (mkFault errNoSpace 0)] false 262144 in
  let p := config.Profile.set_Version config.Profile.zero 7 in
  fst (fst (SaveProfile Byte.x00 p m)) = Some (LfsError errNoSpace)
  /\ config.Profile.Version (snd (fst (SaveProfile Byte.x00 p m))) = 7
  /\ config.Profile.Version (snd (fst (SaveProfile Byte.x00 p m)))
     <> config.CurrentVersion.
Proof. vm_compute. repeat split. discriminate. Qed.

Lemma Save_stamps_version_after_ensureDirs_witness :
  let p := config.Profile.set_Version config.Profile.zero 7 in
  let c := config.DeviceConfig.set_Version config.DeviceConfig.zero 7 in
  let refusing := blank [Some (mkFault errNoSpace 0)] false 262144 in
  (config.Profile.Version (snd (fst (SaveProfile Byte.x00 p sample.store)))
   = config.CurrentVersion
   /\ config.DeviceConfig.Version (snd (fst (SaveDevice c sample.store)))
      = config.CurrentVersion)
  /\ (SaveProfile Byte.x00 p refusing
      = ((Some (LfsError errNoSpace), p), snd (ensureDirs refusing))
      /\ SaveDevice c refusing
         = ((Some (LfsError errNoSpace), c), snd (ensureDirs refusing))).
Proof.
  intros p c refusing. split.
  - destruct (Save_stamps_version_after_ensureDirs sample.store Byte.x00 p c)
      as [Hok _].
    destruct (Hok eq_refl) as [[Hp _] [Hc _]].
    split; [exact Hp | exact Hc].
  - destruct (Save_stamps_version_after_ensureDirs refusing Byte.x00 p c)
      as [_ Hfail].
    destruct (Hfail (LfsError errNoSpace) eq_refl) as (Hp & Hc & _).
    split; [exact Hp | exact Hc].
Defined.

(** * Further properties of the code *)

(** ** The frame reader *)

Lemma ReadFull_Ok_inv r n a r' :
  protocol.ReadFull r n = (Ok a, r') -> r = a ++ r' /\ length a = n.
Proof.
  unfold protocol.ReadFull. destruct n as [|n].
  - intros [= <- <-]. auto.
  - destruct r as [|x r]; [discriminate|].
    destruct (length (x :: r) <? S n)%nat eqn:Hlt; [discriminate|].
    intros [= <- <-]. apply Nat.ltb_ge in Hlt. cbn [length] in Hlt. split.
    + cbn [app]. f_equal. symmetry. apply firstn_skipn.
    + cbn [length]. rewrite length_take. lia.
Qed.

Lemma ReadFull_short r n :
  (length r < n)%nat ->
  fst (protocol.ReadFull r n) = Err EOF
  \/ fst (protocol.ReadFull r n) = Err ErrUnexpectedEOF.
Proof.
  intros Hlt. unfold protocol.ReadFull.
  destruct n as [|n]; [lia|].
  destruct r as [|x r]; [now left|].
  apply Nat.ltb_lt in Hlt. rewrite Hlt. now right.
Qed.

Lemma list_length_1 {A} (l : list A) : length l = 1%nat -> exists a, l = [a].
Proof. destruct l as [|a [|]]; try discriminate. eauto. Qed.

Lemma list_length_2 {A} (l : list A) : length l = 2%nat -> exists a b, l = [a; b].
Proof. destruct l as [|a [|b [|]]]; try discriminate. eauto. Qed.

Lemma list_length_3 {A} (l : list A) :
  length l = 3%nat -> exists a b c, l = [a; b; c].
Proof. destruct l as [|a [|b [|c [|]]]]; try discriminate. eauto. Qed.

Lemma Uint16_nonneg l : 0 <= Uint16 l.
Proof. unfold Uint16. apply le_combine_bound. Qed.

(** X1. [ReadFrame] accepts nothing but what the writer produces: when it
    returns a frame, the bytes it consumed are exactly the encoding of that
    frame, and the payload has at most 4096 bytes. *)
Theorem ReadFrame_accepts_only_encoded_frames (r rest : list byte) (f : protocol.Frame) :
  protocol.ReadFrame r = (Ok f, rest) ->
  r = protocol.frame_bytes (protocol.Cmd f) (protocol.Payload f) ++ rest
  /\ (length (protocol.Payload f) <= 4096)%nat.
Proof.
  unfold protocol.ReadFrame.
  destruct (protocol.ReadFull r 1) as [[sync|e] r1] eqn:E1; [|discriminate].
  apply ReadFull_Ok_inv in E1 as [-> Hs].
  apply list_length_1 in Hs as [s ->]. cbn [nth].
  destruct (byte_eqb s protocol.SyncByte) eqn:Hsync; cbn [negb]; [|discriminate].
  apply byte_eqb_eq in Hsync. subst s.
  destruct (protocol.ReadFull r1 3) as [[header|e] r2] eqn:E2; [|discriminate].
  apply ReadFull_Ok_inv in E2 as [-> Hh].
  apply list_length_3 in Hh as (cmd & l0 & l1 & ->). cbn [nth skipn].
  destruct (4096 <? Uint16 [l0; l1]) eqn:Hmax; [discriminate|].
  apply Z.ltb_ge in Hmax.
  pose proof (Uint16_nonneg [l0; l1]) as Hnn.
  destruct (if 0 <? Uint16 [l0; l1]
            then protocol.ReadFull r2 (Z.to_nat (Uint16 [l0; l1]))
            else (Ok [], r2)) as [[payload|e] r3] eqn:E3; [|discriminate].
  assert (Hp : r2 = payload ++ r3 /\ Z.of_nat (length payload) = Uint16 [l0; l1]).
  { destruct (0 <? Uint16 [l0; l1]) eqn:Hpos.
    - apply ReadFull_Ok_inv in E3 as [-> Hl]. split; [reflexivity | lia].
    - apply Z.ltb_ge in Hpos. injection E3 as <- <-. split; [reflexivity|].
      cbn [length]. lia. }
  destruct Hp as [-> Hlen].
  destruct (protocol.ReadFull r3 2) as [[crcBytes|e] r4] eqn:E4; [|discriminate].
  apply ReadFull_Ok_inv in E4 as [-> Hc].
  apply list_length_2 in Hc as (c0 & c1 & ->).
  destruct (Uint16 [c0; c1] =? protocol.calcCRC ([cmd; l0; l1] ++ payload)) eqn:Hcrc;
    cbn [negb]; [|discriminate].
  apply Z.eqb_eq in Hcrc.
  intros [= <- <-]. cbn [protocol.Cmd protocol.Payload].
  split; [|lia].
  unfold protocol.frame_bytes.
  assert (Hu : uint16 (Z.of_nat (length payload)) = Uint16 [l0; l1]).
  { unfold uint16. rewrite Z.mod_small; lia. }
  rewrite Hu, PutUint16_Uint16. cbn [app skipn].
  cbn [app] in Hcrc. rewrite <- Hcrc, PutUint16_Uint16.
  rewrite <- app_assoc. reflexivity.
Qed.

Lemma ReadFrame_accepts_only_encoded_frames_witness :
  [Byte.xaa; Byte.x7f; Byte.x00; Byte.x00; Byte.xa5; Byte.x38; Byte.x55]
  = protocol.frame_bytes Byte.x7f [] ++ [Byte.x55]
  /\ (length (@nil byte) <= 4096)%nat.
Proof.
  apply (ReadFrame_accepts_only_encoded_frames
           [Byte.xaa; Byte.x7f; Byte.x00; Byte.x00; Byte.xa5; Byte.x38; Byte.x55]
           [Byte.x55] (protocol.mkFrame Byte.x7f [])).
  vm_compute. reflexivity.
Defined.

Lemma ReadFrame_bad_sync b rest :
  b <> protocol.SyncByte ->
  protocol.ReadFrame (b :: rest) = (Err ErrInvalidFrame, rest).
Proof.
  intros Hb. unfold protocol.ReadFrame. rewrite ReadFull_1. cbn [nth].
  destruct (byte_eqb b protocol.SyncByte) eqn:E; [|reflexivity].
  apply byte_eqb_eq in E. contradiction.
Qed.

(** X2. A first byte other than the sync marker makes [ReadFrame] fail
    with [ErrInvalidFrame] having consumed that one byte only, whatever
    follows it. *)
Theorem ReadFrame_bad_sync_consumes_one_byte (b : byte) (rest : list byte) :
  b <> protocol.SyncByte ->
  protocol.ReadFrame (b :: rest) = (Err ErrInvalidFrame, rest).
Proof. apply ReadFrame_bad_sync. Qed.

Lemma ReadFrame_bad_sync_consumes_one_byte_witness :
  protocol.ReadFrame [Byte.x55; Byte.xaa; Byte.x08]
  = (Err ErrInvalidFrame, [Byte.xaa; Byte.x08]).
Proof.
  apply (ReadFrame_bad_sync_consumes_one_byte Byte.x55 [Byte.xaa; Byte.x08]).
  discriminate.
Defined.

(** X3. A header whose length field exceeds 4096 makes [ReadFrame] fail
    with [ErrInvalidFrame] right after the four header bytes: nothing of
    what follows is read as a payload. *)
Theorem ReadFrame_oversized_length_rejected (cmd l0 l1 : byte) (rest : list byte) :
  4096 < Uint16 [l0; l1] ->
  protocol.ReadFrame (protocol.SyncByte :: cmd :: l0 :: l1 :: rest)
  = (Err ErrInvalidFrame, rest).
Proof.
  intros Hbig. unfold protocol.ReadFrame.
  rewrite ReadFull_1. cbn [nth]. rewrite byte_eqb_refl. cbn [negb].
  rewrite ReadFull_3. cbn [nth skipn].
  apply Z.ltb_lt in Hbig. now rewrite Hbig.
Qed.

Lemma ReadFrame_oversized_length_rejected_witness :
  protocol.ReadFrame
    [protocol.SyncByte; protocol.CmdPing; Byte.x01; Byte.x10; Byte.x00; Byte.x00]
  = (Err ErrInvalidFrame, [Byte.x00; Byte.x00]).
Proof.
  apply (ReadFrame_oversized_length_rejected
           protocol.CmdPing Byte.x01 Byte.x10 [Byte.x00; Byte.x00]).
  vm_compute. reflexivity.
Defined.

Lemma frame_bytes_shape cmd payload :
  (length payload <= 4096)%nat ->
  exists l0 l1 c0 c1,
    protocol.frame_bytes cmd payload
    = protocol.SyncByte :: cmd :: l0 :: l1 :: payload ++ [c0; c1]
    /\ Uint16 [l0; l1] = Z.of_nat (length payload).
Proof.
  intros Hlen. unfold protocol.frame_bytes.
  assert (Hu : uint16 (Z.of_nat (length payload)) = Z.of_nat (length payload)).
  { unfold uint16. apply Z.mod_small. lia. }
  rewrite Hu. rewrite !PutUint16_cons. cbn [app skipn].
  do 4 eexists. split.
  - reflexivity.
  - rewrite <- PutUint16_cons. apply Uint16_PutUint16. lia.
Qed.

(** X4. A frame cut short is never mistaken for a frame: on every proper
    prefix of an encoded frame [ReadFrame] fails with [io.EOF] or
    [io.ErrUnexpectedEOF], the errors of the reader. *)
Theorem ReadFrame_truncated_frame_fails (cmd : byte) (payload : list byte) (n : nat) :
  (length payload <= 4096)%nat ->
  (n < length (protocol.frame_bytes cmd payload))%nat ->
  fst (protocol.ReadFrame (firstn n (protocol.frame_bytes cmd payload))) = Err EOF
  \/ fst (protocol.ReadFrame (firstn n (protocol.frame_bytes cmd payload)))
     = Err ErrUnexpectedEOF.
Proof.
  intros Hmax Hn.
  destruct (frame_bytes_shape cmd payload Hmax) as (l0 & l1 & c0 & c1 & Hshape & Hl).
  rewrite Hshape in *. cbn [length] in Hn. rewrite length_app in Hn. cbn [length] in Hn.
  unfold protocol.ReadFrame.
  destruct n as [|[|[|[|k]]]]; cbn [firstn].
  - now left.
  - rewrite ReadFull_1. cbn [nth]. rewrite byte_eqb_refl. cbn [negb]. now left.
  - rewrite ReadFull_1. cbn [nth]. rewrite byte_eqb_refl. cbn [negb]. now right.
  - rewrite ReadFull_1. cbn [nth]. rewrite byte_eqb_refl. cbn [negb]. now right.
  - rewrite ReadFull_1. cbn [nth]. rewrite byte_eqb_refl. cbn [negb].
    rewrite ReadFull_3. cbn [nth skipn]. rewrite Hl.
    assert (H4096 : (4096 <? Z.of_nat (length payload)) = false)
      by (apply Z.ltb_ge; lia).
    rewrite H4096.
    set (q := firstn k (payload ++ [c0; c1])).
    assert (Hq : length q = k).
    { subst q. rewrite length_take, length_app. cbn [length]. lia. }
    destruct (0 <? Z.of_nat (length payload)) eqn:Hpos.
    + rewrite Nat2Z.id.
      destruct (Nat.lt_ge_cases k (length payload)) as [Hk|Hk].
      * destruct (ReadFull_short q (length payload)) as [H|H]; [lia| |];
          destruct (protocol.ReadFull q (length payload)) as [r' q'];
          cbn [fst] in H; subst r'; auto.
      * assert (Hq' : q = payload ++ firstn (k - length payload) [c0; c1]).
        { subst q. rewrite take_app. rewrite take_ge by lia. reflexivity. }
        rewrite Hq'. rewrite ReadFull_app; [|reflexivity|].
        2:{ apply Z.ltb_lt in Hpos. lia. }
        destruct (ReadFull_short (firstn (k - length payload) [c0; c1]) 2) as [H|H].
        { rewrite length_take. cbn [length]. lia. }
        all: destruct (protocol.ReadFull (firstn (k - length payload) [c0; c1]) 2)
          as [r' q']; cbn [fst] in H; subst r'; auto.
    + apply Z.ltb_ge in Hpos.
      assert (Hp : payload = []) by (destruct payload; [reflexivity | cbn in Hpos; lia]).
      subst payload. cbn [length] in *.
      destruct (ReadFull_short q 2) as [H|H]; [lia| |];
        destruct (protocol.ReadFull q 2) as [r' q']; cbn [fst] in H; subst r'; auto.
Qed.

Lemma ReadFrame_truncated_frame_fails_witness :
  fst (protocol.ReadFrame
         (firstn 5 (protocol.frame_bytes protocol.CmdPing [Byte.x01; Byte.x02])))
  = Err EOF
  \/ fst (protocol.ReadFrame
            (firstn 5 (protocol.frame_bytes protocol.CmdPing [Byte.x01; Byte.x02])))
     = Err ErrUnexpectedEOF.
Proof.
  apply (ReadFrame_truncated_frame_fails protocol.CmdPing [Byte.x01; Byte.x02] 5).
  - cbn. lia.
  - vm_compute. lia.
Defined.

(** X5. The checksum always fits the two bytes the frame has for it:
    [calcCRC] stays below 2^16 and reading back the two bytes written gives
    the same value. *)
Theorem calcCRC_fits_two_bytes (data : list byte) :
  0 <= protocol.calcCRC data < 65536
  /\ Uint16 (PutUint16 (protocol.calcCRC data)) = protocol.calcCRC data.
Proof.
  split; [apply calcCRC_range|]. apply Uint16_PutUint16, calcCRC_range.
Qed.

(** ** The serial loop *)



Lemma Handle_iterations_succ n s :
  serial.Handle_iterations (S n) s
  = serial.Handle_iterations n (serial.Handle_iteration s).
Proof. unfold serial.Handle_iterations. apply Nat.iter_succ_r. Qed.

(** X7. The loop resynchronises one byte at a time: a run of bytes none
    of which is the sync marker is dropped in as many passes, with no
    response written and the store untouched, so that the loop then
    stands at the first byte after the run. *)
Theorem serial_loop_skips_garbage
  (garbage rest out : list byte) (h : protocol.Handler) :
  Forall (fun b => b <> protocol.SyncByte) garbage ->
  serial.Handle_iterations (length garbage)
    (serial.mkSerial (garbage ++ rest) out h)
  = serial.mkSerial rest out h.
Proof.
  induction 1 as [|b garbage Hb Hg IH]; [reflexivity|].
  cbn [length app]. rewrite Handle_iterations_succ.
  unfold serial.Handle_iteration at 1. cbn [serial.input serial.output serial.handler].
  rewrite ReadFrame_bad_sync by exact Hb. exact IH.
Qed.

Lemma serial_loop_skips_garbage_witness :
  serial.Handle_iterations (length [Byte.x00; Byte.x55; Byte.xff])
    (serial.mkSerial ([Byte.x00; Byte.x55; Byte.xff] ++ [Byte.xaa]) [] sample.store)
  = serial.mkSerial [Byte.xaa] [] sample.store.
Proof.
  apply (serial_loop_skips_garbage [Byte.x00; Byte.x55; Byte.xff] [Byte.xaa] []
           sample.store).
  repeat constructor; discriminate.
Defined.

(** ** The dispatcher *)

(** X8. Payload-length validation comes before any storage call: a
    SetDeviceConfig frame whose payload is not 12 bytes, a GetProfile or
    DeleteProfile frame whose payload is not 1 byte and a SetProfile frame
    whose payload is not 287 bytes are answered [InvalidData] (0x03) and
    leave the manager exactly as it was. *)
Theorem Handle_wrong_payload_length (h : protocol.Handler) (payload : list byte) :
  (length payload <> 12%nat ->
   protocol.Handle (protocol.mkFrame protocol.CmdSetDeviceConfig payload) h
   = (protocol.mkResponse protocol.StatusInvalidData [], h))
  /\ (length payload <> 1%nat ->
      protocol.Handle (protocol.mkFrame protocol.CmdGetProfile payload) h
      = (protocol.mkResponse protocol.StatusInvalidData [], h)
      /\ protocol.Handle (protocol.mkFrame protocol.CmdDeleteProfile payload) h
         = (protocol.mkResponse protocol.StatusInvalidData [], h))
  /\ (length payload <> 287%nat ->
      protocol.Handle (protocol.mkFrame protocol.CmdSetProfile payload) h
      = (protocol.mkResponse protocol.StatusInvalidData [], h)).
Proof.
  split; [|split].
  - intros Hlen.
    change (protocol.Handle _ h) with (protocol.handleSetDeviceConfig payload h).
    unfold protocol.handleSetDeviceConfig.
    apply Nat.eqb_neq in Hlen. now rewrite Hlen.
  - intros Hlen. apply Nat.eqb_neq in Hlen. split.
    + change (protocol.Handle _ h) with (protocol.handleGetProfile payload h).
      unfold protocol.handleGetProfile. now rewrite Hlen.
    + change (protocol.Handle _ h) with (protocol.handleDeleteProfile payload h).
      unfold protocol.handleDeleteProfile. now rewrite Hlen.
  - intros Hlen.
    change (protocol.Handle _ h) with (protocol.handleSetProfile payload h).
    unfold protocol.handleSetProfile.
    apply Nat.eqb_neq in Hlen. now rewrite Hlen.
Qed.

Lemma Handle_wrong_payload_length_witness :
  protocol.Handle
    (protocol.mkFrame protocol.CmdSetDeviceConfig [Byte.x01; Byte.x02; Byte.x03])
    sample.store
  = (protocol.mkResponse protocol.StatusInvalidData [], sample.store).
Proof.
  apply (Handle_wrong_payload_length sample.store [Byte.x01; Byte.x02; Byte.x03]).
  cbn. lia.
Defined.

Lemma LoadProfile_absent slot p0 (m : Manager) :
  verdict (fs m) = None ->
  nodes (fs m) !! profilePath slot = None ->
  fst (LoadProfile slot p0 m) = (Some ErrProfileNotFound, p0).
Proof.
  intros Hv Hp. unfold LoadProfile. mstep.
  unfold Open at 1, enter. rewrite Hv. cbn [fst snd nodes].
  pose proof (profilePath_not_root slot) as Hroot.
  apply String.eqb_neq in Hroot. rewrite Hroot, Hp. reflexivity.
Qed.

(** X9. GetProfile of an empty slot, on a store where neither
    configuration directory has a regular file in its place (each is a
    directory or does not exist yet): unless the device refuses the [Open]
    call itself, [LoadProfile] turns the filesystem's "No directory entry"
    into [ErrProfileNotFound], leaving the caller's struct alone, and
    [Handle] answers [NotFound] (0x04) with no payload. *)
Theorem GetProfile_empty_slot_NotFound
  (h : protocol.Handler) (slot : byte) (p0 : config.Profile.t) :
  verdict (fs h) = None ->
  nodes (fs h) !! profilePath slot = None ->
  (forall d, nodes (fs h) !! configDir <> Some (File d)) ->
  (forall d, nodes (fs h) !! profilesDir <> Some (File d)) ->
  fst (LoadProfile slot p0 h) = (Some ErrProfileNotFound, p0)
  /\ fst (protocol.Handle (protocol.mkFrame protocol.CmdGetProfile [slot]) h)
     = protocol.mkResponse protocol.StatusNotFound [].
Proof.
  intros Hv Hp _ _. split; [now apply LoadProfile_absent|].
  change (protocol.Handle _ h) with (protocol.handleGetProfile [slot] h).
  unfold protocol.handleGetProfile. cbn [length Nat.eqb negb nth]. unfold bind.
  pose proof (LoadProfile_absent slot config.Profile.zero h Hv Hp) as Hl.
  destruct (LoadProfile slot config.Profile.zero h) as [r h'].
  cbn [fst] in Hl. subst r. reflexivity.
Qed.

Lemma GetProfile_empty_slot_NotFound_witness :
  fst (LoadProfile Byte.x63 config.Profile.zero sample.store)
  = (Some ErrProfileNotFound, config.Profile.zero)
  /\ fst (protocol.Handle (protocol.mkFrame protocol.CmdGetProfile [Byte.x63])
            sample.store)
     = protocol.mkResponse protocol.StatusNotFound [].
Proof.
  apply (GetProfile_empty_slot_NotFound sample.store Byte.x63 config.Profile.zero).
  - reflexivity.
  - reflexivity.
  - intros d. vm_compute. discriminate.
  - intros d. vm_compute. discriminate.
Defined.

Lemma Read_quiet p d n fs0 :
  oracle fs0 = [] -> nodes fs0 !! p = Some (File d) ->
  fst (Read (mkHandle p false) n fs0)
  = match firstn n d with
    | [] => Err EOF
    | got => Ok got
    end.
Proof.
  intros Hq Hp. unfold Read, enter, verdict. rewrite Hq.
  cbn [fst snd nodes h_path IsDir h_isdir]. rewrite Hp.
  now destruct (firstn n d).
Qed.

Lemma LoadProfile_quiet_any slot p0 (m : Manager) d :
  oracle (fs m) = [] ->
  nodes (fs m) !! profilePath slot = Some (File d) ->
  fst (LoadProfile slot p0 m)
  = match firstn 286 d with
    | [] => (Some EOF, p0)
    | got => if negb (length got =? 286)%nat then (Some ErrInvalidProfile, p0)
             else config.Profile.UnmarshalBinary p0 got
    end.
Proof.
  intros Hq Hp. unfold LoadProfile. mstep.
  rewrite (Open_quiet_file _ d) by (auto using profilePath_not_root). mstep.
  rewrite (Read_quiet _ d) by auto.
  destruct (firstn 286 d) as [|x got]; mstep; [reflexivity|].
  now destruct (negb _).
Qed.

(** X10. What [LoadProfile] makes of the file it finds, with no device
    fault.  An empty file gives [io.EOF], a file shorter than 286 bytes
    [ErrInvalidProfile]; the struct is untouched in both cases and
    GetProfile is answered [Error] (0x01).  A file of 286 bytes or more is
    decoded from its first 286 bytes, which GetProfile returns. *)
Theorem LoadProfile_file_sizes
  (h : protocol.Handler) (slot : byte) (p0 : config.Profile.t) (d : list byte) :
  oracle (fs h) = [] ->
  nodes (fs h) !! profilePath slot = Some (File d) ->
  let get := fst (protocol.Handle (protocol.mkFrame protocol.CmdGetProfile [slot]) h) in
  (d = [] ->
   fst (LoadProfile slot p0 h) = (Some EOF, p0)
   /\ get = protocol.mkResponse protocol.StatusError [])
  /\ ((0 < length d < 286)%nat ->
      fst (LoadProfile slot p0 h) = (Some ErrInvalidProfile, p0)
      /\ get = protocol.mkResponse protocol.StatusError [])
  /\ ((286 <= length d)%nat ->
      fst (LoadProfile slot p0 h) = config.Profile.UnmarshalBinary p0 (firstn 286 d)
      /\ get = protocol.mkResponse protocol.StatusOK (firstn 286 d)).
Proof.
  intros Hq Hp get.
  assert (Hget : get
    = match fst (LoadProfile slot config.Profile.zero h) with
      | (Some err, _) =>
          if bool_decide (err = ErrProfileNotFound)
          then protocol.status protocol.StatusNotFound
          else protocol.status protocol.StatusError
      | (None, profile) =>
          protocol.mkResponse protocol.StatusOK
            (fst (config.Profile.MarshalBinary profile))
      end).
  { subst get.
    change (protocol.Handle _ h) with (protocol.handleGetProfile [slot] h).
    unfold protocol.handleGetProfile. cbn [length Nat.eqb negb nth]. unfold bind.
    destruct (LoadProfile slot config.Profile.zero h) as [[[e|] p] h']; cbn [fst].
    - now destruct (bool_decide _).
    - reflexivity. }
  rewrite Hget, !(LoadProfile_quiet_any slot _ h d Hq Hp).
  split; [|split].
  - intros ->. cbn [firstn]. auto.
  - intros Hlen.
    assert (Hf : firstn 286 d = d) by (apply firstn_all2; lia).
    rewrite Hf. destruct d as [|x d]; [cbn in Hlen; lia|]. cbv beta iota zeta.
    assert (Hne : (length (x :: d) =? 286)%nat = false) by (apply Nat.eqb_neq; lia).
    rewrite Hne. cbn [negb]. auto.
  - intros Hlen.
    assert (Hl : length (firstn 286 d) = 286%nat) by (rewrite length_take; lia).
    destruct (firstn 286 d) as [|x got] eqn:Hf; [discriminate|]. cbv beta iota zeta.
    rewrite Hl. cbn [Nat.eqb negb]. split; [reflexivity|].
    pose proof (Profile_decode_encode config.Profile.zero (x :: got) Hl) as Hrt.
    unfold config.Profile.UnmarshalBinary in *. rewrite Hl in *.
    cbn [Nat.ltb Nat.leb snd] in *. now rewrite Hrt.
Qed.

Lemma LoadProfile_file_sizes_witness :
  let h := snd (protocol.Handle
                  (protocol.mkFrame protocol.CmdSetProfile
                     (Byte.x05 :: sample.profile_bytes 1)) sample.store) in
  fst (LoadProfile Byte.x05 config.Profile.zero h)
  = config.Profile.UnmarshalBinary config.Profile.zero
      (firstn 286 (sample.profile_bytes 1)).
Proof.
  intros h.
  apply (LoadProfile_file_sizes h Byte.x05 config.Profile.zero (sample.profile_bytes 1)).
  - vm_compute. reflexivity.
  - vm_compute. reflexivity.
  - vm_compute. lia.
Defined.

(** X11. Delete, then get: with no device fault, DeleteProfile of a slot
    that holds a profile is answered OK, after which the slot is not
    occupied and GetProfile of it is answered [NotFound]. *)
Theorem DeleteProfile_then_GetProfile
  (h : protocol.Handler) (slot : byte) (d : list byte) :
  oracle (fs h) = [] ->
  nodes (fs h) !! profilePath slot = Some (File d) ->
  let del := protocol.Handle (protocol.mkFrame protocol.CmdDeleteProfile [slot]) h in
  fst del = protocol.mkResponse protocol.StatusOK []
  /\ occupied (snd del) slot = false
  /\ fst (protocol.Handle (protocol.mkFrame protocol.CmdGetProfile [slot]) (snd del))
     = protocol.mkResponse protocol.StatusNotFound [].
Proof.
  intros Hq Hp del.
  assert (Hdel : del
    = (protocol.status protocol.StatusOK,
       mkManager (set_nodes (after_call (CallRemove (profilePath slot)) (fs h))
                    (delete (profilePath slot) (nodes (fs h))))
         (blockDev h) (mounted h))).
  { subst del.
    change (protocol.Handle _ h) with (protocol.handleDeleteProfile [slot] h).
    unfold protocol.handleDeleteProfile, DeleteProfile.
    cbn [length Nat.eqb negb nth]. mstep.
    rewrite Remove_quiet by exact Hq. now rewrite Hp. }
  rewrite Hdel. cbn [fst snd]. split; [reflexivity|].
  assert (Habs : nodes (fs (mkManager
                   (set_nodes (after_call (CallRemove (profilePath slot)) (fs h))
                      (delete (profilePath slot) (nodes (fs h))))
                   (blockDev h) (mounted h))) !! profilePath slot = None).
  { cbn [fs nodes set_nodes]. apply lookup_delete_eq. }
  split.
  - unfold occupied. now rewrite Habs.
  - change (protocol.Handle ?f ?m) with (protocol.handleGetProfile [slot] m).
    unfold protocol.handleGetProfile. cbn [length Nat.eqb negb nth]. unfold bind.
    match goal with
    | |- context [LoadProfile slot config.Profile.zero ?m] =>
        pose proof (LoadProfile_absent slot config.Profile.zero m eq_refl Habs) as Hl;
        destruct (LoadProfile slot config.Profile.zero m) as [r h']
    end.
    cbn [fst] in Hl. subst r. reflexivity.
Qed.

Lemma DeleteProfile_then_GetProfile_witness :
  let h := snd (protocol.Handle
                  (protocol.mkFrame protocol.CmdSetProfile
                     (Byte.x07 :: sample.profile_bytes 1)) sample.store) in
  let del := protocol.Handle (protocol.mkFrame protocol.CmdDeleteProfile [Byte.x07]) h in
  fst del = protocol.mkResponse protocol.StatusOK []
  /\ occupied (snd del) Byte.x07 = false
  /\ fst (protocol.Handle (protocol.mkFrame protocol.CmdGetProfile [Byte.x07]) (snd del))
     = protocol.mkResponse protocol.StatusNotFound [].
Proof.
  intros h.
  apply (DeleteProfile_then_GetProfile h Byte.x07 (sample.profile_bytes 1));
    vm_compute; reflexivity.
Defined.

(** ** The storage manager: what a save or a delete leaves alone *)

Lemma ensureDirs_other (m : Manager) k :
  k <> configDir -> k <> profilesDir ->
  nodes (fs (snd (ensureDirs m))) !! k = nodes (fs m) !! k.
Proof.
  intros Hc Hp. unfold ensureDirs. mstep.
  destruct (_ && _); mstep; [now apply Mkdir_other|].
  destruct (_ && _); mstep; rewrite !Mkdir_other by auto; reflexivity.
Qed.

Lemma atomicWrite_other filepath data (m : Manager) k :
  k <> filepath -> k <> (filepath ++ tempSuffix)%string ->
  nodes (fs (snd (atomicWrite filepath data m))) !! k = nodes (fs m) !! k.
Proof.
  intros Hf Ht. unfold atomicWrite. mstep.
  set (temp := (filepath ++ tempSuffix)%string) in *.
  assert (Hw : forall f0 st, fst (OpenFile temp st) = Ok f0 ->
               forall d st', nodes (snd (Write f0 d st')) !! k = nodes st' !! k).
  { intros f0 st Hf0 d st'. apply OpenFile_handle in Hf0. subst f0.
    now apply Write_other. }
  destruct (fst (OpenFile temp _)) as [f|e] eqn:E1; mstep.
  2:{ now rewrite OpenFile_other, Remove_other. }
  destruct (fst (Write _ data _)) as [n|e]; mstep.
  2:{ rewrite Remove_other, Close_nodes, (Hw f _ E1), OpenFile_other, Remove_other;
      auto. }
  destruct (fst (Sync _ _)) as [e|]; mstep.
  { rewrite Remove_other, Close_nodes, Sync_nodes, (Hw f _ E1), OpenFile_other,
      Remove_other; auto. }
  destruct (fst (Close _ _)) as [e|]; mstep.
  { rewrite Remove_other, Close_nodes, Sync_nodes, (Hw f _ E1), OpenFile_other,
      Remove_other; auto. }
  destruct (fst (Rename _ _ _)) as [e|]; mstep.
  - rewrite Remove_other, Rename_other, Remove_other, Close_nodes, Sync_nodes,
      (Hw f _ E1), OpenFile_other, Remove_other; auto.
  - rewrite Rename_other, Remove_other, Close_nodes, Sync_nodes,
      (Hw f _ E1), OpenFile_other, Remove_other; auto.
Qed.

Lemma profilePath_inj s s' : profilePath s = profilePath s' -> s = s'.
Proof.
  intros H. pose proof (key_slot_profilePath s) as Hs.
  rewrite H, key_slot_profilePath in Hs. congruence.
Qed.

Lemma profilePath_not_temp s s' : profilePath s' <> (profilePath s ++ tempSuffix)%string.
Proof.
  intros H. pose proof (key_slot_profilePath s') as Hs.
  rewrite H, key_slot_temp in Hs. discriminate.
Qed.

Lemma deviceFile_not_profile_file : ~ profile_file deviceFile.
Proof.
  intros [[s H]|[s H]]; revert H; destruct s; discriminate.
Qed.

Lemma SaveProfile_other slot p (m : Manager) k :
  k <> configDir -> k <> profilesDir ->
  k <> profilePath slot -> k <> (profilePath slot ++ tempSuffix)%string ->
  nodes (fs (snd (SaveProfile slot p m))) !! k = nodes (fs m) !! k.
Proof.
  intros Hc Hp Hf Ht. unfold SaveProfile. mstep.
  pose proof (ensureDirs_other m k Hc Hp) as He.
  destruct (ensureDirs m) as [[e|] m1]; cbn [fst snd] in *; [exact He|].
  unfold config.Profile.MarshalBinary. cbv iota. mstep.
  match goal with
  | |- context [atomicWrite ?fp ?d m1] =>
      pose proof (atomicWrite_other fp d m1 k Hf Ht) as Ha;
      destruct (atomicWrite fp d m1) as [r m2]
  end.
  cbn [fst snd] in *. now rewrite Ha.
Qed.

(** X12. Slots are independent of one another and of the device
    configuration: whatever [SaveProfile] or [DeleteProfile] of one slot
    does, and whether it succeeds or fails, the file of every other slot
    and the device-config file are left as they were. *)
Theorem slot_operations_leave_other_records
  (m : Manager) (slot other : byte) (p : config.Profile.t) :
  other <> slot ->
  let saved := snd (SaveProfile slot p m) in
  let deleted := snd (DeleteProfile slot m) in
  nodes (fs saved) !! profilePath other = nodes (fs m) !! profilePath other
  /\ nodes (fs saved) !! deviceFile = nodes (fs m) !! deviceFile
  /\ nodes (fs deleted) !! profilePath other = nodes (fs m) !! profilePath other
  /\ nodes (fs deleted) !! deviceFile = nodes (fs m) !! deviceFile.
Proof.
  intros Hne saved deleted.
  assert (Ho : profile_file (profilePath other)) by (left; eauto).
  destruct (profile_file_not_dir _ Ho) as [Hod Hoc].
  assert (Hd1 : deviceFile <> profilePath slot).
  { intros H. apply deviceFile_not_profile_file. left. eauto. }
  assert (Hd2 : deviceFile <> (profilePath slot ++ tempSuffix)%string).
  { intros H. apply deviceFile_not_profile_file. right. eauto. }
  assert (Hp1 : profilePath other <> profilePath slot).
  { intros H. now apply profilePath_inj in H. }
  repeat split.
  - apply SaveProfile_other; auto using profilePath_not_temp.
  - apply SaveProfile_other; auto; discriminate.
  - subst deleted. unfold DeleteProfile. rewrite call_fs_eq. cbn [snd fs].
    now apply Remove_other.
  - subst deleted. unfold DeleteProfile. rewrite call_fs_eq. cbn [snd fs].
    now apply Remove_other.
Qed.

Lemma slot_operations_leave_other_records_witness :
  let m := after_ops [OpSave Byte.x05 config.Profile.zero] sample.store in
  nodes (fs (snd (SaveProfile Byte.x07 config.Profile.zero m))) !! profilePath Byte.x05
  = nodes (fs m) !! profilePath Byte.x05.
Proof.
  intros m.
  apply (slot_operations_leave_other_records m Byte.x07 Byte.x05 config.Profile.zero).
  discriminate.
Defined.

(** ** The storage manager: runs without device faults *)

Lemma calm_verdict n fs0 : calm (S n) fs0 -> verdict fs0 = None.
Proof.
  unfold calm, verdict. destruct (oracle fs0) as [|v o]; [reflexivity|].
  cbn [firstn]. intros H. now inversion H.
Qed.

Lemma calm_advance n fs0 c ns : calm (S n) fs0 -> calm n (advance c ns fs0).
Proof.
  unfold calm, advance. cbn [oracle]. destruct (oracle fs0) as [|v o].
  - intros _. cbn [tl]. destruct n; constructor.
  - cbn [firstn tl]. intros H. now inversion H.
Qed.

Lemma quiet_calm n fs0 : oracle fs0 = [] -> calm n fs0.
Proof. unfold calm. intros ->. destruct n; constructor. Qed.

Lemma is_dir_insert ns k v d : k <> d -> is_dir (<[k := v]> ns) d = is_dir ns d.
Proof. intros H. unfold is_dir. now rewrite lookup_insert_ne. Qed.

Lemma is_dir_delete ns k d : k <> d -> is_dir (delete k ns) d = is_dir ns d.
Proof. intros H. unfold is_dir. now rewrite lookup_delete_ne. Qed.

Lemma Remove_calm p fs0 :
  verdict fs0 = None -> nodes fs0 !! p <> Some Dir ->
  Remove p fs0
  = (match nodes fs0 !! p with
     | None => Some (LfsError errNoEntry)
     | Some _ => None
     end,
     advance (CallRemove p) (delete p (nodes fs0)) fs0).
Proof.
  intros Hv Hd. unfold Remove, enter, advance, set_nodes. rewrite Hv.
  cbn [fst snd nodes oracle trace rename_replaces].
  destruct (nodes fs0 !! p) as [[d|]|] eqn:Hp; try congruence.
  now rewrite delete_id.
Qed.

Lemma OpenFile_calm p fs0 :
  verdict fs0 = None -> is_dir (nodes fs0) (path_Dir p) = true ->
  nodes fs0 !! p <> Some Dir ->
  OpenFile p fs0
  = (Ok (mkHandle p false), advance (CallOpenFile p) (<[p := File []]> (nodes fs0)) fs0).
Proof.
  intros Hv Hdir Hd. unfold OpenFile, enter, advance, set_nodes. rewrite Hv.
  cbn [fst snd nodes oracle trace rename_replaces]. rewrite Hdir. cbn [negb].
  destruct (nodes fs0 !! p) as [[d|]|]; congruence.
Qed.

Lemma Write_calm p old d fs0 :
  verdict fs0 = None -> nodes fs0 !! p = Some (File old) ->
  Write (mkHandle p false) d fs0
  = (Ok (length d), advance (CallWrite p) (<[p := File (old ++ d)]> (nodes fs0)) fs0).
Proof.
  intros Hv Hp. unfold Write, enter, advance, set_nodes. rewrite Hv.
  cbn [fst snd nodes oracle trace rename_replaces h_path]. now rewrite Hp.
Qed.

Lemma Sync_calm f fs0 :
  verdict fs0 = None -> Sync f fs0 = (None, advance (CallSync (h_path f)) (nodes fs0) fs0).
Proof. intros Hv. unfold Sync, enter, advance. now rewrite Hv. Qed.

Lemma Close_calm f fs0 :
  verdict fs0 = None -> Close f fs0 = (None, advance (CallClose (h_path f)) (nodes fs0) fs0).
Proof. intros Hv. unfold Close, enter, advance. now rewrite Hv. Qed.

Lemma Rename_calm a b d fs0 :
  verdict fs0 = None -> nodes fs0 !! a = Some (File d) ->
  is_dir (nodes fs0) (path_Dir b) = true -> nodes fs0 !! b = None ->
  Rename a b fs0
  = (None, advance (CallRename a b) (<[b := File d]> (delete a (nodes fs0))) fs0).
Proof.
  intros Hv Ha Hdir Hb. unfold Rename, enter, advance, set_nodes. rewrite Hv.
  cbn [fst snd nodes oracle trace rename_replaces]. rewrite Ha, Hdir, Hb. reflexivity.
Qed.

Lemma Mkdir_calm p fs0 :
  verdict fs0 = None -> is_dir (nodes fs0) (path_Dir p) = true ->
  Mkdir p fs0
  = match nodes fs0 !! p with
    | Some _ => (Some (LfsError errExists), advance (CallMkdir p) (nodes fs0) fs0)
    | None => (None, advance (CallMkdir p) (<[p := Dir]> (nodes fs0)) fs0)
    end.
Proof.
  intros Hv Hdir. unfold Mkdir, enter, advance, set_nodes. rewrite Hv.
  cbn [fst snd nodes oracle trace rename_replaces]. rewrite Hdir.
  now destruct (nodes fs0 !! p).
Qed.

(** The calls of [atomicWrite] up to the rename, none of them faulted:
    the filesystem the rename starts on. *)
Lemma atomicWrite_before_rename filepath data (m : Manager) dirp :
  calm 6 (fs m) ->
  path_Dir filepath = dirp -> path_Dir (filepath ++ tempSuffix)%string = dirp ->
  dirp <> filepath -> dirp <> (filepath ++ tempSuffix)%string ->
  is_dir (nodes (fs m)) dirp = true ->
  nodes (fs m) !! filepath <> Some Dir ->
  nodes (fs m) !! (filepath ++ tempSuffix)%string <> Some Dir ->
  exists fs6,
    atomicWrite filepath data m
    = (let '(rn, fs7) := Rename (filepath ++ tempSuffix)%string filepath fs6 in
       match rn with
       | Some err =>
           (Some err,
            mkManager (snd (Remove (filepath ++ tempSuffix)%string fs7))
              (blockDev m) (mounted m))
       | None => (None, mkManager fs7 (blockDev m) (mounted m))
       end)
    /\ nodes fs6 !! (filepath ++ tempSuffix)%string = Some (File data)
    /\ nodes fs6 !! filepath = None
    /\ is_dir (nodes fs6) dirp = true
    /\ oracle fs6 = skipn 6 (oracle (fs m))
    /\ rename_replaces fs6 = rename_replaces (fs m).
Proof.
  intros Hcalm Hpd Htd Hdf Hdt Hdir Hfp Htp.
  set (temp := (filepath ++ tempSuffix)%string) in *.
  assert (Hne : filepath <> temp).
  { intros H. symmetry in H. now apply temp_path_differs in H. }
  unfold atomicWrite. fold temp. mstep.
  (* Remove temp *)
  rewrite (Remove_calm temp) by (eauto using calm_verdict).
  cbn [fst snd]. set (fs1 := advance (CallRemove temp) _ (fs m)).
  assert (C1 : calm 5 fs1) by (apply calm_advance; exact Hcalm).
  (* OpenFile temp *)
  rewrite (OpenFile_calm temp fs1).
  2:{ eauto using calm_verdict. }
  2:{ rewrite Htd. subst fs1. cbn [nodes advance]. now rewrite is_dir_delete. }
  2:{ subst fs1. cbn [nodes advance]. rewrite lookup_delete_eq. discriminate. }
  mstep. set (fs2 := advance (CallOpenFile temp) _ fs1).
  assert (C2 : calm 4 fs2) by (apply calm_advance; exact C1).
  (* Write *)
  rewrite (Write_calm temp [] data fs2).
  2:{ eauto using calm_verdict. }
  2:{ subst fs2. cbn [nodes advance]. apply lookup_insert_eq. }
  mstep. cbn [app]. set (fs3 := advance (CallWrite temp) _ fs2).
  assert (C3 : calm 3 fs3) by (apply calm_advance; exact C2).
  (* Sync, Close *)
  rewrite (Sync_calm _ fs3) by (eauto using calm_verdict).
  mstep. cbn [h_path]. set (fs4 := advance (CallSync temp) _ fs3).
  assert (C4 : calm 2 fs4) by (apply calm_advance; exact C3).
  rewrite (Close_calm _ fs4) by (eauto using calm_verdict).
  mstep. cbn [h_path]. set (fs5 := advance (CallClose temp) _ fs4).
  assert (C5 : calm 1 fs5) by (apply calm_advance; exact C4).
  (* Remove target *)
  assert (N5 : nodes fs5 = <[temp := File data]> (<[temp := File []]> (delete temp (nodes (fs m)))))
    by reflexivity.
  rewrite (Remove_calm filepath fs5).
  2:{ eauto using calm_verdict. }
  2:{ rewrite N5, !lookup_insert_ne, lookup_delete_ne by auto. exact Hfp. }
  cbn [fst snd]. set (fs6 := advance (CallRemove filepath) _ fs5).
  exists fs6. split.
  { destruct (Rename temp filepath fs6) as [[e|] fs7]; mstep; reflexivity. }
  assert (N6 : nodes fs6 = delete filepath (nodes fs5)) by reflexivity.
  split; [|split; [|split; [|split]]].
  - rewrite N6, lookup_delete_ne, N5 by auto. apply lookup_insert_eq.
  - rewrite N6. apply lookup_delete_eq.
  - rewrite N6, is_dir_delete, N5, !is_dir_insert, is_dir_delete by auto. exact Hdir.
  - subst fs6 fs5 fs4 fs3 fs2 fs1. cbn [oracle advance].
    destruct (oracle (fs m)) as [|? [|? [|? [|? [|? [|? o]]]]]]; reflexivity.
  - reflexivity.
Qed.

Lemma verdict_nth fs0 : verdict fs0 = nth 0 (oracle fs0) None.
Proof. unfold verdict. now destruct (oracle fs0). Qed.

Lemma nth_skipn_oracle k i (o : list (option fault)) :
  nth i (skipn k o) None = nth (k + i) o None.
Proof.
  revert o. induction k as [|k IH]; intros o; [reflexivity|].
  destruct o as [|v o]; [now destruct i|]. cbn [skipn Nat.add nth]. apply IH.
Qed.

Lemma nth_tl_oracle i (o : list (option fault)) :
  nth i (tl o) None = nth (S i) o None.
Proof. destruct o; [now destruct i | reflexivity]. Qed.

Lemma Forall_firstn_nth n (o : list (option fault)) :
  Forall (fun v => v = None) (firstn n o)
  <-> (forall i, (i < n)%nat -> nth i o None = None).
Proof.
  revert n. induction o as [|v o IH]; intros n.
  - rewrite firstn_nil. split; [intros _ i _; now destruct i | constructor].
  - destruct n as [|n]; cbn [firstn].
    + split; [intros _ i Hi; lia | constructor].
    + split.
      * intros H i Hi. inversion H; subst.
        destruct i as [|i]; [reflexivity|]. cbn [nth]. apply (proj1 (IH n)); [assumption | lia].
      * intros H. constructor; [exact (H 0%nat ltac:(lia))|].
        apply IH. intros i Hi. apply (H (S i)). lia.
Qed.

Lemma calm_nth n fs0 i : calm n fs0 -> (i < n)%nat -> nth i (oracle fs0) None = None.
Proof. intros H. exact (proj1 (Forall_firstn_nth n (oracle fs0)) H i). Qed.

Lemma calm_le n k fs0 : calm n fs0 -> (k <= n)%nat -> calm k fs0.
Proof.
  intros H Hk. apply Forall_firstn_nth. intros i Hi. apply (calm_nth n); [assumption | lia].
Qed.

Lemma calm_skipn n k fs0 fs1 :
  calm (k + n) fs0 -> oracle fs1 = skipn k (oracle fs0) -> calm n fs1.
Proof.
  intros H Ho. apply Forall_firstn_nth. intros i Hi.
  rewrite Ho, nth_skipn_oracle. apply (calm_nth (k + n)); [assumption | lia].
Qed.

(** One [Mkdir] of [ensureDirs]: unfaulted, with the parent present and
    nothing but a directory at the path, it leaves a directory there and
    [ensureDirs] goes on, whether the directory was there before or not. *)
Lemma Mkdir_ensures p fs0 :
  verdict fs0 = None -> is_dir (nodes fs0) (path_Dir p) = true ->
  (forall n, nodes fs0 !! p = Some n -> n = Dir) ->
  exists err fs1,
    Mkdir p fs0 = (err, fs1)
    /\ (bool_decide (err <> None) && negb (isExist err)) = false
    /\ nodes fs1 !! p = Some Dir
    /\ (forall k, k <> p -> nodes fs1 !! k = nodes fs0 !! k)
    /\ oracle fs1 = tl (oracle fs0)
    /\ (nodes fs1 = nodes fs0 \/ nodes fs1 = <[p := Dir]> (nodes fs0)).
Proof.
  intros Hv Hdir Hn. rewrite Mkdir_calm by assumption.
  destruct (nodes fs0 !! p) as [n|] eqn:E.
  - do 2 eexists. split; [reflexivity|]. cbn [nodes advance oracle].
    split; [reflexivity|]. split; [now rewrite E, (Hn n)|]. auto.
  - do 2 eexists. split; [reflexivity|]. cbn [nodes advance oracle].
    split; [reflexivity|]. split; [apply lookup_insert_eq|].
    split; [intros k Hk; now rewrite lookup_insert_ne by auto|]. auto.
Qed.

(** [ensureDirs] when neither [Mkdir] is faulted and neither directory
    has a regular file in its place. *)
Lemma ensureDirs_calm (m : Manager) :
  calm 2 (fs m) ->
  (forall d, nodes (fs m) !! configDir <> Some (File d)) ->
  (forall d, nodes (fs m) !! profilesDir <> Some (File d)) ->
  exists fs2,
    ensureDirs m = (None, mkManager fs2 (blockDev m) (mounted m))
    /\ nodes fs2 !! configDir = Some Dir
    /\ nodes fs2 !! profilesDir = Some Dir
    /\ (forall k, k <> configDir -> k <> profilesDir -> nodes fs2 !! k = nodes (fs m) !! k)
    /\ oracle fs2 = skipn 2 (oracle (fs m)).
Proof.
  intros Hcalm Hc Hp.
  destruct (Mkdir_ensures configDir (fs m)) as (e1 & fs1 & M1 & G1 & Hc1 & O1 & T1 & _).
  { rewrite verdict_nth. apply (calm_nth 2); [assumption | lia]. }
  { reflexivity. }
  { intros [d|] Hn; [now apply Hc in Hn | reflexivity]. }
  destruct (Mkdir_ensures profilesDir fs1) as (e2 & fs2 & M2 & G2 & Hp2 & O2 & T2 & _).
  { rewrite verdict_nth, T1, nth_tl_oracle.
    apply (calm_nth 2); [assumption | lia]. }
  { unfold is_dir. change (path_Dir profilesDir) with configDir. rewrite Hc1.
    apply orb_true_r. }
  { intros [d|] Hn; [|reflexivity]. rewrite O1 in Hn by discriminate.
    now apply Hp in Hn. }
  exists fs2. unfold ensureDirs. mstep. rewrite M1. cbn [fst snd]. rewrite G1.
  mstep. rewrite M2. cbn [fst snd]. rewrite G2. mstep.
  split; [reflexivity|]. split; [|split; [exact Hp2|split]].
  - rewrite O2 by discriminate. exact Hc1.
  - intros k Hkc Hkp. rewrite O2, O1 by auto. reflexivity.
  - rewrite T2, T1. now destruct (oracle (fs m)) as [|? [|? o]].
Qed.

(** X13. A save always goes through when the device does not fault:
    on any tree (it may hold a device configuration, other profiles,
    temporary files) where neither configuration directory has a regular
    file in its place and no directory stands at the slot's file or at its
    temporary file, with the next nine filesystem calls unfaulted,
    [SaveProfile] returns no error, the slot's file holds the encoded
    profile with the current version, no temporary file is left and the
    profiles directory exists. *)
Theorem SaveProfile_succeeds_without_faults
  (m : Manager) (slot : byte) (p : config.Profile.t) :
  calm 9 (fs m) ->
  (forall d, nodes (fs m) !! configDir <> Some (File d)) ->
  (forall d, nodes (fs m) !! profilesDir <> Some (File d)) ->
  nodes (fs m) !! profilePath slot <> Some Dir ->
  nodes (fs m) !! (profilePath slot ++ tempSuffix)%string <> Some Dir ->
  exists m',
    SaveProfile slot p m
    = ((None, config.Profile.set_Version p config.CurrentVersion), m')
    /\ nodes (fs m') !! profilePath slot
       = Some (File (fst (config.Profile.MarshalBinary
                            (config.Profile.set_Version p config.CurrentVersion))))
    /\ nodes (fs m') !! (profilePath slot ++ tempSuffix)%string = None
    /\ nodes (fs m') !! profilesDir = Some Dir.
Proof.
  intros Hcalm Hcfg Hprof Hfp Htp.
  set (temp := (profilePath slot ++ tempSuffix)%string) in *.
  assert (Hf : profile_file (profilePath slot)) by (left; eauto).
  assert (Ht : profile_file temp) by (right; eauto).
  destruct (profile_file_not_dir _ Hf) as [Hfd Hfc].
  destruct (profile_file_not_dir _ Ht) as [Htd Htc].
  assert (C2 : calm 2 (fs m)).
  { apply (calm_le 9); [exact Hcalm | lia]. }
  destruct (ensureDirs_calm m C2 Hcfg Hprof) as (fs2 & He & Hc & Hp & Hother & Ho).
  unfold SaveProfile. mstep. rewrite He.
  unfold config.Profile.MarshalBinary at 1. cbv iota. mstep.
  set (data := _ ++ _).
  set (m1 := mkManager fs2 (blockDev m) (mounted m)).
  assert (C7 : calm 7 (fs m1)) by (apply (calm_skipn 7 2 (fs m)); [exact Hcalm | exact Ho]).
  assert (C6 : calm 6 (fs m1)).
  { apply (calm_le 7); [exact C7 | lia]. }
  destruct (atomicWrite_before_rename (profilePath slot) data m1 profilesDir)
    as (fs6 & Haw & Ntemp & Ntarget & Hdir & Ho6 & _); auto.
  { apply path_Dir_profilePath. }
  { apply path_Dir_temp. }
  { unfold is_dir. cbn [fs m1]. rewrite Hp. apply orb_true_r. }
  { cbn [fs m1]. rewrite Hother by auto. exact Hfp. }
  { cbn [fs m1]. rewrite Hother by auto. exact Htp. }
  rewrite Haw.
  rewrite (Rename_calm _ _ data fs6); auto.
  2:{ rewrite verdict_nth, Ho6, nth_skipn_oracle. apply (calm_nth 7); [exact C7 | lia]. }
  2:{ now rewrite path_Dir_profilePath. }
  eexists. split; [reflexivity|]. cbn [fs nodes advance].
  split; [apply lookup_insert_eq|]. split.
  - rewrite lookup_insert_ne by (intros H; symmetry in H; now apply temp_path_differs in H).
    apply lookup_delete_eq.
  - rewrite lookup_insert_ne, lookup_delete_ne by auto.
    apply is_dir_lookup; [discriminate | exact Hdir].
Qed.

Lemma SaveProfile_succeeds_without_faults_witness :
  let m := mkManager
             (mkLFS (<[deviceFile := File sample.device_bytes]>
                       (<[profilePath Byte.x05 := File []]>
                          (nodes (fs (sample.store_with_dirs [])))))
                [] [] false)
             262144 true in
  exists m',
    SaveProfile Byte.x05 config.Profile.zero m
    = ((None, config.Profile.set_Version config.Profile.zero config.CurrentVersion), m')
    /\ nodes (fs m') !! profilePath Byte.x05
       = Some (File (fst (config.Profile.MarshalBinary
                            (config.Profile.set_Version config.Profile.zero
                               config.CurrentVersion))))
    /\ nodes (fs m') !! (profilePath Byte.x05 ++ tempSuffix)%string = None
    /\ nodes (fs m') !! profilesDir = Some Dir.
Proof.
  intros m.
  apply (SaveProfile_succeeds_without_faults m Byte.x05 config.Profile.zero).
  - apply quiet_calm. reflexivity.
  - intros d. vm_compute. discriminate.
  - intros d. vm_compute. discriminate.
  - vm_compute. discriminate.
  - vm_compute. discriminate.
Defined.

(** X14. The window between removing the old file and renaming the new
    one: if every call up to the rename goes through and the rename itself
    is refused, [atomicWrite] returns the rename's error after having
    removed the previous file of the slot, which is therefore lost; the
    temporary file is removed as well when that last [Remove] is not
    refused. *)
Theorem atomicWrite_rename_failure_loses_old_file
  (m : Manager) (slot : byte) (data old : list byte) (f : fault) :
  calm 6 (fs m) ->
  nth 6 (oracle (fs m)) None = Some f ->
  nth 7 (oracle (fs m)) None = None ->
  nodes (fs m) !! profilesDir = Some Dir ->
  nodes (fs m) !! profilePath slot = Some (File old) ->
  nodes (fs m) !! (profilePath slot ++ tempSuffix)%string <> Some Dir ->
  exists m',
    atomicWrite (profilePath slot) data m = (Some (LfsError (fault_errno f)), m')
    /\ nodes (fs m') !! profilePath slot = None
    /\ nodes (fs m') !! (profilePath slot ++ tempSuffix)%string = None.
Proof.
  intros Hcalm H6 H7 Hp Hold Htp.
  set (temp := (profilePath slot ++ tempSuffix)%string) in *.
  assert (Hf : profile_file (profilePath slot)) by (left; eauto).
  assert (Ht : profile_file temp) by (right; eauto).
  destruct (profile_file_not_dir _ Hf) as [Hfd Hfc].
  destruct (profile_file_not_dir _ Ht) as [Htd Htc].
  assert (Hne : profilePath slot <> temp).
  { intros H. symmetry in H. now apply temp_path_differs in H. }
  destruct (atomicWrite_before_rename (profilePath slot) data m profilesDir)
    as (fs6 & Haw & Ntemp & Ntarget & Hdir & Ho6 & _); auto.
  { apply path_Dir_profilePath. }
  { apply path_Dir_temp. }
  { unfold is_dir. rewrite Hp. apply orb_true_r. }
  { rewrite Hold. discriminate. }
  rewrite Haw. subst temp.
  assert (Hv6 : verdict fs6 = Some f).
  { rewrite verdict_nth, Ho6, nth_skipn_oracle. exact H6. }
  assert (Hrn : Rename (profilePath slot ++ tempSuffix) (profilePath slot) fs6
                = (Some (LfsError (fault_errno f)),
                   mkLFS (nodes fs6) (tl (oracle fs6))
                     ((CallRename (profilePath slot ++ tempSuffix) (profilePath slot), Some f)
                        :: trace fs6)
                     (rename_replaces fs6))).
  { unfold Rename, enter. now rewrite Hv6. }
  rewrite Hrn. eexists. split; [reflexivity|]. cbn [fs].
  set (fs7 := mkLFS _ _ _ _).
  assert (Hv7 : verdict fs7 = None).
  { rewrite verdict_nth. subst fs7. cbn [oracle]. rewrite Ho6.
    rewrite nth_tl_oracle, nth_skipn_oracle. exact H7. }
  rewrite Remove_calm; auto.
  2:{ subst fs7. cbn [nodes]. rewrite Ntemp. discriminate. }
  cbn [snd nodes advance]. subst fs7. cbn [nodes]. split.
  - rewrite lookup_delete_ne by auto. exact Ntarget.
  - apply lookup_delete_eq.
Qed.

Lemma atomicWrite_rename_failure_loses_old_file_witness :
  let m0 := after_ops [OpSave Byte.x05 config.Profile.zero] sample.store in
  let m := mkManager
             (mkLFS (nodes (fs m0))
                [None; None; None; None; None; None; Some (mkFault errIO 0)] []
                false)
             262144 true in
  exists m',
    atomicWrite (profilePath Byte.x05) (sample.profile_bytes 1) m
    = (Some (LfsError (fault_errno (mkFault errIO 0))), m')
    /\ nodes (fs m') !! profilePath Byte.x05 = None
    /\ nodes (fs m') !! (profilePath Byte.x05 ++ tempSuffix)%string = None.
Proof.
  intros m0 m.
  apply (atomicWrite_rename_failure_loses_old_file m Byte.x05 (sample.profile_bytes 1)
           (sample.profile_bytes 1) (mkFault errIO 0)).
  - repeat constructor.
  - reflexivity.
  - reflexivity.
  - vm_compute. reflexivity.
  - vm_compute. reflexivity.
  - vm_compute. discriminate.
Defined.

(** ** Listing, statistics and the wipe *)

Lemma Open_calm p fs0 :
  verdict fs0 = None -> p <> "/"%string ->
  Open p fs0
  = (match nodes fs0 !! p with
     | None => Err (LfsError errNoEntry)
     | Some Dir => Ok (mkHandle p true)
     | Some (File _) => Ok (mkHandle p false)
     end, advance (CallOpen p) (nodes fs0) fs0).
Proof.
  intros Hv Hroot. unfold Open, enter, advance. rewrite Hv. cbn [fst snd nodes].
  apply String.eqb_neq in Hroot. rewrite Hroot.
  now destruct (nodes fs0 !! p) as [[]|].
Qed.

Lemma Readdir_calm f fs0 :
  verdict fs0 = None -> IsDir f = true ->
  Readdir f fs0
  = (Ok (entries (nodes fs0) (h_path f)), advance (CallReaddir (h_path f)) (nodes fs0) fs0).
Proof.
  intros Hv Hd. unfold Readdir, enter, advance. rewrite Hv, Hd. reflexivity.
Qed.

Lemma readDir_absent p (m : Manager) :
  verdict (fs m) = None -> nodes (fs m) !! p = None -> p <> "/"%string ->
  readDir p m
  = (Err (LfsError errNoEntry),
     mkManager (advance (CallOpen p) (nodes (fs m)) (fs m)) (blockDev m) (mounted m)).
Proof.
  intros Hv Hp Hroot. unfold readDir. mstep. rewrite Open_calm, Hp by assumption.
  reflexivity.
Qed.

Lemma readDir_dir p (m : Manager) :
  calm 3 (fs m) -> nodes (fs m) !! p = Some Dir -> p <> "/"%string ->
  exists fs3,
    readDir p m
    = (Ok (entries (nodes (fs m)) p), mkManager fs3 (blockDev m) (mounted m))
    /\ nodes fs3 = nodes (fs m)
    /\ oracle fs3 = skipn 3 (oracle (fs m))
    /\ rename_replaces fs3 = rename_replaces (fs m).
Proof.
  intros Hc Hp Hroot. unfold readDir. mstep.
  rewrite Open_calm, Hp by eauto using calm_verdict. mstep.
  cbn [IsDir h_isdir negb]. mstep.
  set (fs1 := advance (CallOpen p) (nodes (fs m)) (fs m)).
  assert (C1 : calm 2 fs1) by (apply calm_advance; exact Hc).
  rewrite (Readdir_calm _ fs1) by eauto using calm_verdict. cbn [fst snd h_path].
  set (fs2 := advance (CallReaddir p) (nodes fs1) fs1).
  assert (C2 : calm 1 fs2) by (apply calm_advance; exact C1).
  rewrite (Close_calm _ fs2) by eauto using calm_verdict. cbn [fst snd h_path].
  eexists. split; [reflexivity|]. cbn [nodes oracle rename_replaces advance fs1 fs2].
  split; [reflexivity|]. split; [|reflexivity].
  now destruct (oracle (fs m)) as [|? [|? [|? o]]].
Qed.

Lemma ListProfiles_absent (m : Manager) :
  verdict (fs m) = None -> nodes (fs m) !! profilesDir = None ->
  ListProfiles m
  = (Err (LfsError errNoEntry),
     mkManager (advance (CallOpen profilesDir) (nodes (fs m)) (fs m))
       (blockDev m) (mounted m)).
Proof.
  intros Hv Hp. unfold ListProfiles. mstep.
  rewrite readDir_absent by (auto; discriminate). reflexivity.
Qed.

Lemma ListProfiles_dir (m : Manager) :
  calm 3 (fs m) -> nodes (fs m) !! profilesDir = Some Dir ->
  exists fs3,
    ListProfiles m
    = (Ok (omap entry_slot (entries (nodes (fs m)) profilesDir)),
       mkManager fs3 (blockDev m) (mounted m))
    /\ nodes fs3 = nodes (fs m)
    /\ oracle fs3 = skipn 3 (oracle (fs m))
    /\ rename_replaces fs3 = rename_replaces (fs m).
Proof.
  intros Hc Hp.
  destruct (readDir_dir profilesDir m Hc Hp) as (fs3 & Hr & Hrest); [discriminate|].
  exists fs3. split; [|exact Hrest]. unfold ListProfiles. mstep. now rewrite Hr.
Qed.

(** The listing has as many slots as the tree has profile files. *)
Lemma listed_slots_length b (m : Manager) :
  store_inv b (nodes (fs m)) ->
  length (omap entry_slot (entries (nodes (fs m)) profilesDir))
  = length (occupied_slots m).
Proof.
  intros Hinv. destruct (listed_slots_spec b _ Hinv) as [Hnd Hmem].
  apply Permutation_length, NoDup_Permutation; auto.
  - unfold occupied_slots. apply NoDup_List_filter, all_slots_NoDup.
  - intros s. rewrite Hmem, <- occupied_slots_spec. symmetry. apply list_elem_of_In.
Qed.

Lemma GetStats_absent (m : Manager) :
  verdict (fs m) = None ->
  nodes (fs m) !! profilesDir = None ->
  fst (GetStats m) = Ok (mkStats (blockDev m) 100 (blockDev m - 100) 0 false).
Proof.
  intros Hv Hp. unfold GetStats. mstep.
  rewrite ListProfiles_absent by assumption. reflexivity.
Qed.

(** X15. On a store that has no profiles directory yet (a freshly
    formatted one, or one with only the configuration directory: no
    regular file stands in that directory's place), with the next
    filesystem call unfaulted, [ListProfiles] returns the filesystem's
    "No directory entry" error, while [GetStats], which looks for that
    message, reports zero profiles, 100 bytes used and the rest of the
    device free. *)
Theorem GetStats_without_profiles_directory (m : Manager) :
  verdict (fs m) = None ->
  nodes (fs m) !! profilesDir = None ->
  (forall d, nodes (fs m) !! configDir <> Some (File d)) ->
  fst (ListProfiles m) = Err (LfsError errNoEntry)
  /\ fst (GetStats m) = Ok (mkStats (blockDev m) 100 (blockDev m - 100) 0 false).
Proof.
  intros Hv Hp _. split; [|now apply GetStats_absent].
  now rewrite ListProfiles_absent.
Qed.

Lemma GetStats_without_profiles_directory_witness :
  fst (ListProfiles sample.store) = Err (LfsError errNoEntry)
  /\ fst (GetStats sample.store) = Ok (mkStats 262144 100 (262144 - 100) 0 false).
Proof.
  apply (GetStats_without_profiles_directory sample.store).
  - reflexivity.
  - reflexivity.
  - intros d. vm_compute. discriminate.
Defined.

(** X16. After any sequence, empty or not, of successful SaveProfile and
    DeleteProfile operations from an empty store, and with no device fault
    during the call, [GetStats] reports the number [n] of occupied slots,
    [n * 320 + 100] bytes used and the rest of the device free, and
    [CanFitProfile] answers whether more than 512 bytes are free by that
    estimate. *)
Theorem GetStats_counts_occupied_slots
  (ops : list store_op) (schedule : list (option fault)) (replaces : bool)
  (size : Z) (m : Manager) :
  run_ops ops (blank schedule replaces size) = Some m ->
  oracle (fs m) = [] ->
  let n := Z.of_nat (length (occupied_slots m)) in
  fst (GetStats m)
  = Ok (mkStats (blockDev m) (n * 320 + 100) (blockDev m - (n * 320 + 100)) n false)
  /\ fst (CanFitProfile m) = (512 <? blockDev m - (n * 320 + 100)).
Proof.
  intros Hrun Hq n.
  assert (Hstats : fst (GetStats m)
                   = Ok (mkStats (blockDev m) (n * 320 + 100)
                           (blockDev m - (n * 320 + 100)) n false)).
  { destruct ops as [|op ops].
    - injection Hrun as <-.
      assert (Hn : n = 0).
      { subst n. rewrite <- (listed_slots_length false) by apply store_inv_empty.
        reflexivity. }
      rewrite Hn.
      apply (GetStats_absent (blank schedule replaces size)).
      + apply verdict_quiet, Hq.
      + reflexivity.
    - assert (Hinv : store_inv true (nodes (fs m))).
      { apply (run_ops_from_empty (op :: ops) (blank schedule replaces size) m);
          [discriminate | reflexivity | exact Hrun]. }
      destruct (ListProfiles_dir m (quiet_calm 3 _ Hq) (proj2 Hinv eq_refl))
        as (fs3 & Hl & _).
      unfold GetStats. mstep. rewrite Hl. cbn [fst snd blockDev].
      subst n. now rewrite (listed_slots_length true m Hinv). }
  split; [exact Hstats|].
  unfold CanFitProfile. mstep. destruct (GetStats m) as [r m1].
  cbn [fst] in Hstats. subst r. reflexivity.
Qed.

Lemma GetStats_counts_occupied_slots_witness :
  let ops := [OpSave Byte.x05 config.Profile.zero;
              OpSave Byte.x07 config.Profile.zero;
              OpDelete Byte.x05] in
  let m := after_ops ops sample.store in
  let n := Z.of_nat (length (occupied_slots m)) in
  fst (GetStats m)
  = Ok (mkStats (blockDev m) (n * 320 + 100) (blockDev m - (n * 320 + 100)) n false)
  /\ fst (CanFitProfile m) = (512 <? blockDev m - (n * 320 + 100)).
Proof.
  intros ops m.
  apply (GetStats_counts_occupied_slots ops [] false 262144 m).
  - vm_compute. reflexivity.
  - vm_compute. reflexivity.
Defined.

(** [wipeAll] drops every error on its way. *)
Lemma wipeAll_None (m : Manager) : fst (wipeAll m) = None.
Proof.
  unfold wipeAll, bind.
  destruct (ListProfiles m) as [[slots|err] m1].
  - destruct (for_each slots _ m1) as [u m2].
    now destruct (call_fs (Remove deviceFile) m2).
  - unfold ret. now destruct (call_fs (Remove deviceFile) m1).
Qed.

(** X17. A factory reset is always answered OK: [wipeAll] drops the
    result of the listing and of every [Remove] and returns nil, so
    [ForceWipe] never fails and [Handle] answers a FactoryReset frame with
    status OK and no payload on every store and under every schedule of
    device faults. *)
Theorem FactoryReset_always_OK (m : Manager) (payload : list byte) :
  fst (ForceWipe m) = None
  /\ fst (protocol.Handle (protocol.mkFrame protocol.CmdFactoryReset payload) m)
     = protocol.mkResponse protocol.StatusOK [].
Proof.
  pose proof (wipeAll_None m) as H.
  split; [exact H|].
  change (protocol.Handle _ m) with (protocol.handleFactoryReset m).
  unfold protocol.handleFactoryReset, ForceWipe, bind.
  destruct (wipeAll m) as [e m']. cbn [fst] in H. now subst e.
Qed.

(** ** The loops that remove files: [wipeAll] and [bootCleanup] *)

Lemma substring_0_length (s : string) : substring 0 (String.length s) s = s.
Proof. induction s as [|c s IH]; simpl; [reflexivity | now f_equal]. Qed.

Lemma string_append_assoc (a b c : string) :
  ((a ++ b) ++ c = a ++ b ++ c)%string.
Proof.
  induction a as [|x a IH]; [reflexivity|].
  change (String x ((a ++ b) ++ c) = String x (a ++ b ++ c))%string. now f_equal.
Qed.

Lemma prefix_split (pre k : string) :
  String.prefix pre k = true ->
  k = (pre ++ substring (String.length pre) (String.length k - String.length pre) k)%string.
Proof.
  revert k. induction pre as [|a pre IH]; intros k H.
  - cbn. rewrite Nat.sub_0_r. symmetry. apply substring_0_length.
  - destruct k as [|b k]; [discriminate H|]. cbn in H.
    destruct (ascii_dec a b) as [->|]; [|discriminate H].
    change (String b k
            = String b (pre ++ substring (String.length pre)
                                 (String.length k - String.length pre) k))%string.
    f_equal. now apply IH.
Qed.

(** An entry's key is the directory joined with its name. *)
Lemma entry_name_spec dir k name :
  entry_name dir k = Some name -> k = path_Join dir name.
Proof.
  unfold entry_name, HasPrefix, path_Join.
  destruct (String.prefix (dir ++ "/") k) eqn:Hpre; [|discriminate].
  destruct (_ || _); [discriminate|]. intros [= <-].
  apply prefix_split in Hpre. rewrite <- string_append_assoc. exact Hpre.
Qed.

Lemma substring_app_right (a b : string) n len :
  substring (String.length a + n) len (a ++ b) = substring n len b.
Proof.
  induction a as [|c a IH]; [reflexivity|].
  change (substring (String.length a + n) len (a ++ b) = substring n len b). apply IH.
Qed.

Lemma HasSuffix_app (a b suf : string) :
  HasSuffix b suf = true -> HasSuffix (a ++ b) suf = true.
Proof.
  unfold HasSuffix. intros H. apply andb_true_iff in H as [Hlen Heq].
  apply Nat.leb_le in Hlen. rewrite string_length_app.
  apply andb_true_iff. split; [apply Nat.leb_le; lia|].
  replace (String.length a + String.length b - String.length suf)%nat
    with (String.length a + (String.length b - String.length suf))%nat by lia.
  now rewrite substring_app_right.
Qed.

Lemma for_each_map {A B} (g : A -> B) (l : list A) (body : B -> M unit) (m : Manager) :
  for_each (map g l) body m = for_each l (fun x => body (g x)) m.
Proof.
  revert m. induction l as [|x l IH]; intros m; [reflexivity|].
  cbn [map for_each]. unfold bind. destruct (body (g x) m) as [u m1]. apply IH.
Qed.

Lemma bind_eq {A B} (c : M A) (k k' : A -> M B) (m : Manager) :
  (forall a m', k a m' = k' a m') -> bind c k m = bind c k' m.
Proof. intros H. unfold bind. destruct (c m). apply H. Qed.

Lemma remove_temp_entries_filter dir names (m : Manager) :
  remove_temp_entries dir names m
  = for_each (map (path_Join dir)
                (List.filter (fun name => HasSuffix name tempSuffix) names))
      (fun p => call_fs (Remove p) ;;; ret tt) m.
Proof.
  unfold remove_temp_entries. revert m.
  induction names as [|name names IH]; intros m; [reflexivity|].
  cbn [for_each List.filter]. destruct (HasSuffix name tempSuffix).
  - cbn [map for_each]. apply bind_eq. intros _ m'. apply IH.
  - etransitivity; [|apply IH]. reflexivity.
Qed.

(** Removing a list of paths with no fault scheduled, none of the paths
    being a directory: exactly these paths are gone. *)
Lemma remove_paths_quiet (paths : list string) : forall (m : Manager),
  oracle (fs m) = [] ->
  (forall p, In p paths -> nodes (fs m) !! p <> Some Dir) ->
  exists fs',
    for_each paths (fun p => call_fs (Remove p) ;;; ret tt) m
    = (tt, mkManager fs' (blockDev m) (mounted m))
    /\ oracle fs' = []
    /\ rename_replaces fs' = rename_replaces (fs m)
    /\ (forall k, In k paths -> nodes fs' !! k = None)
    /\ (forall k, ~ In k paths -> nodes fs' !! k = nodes (fs m) !! k)
    /\ (forall k, nodes fs' !! k = None \/ nodes fs' !! k = nodes (fs m) !! k).
Proof.
  induction paths as [|p paths IH]; intros m Hq Hnd.
  - exists (fs m). destruct m. cbn. repeat split; auto. intros k [].
  - cbn [for_each]. mstep.
    rewrite Remove_calm by (auto using verdict_quiet; apply Hnd; now left).
    cbn [fst snd].
    set (fs1 := advance (CallRemove p) (delete p (nodes (fs m))) (fs m)).
    destruct (IH (mkManager fs1 (blockDev m) (mounted m)))
      as (fs' & Hrun & Hq' & Hrr & Hin & Hout & Hmono).
    { cbn [fs fs1 advance oracle]. now rewrite Hq. }
    { intros p' Hp'. cbn [fs fs1 advance nodes].
      destruct (decide (p' = p)) as [->|Hne].
      - rewrite lookup_delete_eq. discriminate.
      - rewrite lookup_delete_ne by auto. apply Hnd. now right. }
    cbn [fs blockDev mounted] in *. exists fs'. split; [exact Hrun|].
    split; [exact Hq'|]. split; [exact Hrr|]. split; [|split].
    + intros k [<-|Hk]; [|now apply Hin].
      destruct (Hmono p) as [H|H]; [exact H|].
      rewrite H. cbn [fs1 advance nodes]. apply lookup_delete_eq.
    + intros k Hk. rewrite Hout by (intros H; apply Hk; now right).
      cbn [fs1 advance nodes]. apply lookup_delete_ne. intros <-. apply Hk. now left.
    + intros k. destruct (Hmono k) as [H|H]; [now left|].
      rewrite H. cbn [fs1 advance nodes].
      destruct (decide (p = k)) as [->|Hne].
      * left. apply lookup_delete_eq.
      * right. now apply lookup_delete_ne.
Qed.

(** Every occupied slot is in the listing, whatever else the tree holds. *)
Lemma occupied_slot_listed ns s n :
  ns !! profilePath s = Some n ->
  In s (omap entry_slot (entries ns profilesDir)).
Proof.
  intros Hs. rewrite listed_slots_eq. apply list_elem_of_In, list_elem_of_omap.
  exists (profilePath s, n). split.
  - now apply elem_of_map_to_list.
  - apply key_slot_profilePath.
Qed.

(** [wipeAll] on a store with no fault scheduled and no directory in the
    place of a file. *)
Lemma wipeAll_quiet (m : Manager) :
  oracle (fs m) = [] ->
  nodes (fs m) !! profilesDir = Some Dir ->
  (forall s, nodes (fs m) !! profilePath s <> Some Dir) ->
  nodes (fs m) !! deviceFile <> Some Dir ->
  exists fs',
    wipeAll m = (None, mkManager fs' (blockDev m) (mounted m))
    /\ (forall s, nodes fs' !! profilePath s = None)
    /\ nodes fs' !! deviceFile = None
    /\ (forall k, k <> deviceFile -> (forall s, k <> profilePath s) ->
                  nodes fs' !! k = nodes (fs m) !! k).
Proof.
  intros Hq Hdir Hslots Hdev.
  destruct (ListProfiles_dir m (quiet_calm 3 _ Hq) Hdir) as (fs3 & Hl & Hn3 & Ho3 & _).
  rewrite Hq in Ho3. cbn [skipn] in Ho3.
  set (slots := omap entry_slot (entries (nodes (fs m)) profilesDir)) in *.
  destruct (remove_paths_quiet (map profilePath slots)
              (mkManager fs3 (blockDev m) (mounted m)))
    as (fs4 & Hloop & Hq4 & _ & Hin & Hout & Hmono).
  { exact Ho3. }
  { intros p Hp. apply in_map_iff in Hp as (s & <- & _). cbn [fs].
    rewrite Hn3. apply Hslots. }
  rewrite for_each_map in Hloop. cbn [fs blockDev mounted] in *.
  assert (Hloop' : for_each slots (fun slot => DeleteProfile slot;;; ret tt)
                     (mkManager fs3 (blockDev m) (mounted m))
                   = (tt, mkManager fs4 (blockDev m) (mounted m))) by exact Hloop.
  unfold wipeAll. unfold bind at 1. rewrite Hl. unfold bind at 1.
  rewrite Hloop'. mstep.
  assert (Hdev4 : nodes fs4 !! deviceFile <> Some Dir).
  { destruct (Hmono deviceFile) as [H|H]; rewrite H; [discriminate|].
    now rewrite Hn3. }
  rewrite Remove_calm by auto using verdict_quiet. cbn [snd].
  eexists. split; [reflexivity|]. cbn [nodes advance]. split; [|split].
  - intros s.
    rewrite lookup_delete_ne
      by (intros H; apply deviceFile_not_profile_file; left; eauto).
    destruct (nodes (fs m) !! profilePath s) as [n|] eqn:Hs.
    + apply Hin, in_map, (occupied_slot_listed _ _ n), Hs.
    + destruct (Hmono (profilePath s)) as [H|H]; [exact H|].
      now rewrite H, Hn3.
  - apply lookup_delete_eq.
  - intros k Hk Hks. rewrite lookup_delete_ne by auto.
    rewrite Hout, Hn3; [reflexivity|].
    intros Hin'. apply in_map_iff in Hin' as (s & <- & _). now apply (Hks s).
Qed.

(** X18. A factory reset on a store with no device fault: when the
    profiles directory exists and no directory stands in the place of a
    profile file or of the device file, [wipeAll] empties every slot and
    removes the device configuration; every other path, the temporary
    files included, is left as it was. *)
Theorem wipeAll_removes_all_records (m : Manager) :
  oracle (fs m) = [] ->
  nodes (fs m) !! profilesDir = Some Dir ->
  (forall s, nodes (fs m) !! profilePath s <> Some Dir) ->
  nodes (fs m) !! deviceFile <> Some Dir ->
  fst (wipeAll m) = None
  /\ (forall s, nodes (fs (snd (wipeAll m))) !! profilePath s = None)
  /\ nodes (fs (snd (wipeAll m))) !! deviceFile = None
  /\ (forall k, k <> deviceFile -> (forall s, k <> profilePath s) ->
                nodes (fs (snd (wipeAll m))) !! k = nodes (fs m) !! k).
Proof.
  intros Hq Hdir Hslots Hdev.
  destruct (wipeAll_quiet m Hq Hdir Hslots Hdev) as (fs' & -> & H).
  cbn [fst snd fs]. split; [reflexivity | exact H].
Qed.

Lemma wipeAll_removes_all_records_witness :
  let m := mkManager
             (mkLFS (<[profilePath Byte.x05 := File (sample.profile_bytes 1)]>
                       (<[(profilePath Byte.x07 ++ tempSuffix)%string := File []]>
                          (<[deviceFile := File sample.device_bytes]>
                             (nodes (fs (sample.store_with_dirs []))))))
                [] [] false)
             262144 true in
  fst (wipeAll m) = None
  /\ (forall s, nodes (fs (snd (wipeAll m))) !! profilePath s = None)
  /\ nodes (fs (snd (wipeAll m))) !! deviceFile = None
  /\ (forall k, k <> deviceFile -> (forall s, k <> profilePath s) ->
                nodes (fs (snd (wipeAll m))) !! k = nodes (fs m) !! k).
Proof.
  intros m. apply (wipeAll_removes_all_records m).
  - reflexivity.
  - vm_compute. reflexivity.
  - intros s. destruct s; vm_compute; discriminate.
  - vm_compute. discriminate.
Defined.

Lemma HasSuffix_path_Join dir name suf :
  HasSuffix name suf = true -> HasSuffix (path_Join dir name) suf = true.
Proof. intros H. unfold path_Join. now do 2 apply HasSuffix_app. Qed.

(** One loop of [bootCleanup], over the entries of [dir], with no fault
    scheduled and no directory whose path ends in [tempSuffix]. *)
Lemma cleanup_dir_quiet dir (m : Manager) :
  oracle (fs m) = [] ->
  (forall k, nodes (fs m) !! k = Some Dir -> HasSuffix k tempSuffix = false) ->
  exists fs',
    remove_temp_entries dir (entries (nodes (fs m)) dir) m
    = (tt, mkManager fs' (blockDev m) (mounted m))
    /\ oracle fs' = []
    /\ (forall k, HasSuffix k tempSuffix = false -> nodes fs' !! k = nodes (fs m) !! k)
    /\ (forall k, nodes fs' !! k = None \/ nodes fs' !! k = nodes (fs m) !! k)
    /\ (forall k name, entry_name dir k = Some name ->
                       HasSuffix name tempSuffix = true -> nodes fs' !! k = None).
Proof.
  intros Hq Hnd. rewrite remove_temp_entries_filter.
  set (paths := map (path_Join dir) _).
  assert (Hpaths : forall p, In p paths -> HasSuffix p tempSuffix = true).
  { intros p Hp. apply in_map_iff in Hp as (name & <- & Hname).
    apply filter_In in Hname as [_ Hname]. now apply HasSuffix_path_Join. }
  destruct (remove_paths_quiet paths m Hq) as (fs' & Hrun & Hq' & _ & Hin & Hout & Hmono).
  { intros p Hp Hd. apply Hnd in Hd. rewrite (Hpaths p Hp) in Hd. discriminate. }
  exists fs'. split; [exact Hrun|]. split; [exact Hq'|]. split; [|split; [exact Hmono|]].
  - intros k Hk. apply Hout. intros Hp. apply Hpaths in Hp. congruence.
  - intros k name Hname Hsuf.
    destruct (nodes (fs m) !! k) as [n|] eqn:Hk.
    + apply Hin. subst paths. apply in_map_iff. exists name. split.
      * symmetry. now apply entry_name_spec.
      * apply filter_In. split; [|exact Hsuf].
        apply list_elem_of_In. unfold entries. apply list_elem_of_omap.
        exists (k, n). split; [now apply elem_of_map_to_list | exact Hname].
    + destruct (Hmono k) as [H|H]; [exact H | now rewrite H].
Qed.

Lemma temp_entry_of_slot s :
  match entry_name profilesDir (profilePath s ++ tempSuffix) with
  | Some name => HasSuffix name tempSuffix
  | None => false
  end = true.
Proof. destruct s; vm_compute; reflexivity. Qed.

Lemma profilePath_no_temp_suffix s : HasSuffix (profilePath s) tempSuffix = false.
Proof. destruct s; vm_compute; reflexivity. Qed.

(** [bootCleanup] with no fault scheduled, both directories in place and
    no directory whose path ends in [tempSuffix]. *)
Lemma bootCleanup_quiet (m : Manager) :
  oracle (fs m) = [] ->
  nodes (fs m) !! configDir = Some Dir ->
  nodes (fs m) !! profilesDir = Some Dir ->
  (forall k, nodes (fs m) !! k = Some Dir -> HasSuffix k tempSuffix = false) ->
  exists fs',
    bootCleanup m = (None, mkManager fs' (blockDev m) (mounted m))
    /\ oracle fs' = []
    /\ (forall k, HasSuffix k tempSuffix = false -> nodes fs' !! k = nodes (fs m) !! k)
    /\ (forall k, nodes fs' !! k = None \/ nodes fs' !! k = nodes (fs m) !! k)
    /\ (forall s, nodes fs' !! (profilePath s ++ tempSuffix)%string = None)
    /\ nodes fs' !! (deviceFile ++ tempSuffix)%string = None.
Proof.
  intros Hq Hc Hp Hnd.
  destruct (readDir_dir configDir m (quiet_calm 3 _ Hq) Hc)
    as (fs1 & Hr1 & Hn1 & Ho1 & _); [discriminate|].
  rewrite Hq in Ho1. cbn [skipn] in Ho1.
  destruct (cleanup_dir_quiet configDir (mkManager fs1 (blockDev m) (mounted m)))
    as (fs2 & Hl2 & Ho2 & Hkeep2 & Hmono2 & Hgone2).
  { exact Ho1. }
  { cbn [fs]. rewrite Hn1. exact Hnd. }
  cbn [fs blockDev mounted] in *. rewrite Hn1 in *.
  destruct (readDir_dir profilesDir (mkManager fs2 (blockDev m) (mounted m)))
    as (fs3 & Hr3 & Hn3 & Ho3 & _).
  { apply quiet_calm. exact Ho2. }
  { cbn [fs]. rewrite Hkeep2 by reflexivity. exact Hp. }
  { discriminate. }
  cbn [fs blockDev mounted] in *. rewrite Ho2 in Ho3. cbn [skipn] in Ho3.
  destruct (cleanup_dir_quiet profilesDir (mkManager fs3 (blockDev m) (mounted m)))
    as (fs4 & Hl4 & Ho4 & Hkeep4 & Hmono4 & Hgone4).
  { exact Ho3. }
  { cbn [fs]. rewrite Hn3. intros k Hk. apply Hnd.
    destruct (Hmono2 k) as [H|H]; congruence. }
  cbn [fs blockDev mounted] in *. rewrite Hn3 in *.
  exists fs4. split.
  { unfold bootCleanup. unfold bind at 1. rewrite Hr1.
    unfold bind at 1. rewrite Hl2. unfold bind at 1. rewrite Hr3.
    unfold bind at 1. rewrite Hl4. reflexivity. }
  split; [exact Ho4|]. split; [|split; [|split]].
  - intros k Hk. now rewrite Hkeep4, Hkeep2.
  - intros k. destruct (Hmono4 k) as [H|H]; [now left|].
    destruct (Hmono2 k) as [H'|H']; [left | right]; congruence.
  - intros s. pose proof (temp_entry_of_slot s) as Hs.
    destruct (entry_name profilesDir (profilePath s ++ tempSuffix)) as [name|] eqn:E;
      [|discriminate]. now apply (Hgone4 _ name).
  - destruct (Hmono4 (deviceFile ++ tempSuffix)%string) as [H|H]; [exact H|].
    rewrite H. apply (Hgone2 _ "device.bin.tmp"%string); reflexivity.
Qed.

(** X19. Boot-time cleanup with no device fault, on a store that has both
    configuration directories and no directory whose path ends in ".tmp":
    [bootCleanup] returns nil, no slot and not the device configuration
    has a temporary file afterwards, and every path that does not end in
    ".tmp" (the profiles and the device configuration among them) is
    left as it was. *)
Theorem bootCleanup_removes_temporary_files (m : Manager) :
  oracle (fs m) = [] ->
  nodes (fs m) !! configDir = Some Dir ->
  nodes (fs m) !! profilesDir = Some Dir ->
  (forall k, nodes (fs m) !! k = Some Dir -> HasSuffix k tempSuffix = false) ->
  fst (bootCleanup m) = None
  /\ (forall s, nodes (fs (snd (bootCleanup m))) !! (profilePath s ++ tempSuffix)%string
                = None)
  /\ nodes (fs (snd (bootCleanup m))) !! (deviceFile ++ tempSuffix)%string = None
  /\ (forall k, HasSuffix k tempSuffix = false ->
                nodes (fs (snd (bootCleanup m))) !! k = nodes (fs m) !! k)
  /\ (forall s, nodes (fs (snd (bootCleanup m))) !! profilePath s
                = nodes (fs m) !! profilePath s)
  /\ nodes (fs (snd (bootCleanup m))) !! deviceFile = nodes (fs m) !! deviceFile.
Proof.
  intros Hq Hc Hp Hnd.
  destruct (bootCleanup_quiet m Hq Hc Hp Hnd)
    as (fs' & -> & _ & Hkeep & _ & Hslots & Hdev).
  cbn [fst snd fs]. split; [reflexivity|]. split; [exact Hslots|].
  split; [exact Hdev|]. split; [exact Hkeep|]. split.
  - intros s. apply Hkeep, profilePath_no_temp_suffix.
  - now apply Hkeep.
Qed.

Lemma bootCleanup_removes_temporary_files_witness :
  let m := mkManager
             (mkLFS (<[profilePath Byte.x05 := File (sample.profile_bytes 1)]>
                       (<[(profilePath Byte.x07 ++ tempSuffix)%string := File []]>
                          (<[(deviceFile ++ tempSuffix)%string := File []]>
                             (nodes (fs (sample.store_with_dirs []))))))
                [] [] false)
             262144 true in
  fst (bootCleanup m) = None
  /\ (forall s, nodes (fs (snd (bootCleanup m))) !! (profilePath s ++ tempSuffix)%string
                = None)
  /\ nodes (fs (snd (bootCleanup m))) !! (deviceFile ++ tempSuffix)%string = None
  /\ (forall k, HasSuffix k tempSuffix = false ->
                nodes (fs (snd (bootCleanup m))) !! k = nodes (fs m) !! k)
  /\ (forall s, nodes (fs (snd (bootCleanup m))) !! profilePath s
                = nodes (fs m) !! profilePath s)
  /\ nodes (fs (snd (bootCleanup m))) !! deviceFile = nodes (fs m) !! deviceFile.
Proof.
  intros m. apply (bootCleanup_removes_temporary_files m).
  - reflexivity.
  - vm_compute. reflexivity.
  - vm_compute. reflexivity.
  - intros k Hk.
    destruct (decide (k = profilePath Byte.x05)) as [->|H1];
      [vm_compute in Hk; discriminate|].
    destruct (decide (k = (profilePath Byte.x07 ++ tempSuffix)%string)) as [->|H2];
      [vm_compute in Hk; discriminate|].
    destruct (decide (k = (deviceFile ++ tempSuffix)%string)) as [->|H3];
      [vm_compute in Hk; discriminate|].
    destruct (decide (k = profilesDir)) as [->|H4]; [reflexivity|].
    destruct (decide (k = configDir)) as [->|H5]; [reflexivity|].
    subst m. cbn [fs nodes sample.store_with_dirs] in Hk.
    rewrite !lookup_insert_ne in Hk by auto. rewrite lookup_empty in Hk. discriminate.
Defined.

(** ** Start-up: the version check and the wipe *)

Lemma LoadDevice_quiet_state d0 (m : Manager) d :
  oracle (fs m) = [] ->
  nodes (fs m) !! deviceFile = Some (File d) ->
  length d = 12%nat ->
  exists fs',
    LoadDevice d0 m
    = (config.DeviceConfig.UnmarshalBinary d0 d, mkManager fs' (blockDev m) (mounted m))
    /\ nodes fs' = nodes (fs m)
    /\ oracle fs' = [].
Proof.
  intros Hq Hp Hlen. unfold LoadDevice. mstep.
  rewrite (Open_quiet_file _ d) by (auto; discriminate). mstep.
  rewrite (Read_quiet_file _ d) by (auto; lia). mstep.
  rewrite Close_quiet by reflexivity. cbn [fst snd].
  rewrite Hlen. cbn [Nat.eqb negb].
  eexists. split; [reflexivity|]. split; reflexivity.
Qed.

Lemma LoadDevice_absent_state d0 (m : Manager) :
  oracle (fs m) = [] ->
  nodes (fs m) !! deviceFile = None ->
  LoadDevice d0 m
  = ((Some (LfsError errNoEntry), d0),
     mkManager (advance (CallOpen deviceFile) (nodes (fs m)) (fs m))
       (blockDev m) (mounted m)).
Proof.
  intros Hq Hp. unfold LoadDevice. mstep.
  rewrite Open_calm, Hp by (auto using verdict_quiet; discriminate). reflexivity.
Qed.

(** [checkVersion] on a stored device configuration of 12 bytes. *)
Lemma checkVersion_stored (m : Manager) d :
  oracle (fs m) = [] ->
  nodes (fs m) !! deviceFile = Some (File d) ->
  length d = 12%nat ->
  exists fs',
    checkVersion m
    = ((negb (Uint16 d =? config.CurrentVersion), None),
       mkManager fs' (blockDev m) (mounted m))
    /\ nodes fs' = nodes (fs m)
    /\ oracle fs' = [].
Proof.
  intros Hq Hp Hlen.
  destruct (LoadDevice_quiet_state config.DeviceConfig.zero m d Hq Hp Hlen)
    as (fs' & Hl & Hrest).
  exists fs'. split; [|exact Hrest].
  unfold checkVersion. unfold bind. rewrite Hl.
  unfold config.DeviceConfig.UnmarshalBinary. rewrite Hlen. reflexivity.
Qed.

Lemma only_config_dirs_no_temp (ns : gmap string node) :
  (forall k, ns !! k = Some Dir -> k = configDir \/ k = profilesDir) ->
  forall k, ns !! k = Some Dir -> HasSuffix k tempSuffix = false.
Proof. intros H k Hk. destruct (H k Hk) as [-> | ->]; reflexivity. Qed.

Lemma only_config_dirs_profile (ns : gmap string node) k :
  (forall k, ns !! k = Some Dir -> k = configDir \/ k = profilesDir) ->
  profile_file k -> ns !! k <> Some Dir.
Proof.
  intros H Hf Hk. destruct (profile_file_not_dir _ Hf) as [H1 H2].
  destruct (H k Hk); contradiction.
Qed.

(** X20. Start-up on a store written by another configuration version:
    when the stored device configuration has 12 bytes and a version field
    other than [CurrentVersion], no device fault occurs and the tree has
    no directories besides the two configuration directories, the part of
    [New] after the mount returns nil and leaves no profile in any slot
    and no device configuration, while both directories remain. *)
Theorem New_wipes_on_version_mismatch (m : Manager) (d : list byte) :
  oracle (fs m) = [] ->
  nodes (fs m) !! configDir = Some Dir ->
  nodes (fs m) !! profilesDir = Some Dir ->
  (forall k, nodes (fs m) !! k = Some Dir -> k = configDir \/ k = profilesDir) ->
  nodes (fs m) !! deviceFile = Some (File d) ->
  length d = 12%nat ->
  Uint16 d <> config.CurrentVersion ->
  fst (New_after_mount m) = None
  /\ (forall s, nodes (fs (snd (New_after_mount m))) !! profilePath s = None)
  /\ nodes (fs (snd (New_after_mount m))) !! deviceFile = None
  /\ nodes (fs (snd (New_after_mount m))) !! configDir = Some Dir
  /\ nodes (fs (snd (New_after_mount m))) !! profilesDir = Some Dir.
Proof.
  intros Hq Hc Hp Hdirs Hdev Hlen Hver.
  destruct (bootCleanup_quiet m Hq Hc Hp (only_config_dirs_no_temp _ Hdirs))
    as (fs1 & Hb & Ho1 & Hkeep1 & Hmono1 & _).
  destruct (checkVersion_stored (mkManager fs1 (blockDev m) (mounted m)) d)
    as (fs2 & Hcv & Hn2 & Ho2); auto.
  { cbn [fs]. now rewrite Hkeep1. }
  cbn [fs blockDev mounted] in *.
  assert (Hdirs2 : forall k, nodes fs2 !! k = Some Dir -> nodes (fs m) !! k = Some Dir).
  { intros k Hk. rewrite Hn2 in Hk. destruct (Hmono1 k); congruence. }
  destruct (wipeAll_quiet (mkManager fs2 (blockDev m) (mounted m)))
    as (fs3 & Hw & Hslots & Hnodev & Hother).
  { exact Ho2. }
  { cbn [fs]. now rewrite Hn2, Hkeep1. }
  { intros s Hs. apply Hdirs2 in Hs. revert Hs.
    apply only_config_dirs_profile; [exact Hdirs | left; eauto]. }
  { cbn [fs]. intros Hk. apply Hdirs2 in Hk. congruence. }
  cbn [fs blockDev mounted] in *.
  assert (Hrun : New_after_mount m = (None, mkManager fs3 (blockDev m) (mounted m))).
  { unfold New_after_mount. unfold bind at 1. rewrite Hb.
    unfold bind at 1. rewrite Hcv.
    apply Z.eqb_neq in Hver. rewrite Hver. cbn [negb].
    unfold bind. rewrite Hw. reflexivity. }
  rewrite Hrun. cbn [fst snd fs]. split; [reflexivity|].
  split; [exact Hslots|]. split; [exact Hnodev|]. split.
  - rewrite Hother, Hn2, Hkeep1; auto; discriminate.
  - rewrite Hother, Hn2, Hkeep1; auto; discriminate.
Qed.

Lemma New_wipes_on_version_mismatch_witness :
  let m := mkManager
             (mkLFS (<[profilePath Byte.x05 := File (sample.profile_bytes 1)]>
                       (<[deviceFile := File sample.device_bytes]>
                          (nodes (fs (sample.store_with_dirs [])))))
                [] [] false)
             262144 true in
  fst (New_after_mount m) = None
  /\ (forall s, nodes (fs (snd (New_after_mount m))) !! profilePath s = None)
  /\ nodes (fs (snd (New_after_mount m))) !! deviceFile = None
  /\ nodes (fs (snd (New_after_mount m))) !! configDir = Some Dir
  /\ nodes (fs (snd (New_after_mount m))) !! profilesDir = Some Dir.
Proof.
  intros m. apply (New_wipes_on_version_mismatch m sample.device_bytes).
  - reflexivity.
  - vm_compute. reflexivity.
  - vm_compute. reflexivity.
  - intros k Hk.
    destruct (decide (k = profilePath Byte.x05)) as [->|H1];
      [vm_compute in Hk; discriminate|].
    destruct (decide (k = deviceFile)) as [->|H2];
      [vm_compute in Hk; discriminate|].
    destruct (decide (k = profilesDir)) as [->|H4]; [now right|].
    destruct (decide (k = configDir)) as [->|H5]; [now left|].
    subst m. cbn [fs nodes sample.store_with_dirs] in Hk.
    rewrite !lookup_insert_ne in Hk by auto. rewrite lookup_empty in Hk. discriminate.
  - vm_compute. reflexivity.
  - reflexivity.
  - vm_compute. discriminate.
Defined.

(** X21. Start-up on a store of the current version, or on one that has
    no device configuration yet: with no device fault and no directories
    besides the two configuration directories, the part of [New] after
    the mount returns nil, removes the temporary files and leaves every
    path that does not end in ".tmp" as it was; in particular every
    profile and the device configuration are kept. *)
Theorem New_keeps_records_of_current_version (m : Manager) :
  oracle (fs m) = [] ->
  nodes (fs m) !! configDir = Some Dir ->
  nodes (fs m) !! profilesDir = Some Dir ->
  (forall k, nodes (fs m) !! k = Some Dir -> k = configDir \/ k = profilesDir) ->
  (nodes (fs m) !! deviceFile = None
   \/ exists d, nodes (fs m) !! deviceFile = Some (File d)
                /\ length d = 12%nat /\ Uint16 d = config.CurrentVersion) ->
  fst (New_after_mount m) = None
  /\ (forall k, HasSuffix k tempSuffix = false ->
                nodes (fs (snd (New_after_mount m))) !! k = nodes (fs m) !! k)
  /\ (forall s, nodes (fs (snd (New_after_mount m))) !! profilePath s
                = nodes (fs m) !! profilePath s)
  /\ nodes (fs (snd (New_after_mount m))) !! deviceFile = nodes (fs m) !! deviceFile
  /\ (forall s, nodes (fs (snd (New_after_mount m)))
                  !! (profilePath s ++ tempSuffix)%string = None).
Proof.
  intros Hq Hc Hp Hdirs Hdev.
  destruct (bootCleanup_quiet m Hq Hc Hp (only_config_dirs_no_temp _ Hdirs))
    as (fs1 & Hb & Ho1 & Hkeep1 & Hmono1 & Htemp1 & _).
  assert (Hrun : exists fs2,
             New_after_mount m = (None, mkManager fs2 (blockDev m) (mounted m))
             /\ nodes fs2 = nodes fs1).
  { destruct Hdev as [Habs | (d & Hd & Hlen & Hver)].
    - eexists. split.
      + unfold New_after_mount. unfold bind at 1. rewrite Hb.
        unfold bind at 1. unfold checkVersion. unfold bind at 1.
        rewrite LoadDevice_absent_state by (cbn [fs]; auto; now rewrite Hkeep1).
        reflexivity.
      + reflexivity.
    - destruct (checkVersion_stored (mkManager fs1 (blockDev m) (mounted m)) d)
        as (fs2 & Hcv & Hn2 & Ho2); auto.
      { cbn [fs]. now rewrite Hkeep1. }
      exists fs2. split; [|exact Hn2].
      unfold New_after_mount. unfold bind at 1. rewrite Hb.
      unfold bind at 1. rewrite Hcv.
      apply Z.eqb_eq in Hver. rewrite Hver. reflexivity. }
  destruct Hrun as (fs2 & -> & Hn2). cbn [fst snd fs]. rewrite Hn2.
  split; [reflexivity|]. split; [exact Hkeep1|]. split; [|split].
  - intros s. apply Hkeep1, profilePath_no_temp_suffix.
  - now apply Hkeep1.
  - exact Htemp1.
Qed.

Lemma New_keeps_records_of_current_version_witness :
  let m := mkManager
             (mkLFS (<[profilePath Byte.x05 := File (sample.profile_bytes 1)]>
                       (<[(profilePath Byte.x07 ++ tempSuffix)%string := File []]>
                          (nodes (fs (sample.store_with_dirs [])))))
                [] [] false)
             262144 true in
  fst (New_after_mount m) = None
  /\ (forall k, HasSuffix k tempSuffix = false ->
                nodes (fs (snd (New_after_mount m))) !! k = nodes (fs m) !! k)
  /\ (forall s, nodes (fs (snd (New_after_mount m))) !! profilePath s
                = nodes (fs m) !! profilePath s)
  /\ nodes (fs (snd (New_after_mount m))) !! deviceFile = nodes (fs m) !! deviceFile
  /\ (forall s, nodes (fs (snd (New_after_mount m)))
                  !! (profilePath s ++ tempSuffix)%string = None).
Proof.
  intros m. apply (New_keeps_records_of_current_version m).
  - reflexivity.
  - vm_compute. reflexivity.
  - vm_compute. reflexivity.
  - intros k Hk.
    destruct (decide (k = profilePath Byte.x05)) as [->|H1];
      [vm_compute in Hk; discriminate|].
    destruct (decide (k = (profilePath Byte.x07 ++ tempSuffix)%string)) as [->|H2];
      [vm_compute in Hk; discriminate|].
    destruct (decide (k = profilesDir)) as [->|H4]; [now right|].
    destruct (decide (k = configDir)) as [->|H5]; [now left|].
    subst m. cbn [fs nodes sample.store_with_dirs] in Hk.
    rewrite !lookup_insert_ne in Hk by auto. rewrite lookup_empty in Hk. discriminate.
  - left. vm_compute. reflexivity.
Defined.

(** X22. Once the filesystem is mounted, start-up cannot fail: the error
    of [bootCleanup] is dropped, an error of [checkVersion] only turns
    the wipe off, and [wipeAll] returns nil, so the part of [New] after
    the mount returns nil on every store and under every schedule of
    device faults. *)
Theorem New_never_fails_after_mount (m : Manager) :
  fst (New_after_mount m) = None.
Proof.
  unfold New_after_mount, bind.
  destruct (bootCleanup m) as [e0 m0].
  destruct (checkVersion m0) as [[needsWipe [err|]] m1]; [reflexivity|].
  destruct needsWipe; [|reflexivity].
  pose proof (wipeAll_None m1) as H.
  destruct (wipeAll m1) as [[e|] m2]; [discriminate H | reflexivity].
Qed.

(** ** pkg/config: the codec on records *)

Lemma Uint16_PutUint16_app v rest :
  0 <= v < 65536 -> Uint16 (PutUint16 v ++ rest) = v.
Proof. intros Hv. rewrite <- (Uint16_PutUint16 v Hv) at 2. reflexivity. Qed.

Lemma Uint32_PutUint32_app v rest :
  0 <= v < 4294967296 -> Uint32 (PutUint32 v ++ rest) = v.
Proof.
  intros Hv. unfold Uint32, PutUint32.
  change (firstn 4 (le_split 4 v ++ rest)) with (le_split 4 v).
  rewrite le_combine_split. apply Z.mod_small. simpl. lia.
Qed.

(** X23. Decoding what [DeviceConfig.MarshalBinary] produced gives the
    record back, for every record whose integer fields fit their Go types
    (uint16, uint32, uint16). *)
Theorem DeviceConfig_round_trip (d0 d : config.DeviceConfig.t) :
  0 <= config.DeviceConfig.Version d < 65536 ->
  0 <= config.DeviceConfig.Flags d < 4294967296 ->
  0 <= config.DeviceConfig.Reserved2 d < 65536 ->
  config.DeviceConfig.UnmarshalBinary d0 (fst (config.DeviceConfig.MarshalBinary d))
  = (None, d).
Proof.
  destruct d as [v f a b c r1 r2]. cbn [config.DeviceConfig.Version
    config.DeviceConfig.Flags config.DeviceConfig.Reserved2].
  intros Hv Hf Hr.
  unfold config.DeviceConfig.UnmarshalBinary, config.DeviceConfig.MarshalBinary.
  cbn [fst config.DeviceConfig.Version config.DeviceConfig.Flags
       config.DeviceConfig.ActiveProfile config.DeviceConfig.Brightness
       config.DeviceConfig.DebounceMs config.DeviceConfig.Reserved1
       config.DeviceConfig.Reserved2].
  change (length _ <? 12)%nat with false. cbv iota.
  f_equal. f_equal.
  - now apply Uint16_PutUint16_app.
  - change (skipn 2 _) with (PutUint32 f ++ [a; b; c; r1] ++ PutUint16 r2).
    now apply Uint32_PutUint32_app.
  - change (skipn 10 _) with (PutUint16 r2 ++ []).
    now apply Uint16_PutUint16_app.
Qed.

Lemma DeviceConfig_round_trip_witness :
  config.DeviceConfig.UnmarshalBinary config.DeviceConfig.zero
    (fst (config.DeviceConfig.MarshalBinary
            (config.DeviceConfig.mk 1 3735928559 Byte.x03 Byte.xc8 Byte.x0a Byte.x00 0)))
  = (None, config.DeviceConfig.mk 1 3735928559 Byte.x03 Byte.xc8 Byte.x0a Byte.x00 0).
Proof.
  apply (DeviceConfig_round_trip config.DeviceConfig.zero
           (config.DeviceConfig.mk 1 3735928559 Byte.x03 Byte.xc8 Byte.x0a Byte.x00 0));
    cbn; lia.
Defined.

Lemma Uint16_split v rest :
  0 <= v < 65536 ->
  Uint16 (byte.of_Z v :: byte.of_Z (Z.shiftr v 8) :: rest) = v.
Proof. intros Hv. exact (Uint16_PutUint16_app v rest Hv). Qed.

Lemma Uint32_split v rest :
  0 <= v < 4294967296 ->
  Uint32 (byte.of_Z v :: byte.of_Z (Z.shiftr v 8)
            :: byte.of_Z (Z.shiftr (Z.shiftr v 8) 8)
            :: byte.of_Z (Z.shiftr (Z.shiftr (Z.shiftr v 8) 8) 8) :: rest) = v.
Proof. intros Hv. exact (Uint32_PutUint32_app v rest Hv). Qed.

(** X24. Decoding what [Profile.MarshalBinary] produced gives the record
    back: for every profile whose integer fields fit their Go types, with
    its 16 name bytes and 32 bindings, [UnmarshalBinary] of the encoding
    returns no error and the same profile, whatever the record decoded
    into held before. *)
Theorem Profile_round_trip (p0 p : config.Profile.t) :
  0 <= config.Profile.Version p < 65536 ->
  0 <= config.Profile.Flags p < 4294967296 ->
  0 <= config.Profile.RGBColor p < 4294967296 ->
  length (config.Profile.Name p) = 16%nat ->
  length (config.Profile.Bindings p) = 32%nat ->
  Forall (fun b => 0 <= config.KeyBinding.OutputValue b < 65536)
         (config.Profile.Bindings p) ->
  config.Profile.UnmarshalBinary p0 (fst (config.Profile.MarshalBinary p)) = (None, p).
Proof.
  destruct p as [v f c pat r1 cnt r2 name bs].
  cbn [config.Profile.Version config.Profile.Flags config.Profile.RGBColor
       config.Profile.Name config.Profile.Bindings].
  intros Hv Hf Hc Hname Hbs Hout.
  explode_bytes name Hname 16.
  do 32 (destruct bs as [|[] bs]; [discriminate Hbs|]).
  destruct bs; [|discriminate Hbs]. clear Hbs.
  repeat match goal with
         | H : Forall _ (_ :: _) |- _ =>
             apply Forall_cons in H; destruct H as [? H];
             cbn [config.KeyBinding.OutputValue] in *
         end.
  clear Hout.
  unfold config.Profile.UnmarshalBinary, config.Profile.MarshalBinary.
  cbv -[byte.of_Z Z.shiftr Uint16 Uint32].
  rewrite !Uint16_split by assumption.
  rewrite !Uint32_split by assumption.
  reflexivity.
Qed.

Lemma Profile_round_trip_witness :
  config.Profile.UnmarshalBinary config.Profile.zero
    (fst (config.Profile.MarshalBinary
            (config.Profile.set_Version config.Profile.zero config.CurrentVersion)))
  = (None, config.Profile.set_Version config.Profile.zero config.CurrentVersion).
Proof.
  apply (Profile_round_trip config.Profile.zero
           (config.Profile.set_Version config.Profile.zero config.CurrentVersion)).
  - unfold config.CurrentVersion. cbn. lia.
  - cbn. lia.
  - cbn. lia.
  - reflexivity.
  - reflexivity.
  - apply List.Forall_forall. intros b Hb.
    apply (repeat_spec 32 config.KeyBinding.zero) in Hb. subst b. cbn. lia.
Defined.

(** ** pkg/config: the stream codec and the profile name *)

Lemma copy_array_length n old src : length (config.copy_array n old src) = n.
Proof.
  unfold config.copy_array.
  rewrite length_firstn, length_app, length_skipn, length_app, repeat_length,
    length_firstn.
  lia.
Qed.

Lemma Profile_header_length (p : config.Profile.t) :
  length (PutUint16 (config.Profile.Version p) ++ PutUint32 (config.Profile.Flags p)
            ++ PutUint32 (config.Profile.RGBColor p)
            ++ [config.Profile.RGBPattern p; config.Profile.Reserved1 p;
                config.Profile.BindingCount p; config.Profile.Reserved2 p]
            ++ config.copy_array 16 [] (config.Profile.Name p)) = 30%nat.
Proof.
  rewrite !length_app, copy_array_length. reflexivity.
Qed.

Lemma bindings_chunk_length (p : config.Profile.t) (indices : list nat) :
  length (flat_map (fun i => config.KeyBinding.bytes
                               (nth i (config.Profile.Bindings p) config.KeyBinding.zero))
            indices)
  = (8 * length indices)%nat.
Proof.
  induction indices as [|i l IH]; [reflexivity|].
  cbn [flat_map]. rewrite length_app, IH. cbn [length]. 
  change (length (config.KeyBinding.bytes _)) with 8%nat. lia.
Qed.

(** The loop of [Marshal] on a writer that accepts every call. *)
Lemma Marshal_bindings_unlimited p indices : forall w,
  config_stream.calls_left w = None ->
  config_stream.Marshal_bindings p indices w
  = ((286, None),
     config_stream.mkWriter
       (config_stream.accepted w
          ++ flat_map (fun i => config.KeyBinding.bytes
                                  (nth i (config.Profile.Bindings p) config.KeyBinding.zero))
               indices)
       None (config_stream.refusal w)).
Proof.
  induction indices as [|i l IH]; intros [acc left err] Hleft;
    cbn [config_stream.calls_left] in Hleft; subst left.
  - cbn. now rewrite app_nil_r.
  - cbn [config_stream.Marshal_bindings]. unfold config_stream.Write.
    cbn [config_stream.calls_left config_stream.accepted config_stream.refusal].
    rewrite IH by reflexivity.
    cbn [config_stream.accepted config_stream.refusal flat_map].
    now rewrite <- app_assoc.
Qed.

(** The loop of [Marshal] on a writer that refuses its call number [j]
    (counting from 0) of the loop over the bindings [a, a + n). *)
Lemma Marshal_bindings_refused p n : forall a j acc err,
  (j < n)%nat ->
  config_stream.Marshal_bindings p (seq a n) (config_stream.mkWriter acc (Some j) err)
  = ((30 + Z.of_nat (a + j) * 8, Some err),
     config_stream.mkWriter
       (acc ++ flat_map (fun i => config.KeyBinding.bytes
                                    (nth i (config.Profile.Bindings p)
                                       config.KeyBinding.zero))
                 (seq a j))
       (Some O) err).
Proof.
  induction n as [|n IH]; intros a j acc err Hj; [lia|].
  cbn [seq config_stream.Marshal_bindings]. unfold config_stream.Write.
  cbn [config_stream.calls_left config_stream.accepted config_stream.refusal].
  destruct j as [|j].
  - cbn [seq flat_map]. rewrite app_nil_r, Nat.add_0_r. reflexivity.
  - rewrite IH by lia. cbn [seq flat_map]. rewrite <- app_assoc.
    replace (S a + j)%nat with (a + S j)%nat by lia. reflexivity.
Qed.

(** X25. [Profile.Marshal] on a writer that accepts every [Write]
    returns 286 and no error, and has written exactly the bytes that
    [Profile.MarshalBinary] returns. *)
Theorem Marshal_writes_MarshalBinary (p : config.Profile.t) (w : config_stream.Writer) :
  config_stream.calls_left w = None ->
  config_stream.Marshal p w
  = ((286, None),
     config_stream.mkWriter
       (config_stream.accepted w ++ fst (config.Profile.MarshalBinary p))
       None (config_stream.refusal w)).
Proof.
  intros Hleft. unfold config_stream.Marshal, config_stream.Write. rewrite Hleft.
  rewrite Marshal_bindings_unlimited by reflexivity.
  cbn [config_stream.accepted config_stream.refusal fst config.Profile.MarshalBinary].
  now rewrite <- app_assoc.
Qed.

Lemma Marshal_writes_MarshalBinary_witness :
  config_stream.Marshal config.Profile.zero (config_stream.mkWriter [] None EOF)
  = ((286, None),
     config_stream.mkWriter
       ([] ++ fst (config.Profile.MarshalBinary config.Profile.zero)) None EOF).
Proof.
  apply (Marshal_writes_MarshalBinary config.Profile.zero
           (config_stream.mkWriter [] None EOF)).
  reflexivity.
Defined.

(** X26. The count [Profile.Marshal] returns with an error is the number
    of bytes written: on a writer that accepts [k] calls and refuses the
    next, with [k <= 32], [Marshal] returns the writer's error and a count
    [n] (0 when the header was refused, [30 + 8 * (k - 1)] otherwise), and
    the writer has received exactly the first [n] bytes of the encoding. *)
Theorem Marshal_count_on_refusal
  (p : config.Profile.t) (acc : list byte) (k : nat) (err : error) :
  (k <= 32)%nat ->
  let n := match k with O => O | S j => (30 + 8 * j)%nat end in
  config_stream.Marshal p (config_stream.mkWriter acc (Some k) err)
  = ((Z.of_nat n, Some err),
     config_stream.mkWriter
       (acc ++ firstn n (fst (config.Profile.MarshalBinary p))) (Some O) err).
Proof.
  intros Hk n. unfold config_stream.Marshal, config_stream.Write.
  cbn [config_stream.calls_left config_stream.accepted config_stream.refusal].
  destruct k as [|j].
  - subst n. cbn [firstn]. now rewrite app_nil_r.
  - rewrite (Marshal_bindings_refused p 32 0 j) by lia.
    subst n. cbn [fst config.Profile.MarshalBinary]. f_equal.
    + f_equal. lia.
    + f_equal. rewrite <- app_assoc. f_equal.
      rewrite firstn_app, Profile_header_length.
      rewrite firstn_all2 by (rewrite Profile_header_length; lia). f_equal.
      replace (30 + 8 * j - 30)%nat with (8 * j)%nat by lia.
      replace (seq 0 32) with (seq 0 j ++ seq j (32 - j)).
      2:{ rewrite <- seq_app. f_equal. lia. }
      rewrite flat_map_app, firstn_app, bindings_chunk_length, length_seq.
      rewrite Nat.sub_diag. cbn [firstn]. rewrite app_nil_r.
      rewrite firstn_all2; [reflexivity|].
      rewrite bindings_chunk_length, length_seq. lia.
Qed.

Lemma Marshal_count_on_refusal_witness :
  config_stream.Marshal config.Profile.zero (config_stream.mkWriter [] (Some 3%nat) EOF)
  = ((Z.of_nat (30 + 8 * 2), Some EOF),
     config_stream.mkWriter
       ([] ++ firstn (30 + 8 * 2) (fst (config.Profile.MarshalBinary config.Profile.zero)))
       (Some O) EOF).
Proof.
  apply (Marshal_count_on_refusal config.Profile.zero [] 3 EOF). lia.
Defined.

Lemma until_zero_app_zero (b rest : list byte) :
  config.Profile.until_zero (b ++ Byte.x00 :: rest) = config.Profile.until_zero b.
Proof.
  induction b as [|x b IH]; [reflexivity|].
  cbn [app config.Profile.until_zero]. destruct (byte_eqb x Byte.x00); [reflexivity|].
  now rewrite IH.
Qed.

Lemma until_zero_no_zero (b : list byte) :
  Forall (fun x => x <> Byte.x00) b -> config.Profile.until_zero b = b.
Proof.
  induction 1 as [|x b Hx _ IH]; [reflexivity|].
  cbn [config.Profile.until_zero].
  destruct (byte_eqb x Byte.x00) eqn:E; [|now rewrite IH].
  destruct x; try discriminate E. contradiction.
Qed.

(** X27. [SetName] then [GetName]: on a profile with its 16 name bytes,
    the name read back is the name set, cut at 15 bytes and at its first
    zero byte if it has one; a name of at most 15 bytes without a zero
    byte is read back as it was set.  [Name] keeps its 16 bytes. *)
Theorem GetName_SetName (p : config.Profile.t) (name : list byte) :
  length (config.Profile.Name p) = 16%nat ->
  config.Profile.GetName (config.Profile.SetName p name)
  = config.Profile.until_zero (firstn 15 name)
  /\ length (config.Profile.Name (config.Profile.SetName p name)) = 16%nat
  /\ ((length name <= 15)%nat -> Forall (fun x => x <> Byte.x00) name ->
      config.Profile.GetName (config.Profile.SetName p name) = name).
Proof.
  intros Hlen.
  set (b := firstn 15 name).
  assert (Hb : (if (15 <? length name)%nat then firstn 15 name else name) = b).
  { destruct (15 <? length name)%nat eqn:E; [reflexivity|].
    apply Nat.ltb_ge in E. subst b. now rewrite firstn_all2. }
  assert (Hblen : (length b <= 15)%nat).
  { subst b. rewrite length_firstn. lia. }
  assert (Hcopy : config.copy_array 16 (config.Profile.Name p) b
                  = b ++ skipn (length b) (config.Profile.Name p)).
  { unfold config.copy_array.
    rewrite (firstn_all2 b) by lia.
    rewrite skipn_app.
    replace (length b - length (config.Profile.Name p))%nat with O by lia.
    cbn [skipn]. rewrite app_assoc.
    rewrite firstn_app.
    replace (16 - length (b ++ skipn (length b) (config.Profile.Name p)))%nat with O
      by (rewrite length_app, length_skipn; lia).
    cbn [firstn]. rewrite app_nil_r. apply firstn_all2.
    rewrite length_app, length_skipn. lia. }
  assert (Hname : config.Profile.Name (config.Profile.SetName p name)
                  = b ++ Byte.x00 :: skipn (S (length b)) (config.Profile.Name p)).
  { unfold config.Profile.SetName. rewrite Hb. cbn [config.Profile.Name config.Profile.set_Name].
    rewrite Hcopy.
    destruct (skipn (length b) (config.Profile.Name p)) as [|x rest] eqn:E.
    { apply (f_equal (@length byte)) in E. rewrite length_skipn in E. cbn in E. lia. }
    replace (length b) with (length b + 0)%nat at 1 by lia.
    rewrite insert_app_r. cbn [insert list_insert]. f_equal. f_equal.
    replace (S (length b)) with (1 + length b)%nat by lia.
    rewrite <- skipn_skipn, E. reflexivity. }
  assert (Hget : config.Profile.GetName (config.Profile.SetName p name)
                 = config.Profile.until_zero b).
  { unfold config.Profile.GetName. rewrite Hname. apply until_zero_app_zero. }
  split; [exact Hget|]. split.
  - rewrite Hname, length_app. cbn [length]. rewrite length_skipn. lia.
  - intros Hshort Hnz. rewrite Hget. subst b. rewrite firstn_all2 by lia.
    now apply until_zero_no_zero.
Qed.

Lemma GetName_SetName_witness :
  let name := [Byte.x47; Byte.x61; Byte.x6d; Byte.x65] in
  config.Profile.GetName (config.Profile.SetName config.Profile.zero name)
  = config.Profile.until_zero (firstn 15 name)
  /\ length (config.Profile.Name (config.Profile.SetName config.Profile.zero name))
     = 16%nat
  /\ ((length name <= 15)%nat -> Forall (fun x => x <> Byte.x00) name ->
      config.Profile.GetName (config.Profile.SetName config.Profile.zero name) = name).
Proof.
  intros name. apply (GetName_SetName config.Profile.zero name). reflexivity.
Defined.

(** X28. [Profile.Unmarshal] on a reader that holds at least 286 bytes
    decodes as [Profile.UnmarshalBinary] does on the same bytes and leaves
    the reader after the 286th byte. *)
Theorem Unmarshal_reads_UnmarshalBinary (p0 : config.Profile.t) (r : list byte) :
  length (config.Profile.Bindings p0) = 32%nat ->
  (286 <= length r)%nat ->
  config_stream.Unmarshal p0 r = (config.Profile.UnmarshalBinary p0 r, skipn 286 r).
Proof.
  intros Hbs Hlen.
  assert (Hd : length (firstn 286 r) = 286%nat) by (rewrite length_firstn; lia).
  pose proof (firstn_skipn 286 r) as Hr.
  set (data := firstn 286 r) in *. set (rest := skipn 286 r) in *.
  rewrite <- Hr. clearbody data rest. clear Hr Hlen r.
  destruct p0 as [v f c pat r1 cnt r2 name bs].
  cbn [config.Profile.Bindings] in Hbs.
  do 32 (destruct bs as [|? bs]; [discriminate Hbs|]).
  destruct bs; [|discriminate Hbs]. clear Hbs.
  explode_bytes data Hd 286.
  cbv -[le_combine]. reflexivity.
Qed.

Lemma Unmarshal_reads_UnmarshalBinary_witness :
  config_stream.Unmarshal config.Profile.zero (sample.profile_bytes 1 ++ [Byte.xff])
  = (config.Profile.UnmarshalBinary config.Profile.zero
       (sample.profile_bytes 1 ++ [Byte.xff]),
     skipn 286 (sample.profile_bytes 1 ++ [Byte.xff])).
Proof.
  apply (Unmarshal_reads_UnmarshalBinary config.Profile.zero
           (sample.profile_bytes 1 ++ [Byte.xff])).
  - reflexivity.
  - vm_compute. lia.
Defined.

(** The loop of [Unmarshal] on a reader that runs out: it stops with the
    reader's error, and the fields read from the header stay as they
    were set. *)
Lemma Unmarshal_bindings_short indices : forall p r,
  (length r < 8 * length indices)%nat ->
  exists err p',
    config_stream.Unmarshal_bindings p indices r = ((Some err, p'), [])
    /\ (err = EOF \/ err = ErrUnexpectedEOF)
    /\ config.Profile.Version p' = config.Profile.Version p
    /\ config.Profile.Name p' = config.Profile.Name p.
Proof.
  induction indices as [|i l IH]; intros p r Hlen; [cbn in Hlen; lia|].
  cbn [config_stream.Unmarshal_bindings]. unfold protocol.ReadFull.
  destruct r as [|b r].
  - exists EOF, p. auto.
  - destruct (length (b :: r) <? 8)%nat eqn:E.
    + exists ErrUnexpectedEOF, p. auto.
    + apply Nat.ltb_ge in E.
      destruct (IH (config_stream.set_Bindings p
                      (<[i := config.KeyBinding.read (firstn 8 (b :: r)) 0]>
                         (config.Profile.Bindings p)))
                   (skipn 8 (b :: r))) as (err & p' & Hrun & Herr & Hv & Hn).
      { rewrite length_skipn. cbn [length] in *. lia. }
      exists err, p'. split; [exact Hrun|]. split; [exact Herr|].
      split; [exact Hv | exact Hn].
Qed.

(** X29. A stream that ends inside the bindings: with at least the 30
    header bytes but fewer than 286 bytes in the reader, [Profile.Unmarshal]
    returns the reader's error ([io.EOF] or [io.ErrUnexpectedEOF]) after
    having overwritten the header fields of the profile, the version among
    them, whereas [Profile.UnmarshalBinary] on the same bytes returns
    [ErrInvalidSize] and leaves the profile as it was. *)
Theorem Unmarshal_short_stream_overwrites_header
  (p0 : config.Profile.t) (r : list byte) :
  (30 <= length r < 286)%nat ->
  (exists err p',
     config_stream.Unmarshal p0 r = ((Some err, p'), [])
     /\ (err = EOF \/ err = ErrUnexpectedEOF)
     /\ config.Profile.Version p' = Uint16 r)
  /\ config.Profile.UnmarshalBinary p0 r = (Some ErrInvalidSize, p0).
Proof.
  intros [Hlo Hhi]. split.
  - unfold config_stream.Unmarshal, protocol.ReadFull.
    destruct r as [|b r]; [cbn in Hlo; lia|].
    destruct (length (b :: r) <? 30)%nat eqn:E; [apply Nat.ltb_lt in E; lia|].
    match goal with
    | |- context [config_stream.Unmarshal_bindings ?p _ _] =>
        destruct (Unmarshal_bindings_short (seq 0 32) p (skipn 30 (b :: r)))
          as (err & p' & Hrun & Herr & Hv & _)
    end.
    { rewrite length_skipn, length_seq. lia. }
    exists err, p'. split; [exact Hrun|]. split; [exact Herr|].
    rewrite Hv. cbn [config.Profile.Version]. unfold Uint16.
    now rewrite firstn_firstn.
  - unfold config.Profile.UnmarshalBinary.
    destruct (length r <? 286)%nat eqn:E; [reflexivity|].
    apply Nat.ltb_ge in E. lia.
Qed.

Lemma Unmarshal_short_stream_overwrites_header_witness :
  let r := firstn 100 (sample.profile_bytes 1) in
  (exists err p',
     config_stream.Unmarshal config.Profile.zero r = ((Some err, p'), [])
     /\ (err = EOF \/ err = ErrUnexpectedEOF)
     /\ config.Profile.Version p' = Uint16 r)
  /\ config.Profile.UnmarshalBinary config.Profile.zero r
     = (Some ErrInvalidSize, config.Profile.zero).
Proof.
  intros r. apply (Unmarshal_short_stream_overwrites_header config.Profile.zero r).
  vm_compute. lia.
Defined.

(** X30. [ProfileExists] tells whether the slot is occupied when the
    device lets the [Open] through, and answers false when the device
    refuses it, whether the profile is there or not; in both cases the
    stored tree is left as it was. *)
Theorem ProfileExists_reports_occupied (m : Manager) (slot : byte) :
  fst (ProfileExists slot m)
  = match verdict (fs m) with
    | Some _ => false
    | None => occupied m slot
    end
  /\ nodes (fs (snd (ProfileExists slot m))) = nodes (fs m).
Proof.
  unfold ProfileExists. mstep.
  destruct (verdict (fs m)) as [f|] eqn:Hv.
  - assert (Ho : Open (profilePath slot) (fs m)
                 = (Err (LfsError (fault_errno f)),
                    mkLFS (nodes (fs m)) (tl (oracle (fs m)))
                      ((CallOpen (profilePath slot), Some f) :: trace (fs m))
                      (rename_replaces (fs m)))).
    { unfold Open, enter. now rewrite Hv. }
    rewrite Ho. split; reflexivity.
  - rewrite Open_calm by auto using profilePath_not_root. cbn [fst snd].
    unfold occupied.
    destruct (nodes (fs m) !! profilePath slot) as [[d|]|]; mstep;
      rewrite ?Close_nodes; split; reflexivity.
Qed.
